(** * NEXUSSENTINEL: the request pipeline and the lifecycle controller

    A shallow embedding of [src/config/index.ts], [src/middleware/requestId.ts]
    and [src/server.ts].  The TypeScript is glue around Node and a handful of
    npm packages, so the embedding has three layers:

    - [JS]: the fragment of the language runtime the code relies on
      (numbers, [Number(...)], [||], [??], [trim], [split]);
    - the functions of the repository, translated line by line
      ([Config.getConfig], [RequestId.requestId], [Server.makeLimiter],
      the middleware and the handlers of [Server], [Lifecycle.shutdown]);
    - the packages the repository calls but does not contain
      (express-rate-limit, prom-client, pino, the router and the response
      of Express 4, Node's timers and its [http.Server]); each of them is a
      small explicit state machine, and its doc comment says where its
      behaviour is taken from. *)

From Stdlib Require Import ZArith NArith List Bool Ascii String Lia.
From stdpp Require Import base option list gmap strings pretty.

Local Open Scope Z_scope.
Set Warnings "-register-all".

(** ** The JavaScript runtime fragment *)

Module JS.

(** A JavaScript number.  Every finite IEEE-754 double is a dyadic rational
    [m / 2^k]; [Dyadic m k] is kept in lowest terms ([k = 0] or [m] odd), so
    that Leibniz equality is equality of values.  The sign of zero is not
    represented: no operation of the program observes it. *)
Inductive number : Type :=
| NaN
| Infinity (negative : bool)
| Dyadic (m : Z) (k : N).

Definition of_Z (z : Z) : number := Dyadic z 0.

(** The number of trailing zero bits of a non-zero integer. *)
Definition trailing_zeros (m : Z) : Z := Z.log2 (Z.land m (- m)).

(** [m / 2^k] in lowest terms. *)
Definition dyadic (m : Z) (k : N) : number :=
  if m =? 0 then Dyadic 0 0
  else
    let s := Z.min (trailing_zeros m) (Z.of_N k) in
    Dyadic (Z.shiftr m s) (Z.to_N (Z.of_N k - s)).

(** Round-to-nearest, ties-to-even, of the positive rational [n / d] to a
    double (ECMA-262 6.1.6.1: 53 bits of precision, least exponent -1074,
    overflow to Infinity from 2^1024). *)
Definition floor_log2_ratio (n d : Z) : Z :=
  let e0 := Z.log2 n - Z.log2 d in
  let ge := if 0 <=? e0 then d * 2 ^ e0 <=? n else d <=? n * 2 ^ (- e0) in
  if ge then e0 else e0 - 1.

Definition round_half_even (n d : Z) : Z :=
  let q := n / d in
  let r := n mod d in
  match 2 * r ?= d with
  | Lt => q
  | Gt => q + 1
  | Eq => if Z.even q then q else q + 1
  end.

Definition round_pos (n d : Z) : number :=
  let e := floor_log2_ratio n d in
  let p := Z.max (e - 52) (-1074) in
  let q := if 0 <=? p then round_half_even n (d * 2 ^ p)
           else round_half_even (n * 2 ^ (- p)) d in
  if 0 <=? p then
    if 2 ^ 1024 <=? q * 2 ^ p then Infinity false else Dyadic (q * 2 ^ p) 0
  else dyadic q (Z.to_N (- p)).

Definition negate (x : number) : number :=
  match x with
  | NaN => NaN
  | Infinity s => Infinity (negb s)
  | Dyadic m k => Dyadic (- m) k
  end.

(** The double nearest to [n / d], for [d > 0]. *)
Definition round_ratio (n d : Z) : number :=
  if n =? 0 then Dyadic 0 0
  else if 0 <? n then round_pos n d
  else negate (round_pos (- n) d).

(** [ToBoolean] on numbers: [+0], [-0] and [NaN] are falsy. *)
Definition truthy (x : number) : bool :=
  match x with
  | NaN => false
  | Infinity _ => true
  | Dyadic m _ => negb (m =? 0)
  end.

(** [x <= y] (ECMA-262 IsLessThan): false as soon as one side is NaN. *)
Definition le (x y : number) : bool :=
  match x, y with
  | NaN, _ | _, NaN => false
  | Infinity true, _ => true
  | _, Infinity false => true
  | Infinity false, _ => false
  | _, Infinity true => false
  | Dyadic m k, Dyadic n j => m * 2 ^ Z.of_N j <=? n * 2 ^ Z.of_N k
  end.

(** An integer value that is at least zero: what a port or a per-minute
    ceiling is expected to be. *)
Definition nonneg_integer (x : number) : bool :=
  match x with
  | Dyadic m 0%N => 0 <=? m
  | _ => false
  end.

(** *** Strings

    A string is a sequence of code units; Rocq's [string] gives the code
    units 0..255, which is what Node hands over for header values (they are
    decoded as Latin-1).  The white space of [String.prototype.trim] and of
    [StringToNumber] in that range: TAB, LF, VT, FF, CR, SP and NBSP. *)
Definition is_white (c : ascii) : bool :=
  let n := N_of_ascii c in
  ((9 <=? n) && (n <=? 13) || (n =? 32) || (n =? 160))%N.

Fixpoint trimStart (s : string) : string :=
  match s with
  | String c s' => if is_white c then trimStart s' else s
  | EmptyString => EmptyString
  end.

(** [trimEnd s]: drop the white space that is followed by white space only. *)
Fixpoint trimEnd (s : string) : string :=
  match s with
  | EmptyString => EmptyString
  | String c s' =>
      match trimEnd s' with
      | EmptyString => if is_white c then EmptyString else String c EmptyString
      | t => String c t
      end
  end.

Definition trim (s : string) : string := trimEnd (trimStart s).

(** [s.split(sep)] for a one-character separator: always at least one
    piece, empty pieces included. *)
Fixpoint split (sep : ascii) (s : string) : list string :=
  match s with
  | EmptyString => [EmptyString]
  | String c s' =>
      if Ascii.eqb c sep then EmptyString :: split sep s'
      else match split sep s' with
           | piece :: rest => String c piece :: rest
           | [] => [String c EmptyString]
           end
  end.

(** ToBoolean on strings: only the empty string is falsy. *)
Definition nonempty (s : string) : bool :=
  match s with EmptyString => false | _ => true end.

(** [a || b] on an optional string ([undefined] is falsy too). *)
Definition or_else (a : option string) (b : string) : string :=
  match a with
  | Some s => if nonempty s then s else b
  | None => b
  end.

(** [a ?? b]: only [undefined] (and [null]) give way. *)
Definition nullish {A} (a : option A) (b : option A) : option A :=
  match a with
  | Some _ => a
  | None => b
  end.

(** ASCII lower case, as a case-insensitive regular expression sees it. *)
Definition lower (c : ascii) : ascii :=
  let n := N_of_ascii c in
  if ((65 <=? n) && (n <=? 90))%N then ascii_of_N (n + 32) else c.

Fixpoint toLowerCase (s : string) : string :=
  match s with
  | EmptyString => EmptyString
  | String c s' => String (lower c) (toLowerCase s')
  end.

(** *** [Number(string)]: ECMA-262 7.1.4.1.1 StringToNumber *)

Definition digit_value (radix : Z) (c : ascii) : option Z :=
  let n := Z.of_N (N_of_ascii c) in
  let v := if (48 <=? n) && (n <=? 57) then Some (n - 48)
           else if (97 <=? n) && (n <=? 102) then Some (n - 87)
           else if (65 <=? n) && (n <=? 70) then Some (n - 55)
           else None in
  match v with
  | Some d => if d <? radix then Some d else None
  | None => None
  end.

(** The longest prefix of digits: its value continuing from [acc], its
    length continuing from [len], and what follows. *)
Fixpoint digits (radix : Z) (s : string) (acc : Z) (len : Z) : Z * Z * string :=
  match s with
  | EmptyString => (acc, len, s)
  | String c s' =>
      match digit_value radix c with
      | Some d => digits radix s' (acc * radix + d) (len + 1)
      | None => (acc, len, s)
      end
  end.

(** A string that is digits of [radix] only, and at least one. *)
Definition all_digits (radix : Z) (s : string) : option Z :=
  match digits radix s 0 0 with
  | (v, len, EmptyString) => if 0 <? len then Some v else None
  | _ => None
  end.

(** ExponentPart, optional: [e] or [E], a sign, digits, up to the end. *)
Definition exponent_part (s : string) : option Z :=
  match s with
  | EmptyString => Some 0
  | String c s' =>
      if Ascii.eqb c "e" || Ascii.eqb c "E" then
        match s' with
        | String "+" ds => all_digits 10 ds
        | String "-" ds => option_map Z.opp (all_digits 10 ds)
        | ds => all_digits 10 ds
        end
      else None
  end.

(** [mant * 10^e] rounded to a double. *)
Definition decimal (mant e : Z) : number :=
  if 0 <=? e then round_ratio (mant * 10 ^ e) 1
  else round_ratio mant (10 ^ (- e)).

(** StrUnsignedDecimalLiteral. *)
Definition unsigned_decimal (s : string) : number :=
  if String.eqb s "Infinity" then Infinity false
  else
    let '(ip, ilen, r1) := digits 10 s 0 0 in
    match r1 with
    | String "." r2 =>
        let '(m, flen, r3) := digits 10 r2 ip 0 in
        if (ilen =? 0) && (flen =? 0) then NaN
        else match exponent_part r3 with
             | Some e => decimal m (e - flen)
             | None => NaN
             end
    | _ =>
        if ilen =? 0 then NaN
        else match exponent_part r1 with
             | Some e => decimal ip e
             | None => NaN
             end
    end.

Definition non_decimal (radix : Z) (ds : string) : number :=
  match all_digits radix ds with
  | Some v => round_ratio v 1
  | None => NaN
  end.

(** [Number(s)] for a string [s]. *)
Definition Number (s : string) : number :=
  match trim s with
  | EmptyString => Dyadic 0 0
  | String "0" (String "x" ds) | String "0" (String "X" ds) => non_decimal 16 ds
  | String "0" (String "o" ds) | String "0" (String "O" ds) => non_decimal 8 ds
  | String "0" (String "b" ds) | String "0" (String "B" ds) => non_decimal 2 ds
  | String "+" r => unsigned_decimal r
  | String "-" r => negate (unsigned_decimal r)
  | t => unsigned_decimal t
  end.

(** [x - y], correctly rounded; any NaN, or two infinities of one sign,
    give NaN. *)
Definition sub (x y : number) : number :=
  match x, y with
  | NaN, _ | _, NaN => NaN
  | Infinity s, Infinity t => if Bool.eqb s t then NaN else Infinity s
  | Infinity s, Dyadic _ _ => Infinity s
  | Dyadic _ _, Infinity t => Infinity (negb t)
  | Dyadic m k, Dyadic n j =>
      round_ratio (m * 2 ^ Z.of_N j - n * 2 ^ Z.of_N k) (2 ^ Z.of_N (k + j))
  end.

(** [Math.max(x, y)]: NaN when either is. *)
Definition max (x y : number) : number :=
  match x, y with
  | NaN, _ | _, NaN => NaN
  | _, _ => if le x y then y else x
  end.

(** [a || b] where [a] is an integer-valued number or [undefined]. *)
Definition int_or (a : option Z) (b : Z) : Z :=
  match a with
  | Some z => if z =? 0 then b else z
  | None => b
  end.

(** [a || b] on numbers. *)
Definition num_or (a b : number) : number := if truthy a then a else b.

(** How a call completes: with a value, or by throwing.  An exception that
    nothing catches at boot aborts the process. *)
Inductive completion (A : Type) : Type :=
| Normal (value : A)
| Throw (message : string).
Arguments Normal {A} value.
Arguments Throw {A} message.

(** A JSON value, as [res.json] and the logger serialize it.  An object is
    its list of fields in insertion order; a field whose value is
    [undefined] is never written, which [field_opt] renders. *)
Inductive json : Type :=
| JNull
| JBool (b : bool)
| JNum (n : number)
| JStr (s : string)
| JArr (items : list json)
| JObj (fields : list (string * json)).

Definition field_opt (k : string) (v : option json) : list (string * json) :=
  match v with
  | Some j => [(k, j)]
  | None => []
  end.

(** [o[k]] on the fields of an object: the first field named [k]. *)
Fixpoint get_field (k : string) (fs : list (string * json)) : option json :=
  match fs with
  | [] => None
  | (k', v) :: rest => if String.eqb k k' then Some v else get_field k rest
  end.

(** [Number(undefined)] is NaN. *)
Definition Number_opt (v : option string) : number :=
  match v with
  | Some s => Number s
  | None => NaN
  end.

End JS.


(** ** Node's process object: what the program reads of it *)

Module Node.

Record process : Type := {
  env : gmap string string;   (* process.env *)
  version : string            (* process.version *)
}.

End Node.

(** ** src/config/index.ts *)

Module Config.

Import JS.

Record RateLimit : Type := {
  globalPerMin : number;   (* 0 disables *)
  authPerMin : number      (* 0 disables *)
}.

Record Security : Type := {
  enableHelmet : bool;
  enableCSP : bool;
  enableHSTS : bool
}.

Record Logging : Type := {
  level : string;
  pretty : bool;
  includeBodies : bool
}.

Record Build : Type := {
  commit : option string;   (* string | undefined *)
  node : string
}.

(** [env] is declared as the union of three literals, but it is filled by
    an unchecked cast of [NODE_ENV]: at run time it is any non-empty
    string. *)
Record AppConfig : Type := {
  env : string;
  serviceName : string;
  host : string;
  port : number;
  corsOrigins : list string;
  rateLimit : RateLimit;
  security : Security;
  logging : Logging;
  build : Build
}.

(** [Number(v ?? d)] where [v] is a string of the environment and [d] a
    numeric literal: [Number] is the identity on a number. *)
Definition number_or_default (v : option string) (d : Z) : number :=
  match v with
  | Some s => Number s
  | None => of_Z d
  end.

(** Lines 31-81.  Nothing here can throw: reading a property of
    [process.env], [||], [??], the conditional, [Number] on a string or on a
    number, and [split]/[map]/[filter] on a string all complete normally,
    and there is no [throw] statement. *)
Definition getConfig (process : Node.process) : completion AppConfig :=
  let penv := Node.env process in
  let env := or_else (penv !! "NODE_ENV") "development" in
  let isProd := String.eqb env "production" in
  let isDev := String.eqb env "development" in
  let isTest := String.eqb env "test" in
  let serviceName :=
    or_else (penv !! "SERVICE_NAME")
      (if isProd then "nexus-sentinel" else if isDev then "local-dev" else "test-suite") in
  let corsEnv :=
    List.filter nonempty
      (List.map trim
         (split "," (or_else (penv !! "CORS_ORIGINS") (if isProd then "" else "*")))) in
  let corsOrigins := if (length corsEnv =? 0)%nat then [] else corsEnv in
  let rateDefaultEnv :=
    nullish (penv !! "RATE_LIMIT_DEFAULT_PER_MIN") (penv !! "RATE_LIMIT_PER_MINUTE") in
  let rateAuthEnv :=
    nullish (penv !! "RATE_LIMIT_AUTH_PER_MIN") (penv !! "RATE_LIMIT_AUTHZ_PER_MINUTE") in
  let rateLimitDefault :=
    number_or_default rateDefaultEnv (if isProd then 100 else if isDev then 1000 else 0) in
  let rateLimitAuth :=
    number_or_default rateAuthEnv (if isProd then 10 else if isDev then 0 else 0) in
  Normal {|
    env := env;
    serviceName := serviceName;
    host := or_else (penv !! "HOST") "0.0.0.0";
    port := num_or (Number_opt (penv !! "PORT")) (of_Z 200);
    corsOrigins := corsOrigins;
    rateLimit := {| globalPerMin := rateLimitDefault; authPerMin := rateLimitAuth |};
    security := {| enableHelmet := negb isTest; enableCSP := isProd; enableHSTS := isProd |};
    logging := {|
      level := or_else (penv !! "LOG_LEVEL")
                 (if isProd then "info" else if isDev then "debug" else "error");
      pretty := isDev;
      includeBodies := isDev |};
    build := {| commit := penv !! "GIT_COMMIT"; node := Node.version process |}
  |}.

Definition isProduction (cfg : AppConfig) : bool := String.eqb (env cfg) "production".

Definition isDevelopment (cfg : AppConfig) : bool := String.eqb (env cfg) "development".

Definition isTest (cfg : AppConfig) : bool := String.eqb (env cfg) "test".

End Config.

(** ** prom-client: the histogram *)

Module Prom.

(** The label tuple [(method, route, status)]. *)
Definition Labels : Type := string * string * string.

(** What one label tuple has accumulated: a counter per bucket, the last
    one being the overflow bucket, the sum and the number of observations. *)
Record Distribution : Type := {
  counts : list Z;
  sum : Z;
  count : Z
}.

Record Histogram : Type := {
  name : string;
  help : string;
  labelNames : list string;
  buckets : list Z;
  data : gmap Labels Distribution
}.

(** The bucket an observation falls into: the number of upper bounds below
    it (the bounds are increasing), the overflow bucket when all are. *)
Definition bucket_index (bounds : list Z) (v : Z) : nat :=
  length (List.filter (fun b => b <? v) bounds).

Definition empty_distribution (bounds : list Z) : Distribution :=
  {| counts := List.map (fun _ => 0) (0 :: bounds); sum := 0; count := 0 |}.

Definition record (bounds : list Z) (v : Z) (d : Distribution) : Distribution :=
  {| counts := alter (Z.add 1) (bucket_index bounds v) (counts d);
     sum := sum d + v;
     count := count d + 1 |}.

(** [h.labels(...).observe(v)] *)
Definition observe (l : Labels) (v : Z) (h : Histogram) : Histogram :=
  let d := default (empty_distribution (buckets h)) (data h !! l) in
  {| name := name h; help := help h; labelNames := labelNames h;
     buckets := buckets h;
     data := <[l := record (buckets h) v d]> (data h) |}.

(** The number of observations a histogram holds for a label tuple. *)
Definition observations (l : Labels) (h : Histogram) : Z :=
  match data h !! l with
  | Some d => count d
  | None => 0
  end.

End Prom.

(** ** Requests, responses and the process-wide state *)

Module Http.

(** A value of a response header: [setHeader] keeps what it is given. *)
Inductive HeaderValue : Type :=
| HStr (s : string)
| HNum (n : JS.number)
| HVendor (package : string).   (* a value the named package chooses *)

(** The body of the request as [express.json] will find it. *)
Inductive Payload : Type :=
| NoPayload
| JsonPayload (j : JS.json)
| Malformed (message : string) (stack : string).

(** The inbound message as Node parsed it: header names are lower case. *)
Record Incoming : Type := {
  method : string;
  path : string;                    (* req.path: the URL's pathname *)
  ip : string;                      (* req.ip *)
  headers : list (string * string); (* req.headers, in insertion order *)
  payload : Payload
}.

(** The request object: the message and what the middleware attach. *)
Record Request : Type := {
  message : Incoming;
  requestId : option string;        (* (req as any).requestId *)
  id : option string;               (* req.id, set by pino-http *)
  body : option JS.json;            (* req.body, set by express.json *)
  route : option string             (* req.route?.path *)
}.

(** A thrown value, as far as the error handler reads it.  [status] is a
    number or absent; the integer stands for the number. *)
Record Thrown : Type := {
  status : option Z;
  errMessage : option string;
  stack : option string
}.

(** What the handler hands to [res.json] or [res.end].  What Node then
    leaves out on the wire (the body of a HEAD request and of a 204 or 304
    response, and the whole answer to a conditional request that Express
    finds fresh) is not modelled. *)
Inductive Body : Type :=
| Json (j : JS.json)
| Text (s : string)
| Exposition (metrics : Prom.Histogram)   (* register.metrics() *)
| Page (package : string).                (* an HTML page the named package renders *)

(** A listener of the response's [finish] event: the closure of the
    logger, and the closure of lines 104-107 with the [start] it captured. *)
Inductive Listener : Type :=
| LogCompleted (start : Z)
| ObserveDuration (start : Z).

Record Response : Type := {
  statusCode : Z;
  resHeaders : gmap string HeaderValue;
  resBody : option Body;
  finished : bool;
  listeners : list Listener
}.

(** One fixed window of one client (express-rate-limit's store entry). *)
Record Window : Type := {
  hits : Z;
  resetTime : Z
}.

Inductive Class : Type := Global | Auth.

(** Everything that outlives a request. *)
Record World : Type := {
  uuidOracle : nat -> string;       (* what the n-th randomUUID() returns *)
  uuidsDrawn : nat;
  globalStore : gmap string Window;
  authStore : gmap string Window;
  httpRequestDurationMs : Prom.Histogram;
  logs : list JS.json;
  uptime : JS.number                (* process.uptime() *)
}.

(** What a middleware sees and changes; [now] is [Date.now()]. *)
Record Ctx : Type := {
  req : Request;
  res : Response;
  world : World;
  now : Z
}.

(** How a middleware hands over: [next()], [next(err)] or a throw, or the
    response was ended and [next] not called. *)
Inductive Decision : Type :=
| Next
| NextErr (e : Thrown)
| Done.

Definition Middleware : Type := Ctx -> Ctx * Decision.

Definition newRequest (m : Incoming) : Request :=
  {| message := m; requestId := None; id := None; body := None; route := None |}.

Definition newResponse : Response :=
  {| statusCode := 200; resHeaders := ∅; resBody := None; finished := false;
     listeners := [] |}.

(** *** Field updates *)

Definition set_req (f : Request -> Request) (c : Ctx) : Ctx :=
  {| req := f (req c); res := res c; world := world c; now := now c |}.
Definition set_res (f : Response -> Response) (c : Ctx) : Ctx :=
  {| req := req c; res := f (res c); world := world c; now := now c |}.
Definition set_world (f : World -> World) (c : Ctx) : Ctx :=
  {| req := req c; res := res c; world := f (world c); now := now c |}.
Definition set_now (t : Z) (c : Ctx) : Ctx :=
  {| req := req c; res := res c; world := world c; now := t |}.

Definition with_requestId (v : option string) (r : Request) : Request :=
  {| message := message r; requestId := v; id := id r; body := body r; route := route r |}.
Definition with_id (v : option string) (r : Request) : Request :=
  {| message := message r; requestId := requestId r; id := v; body := body r; route := route r |}.
Definition with_body (v : option JS.json) (r : Request) : Request :=
  {| message := message r; requestId := requestId r; id := id r; body := v; route := route r |}.
Definition with_route (v : option string) (r : Request) : Request :=
  {| message := message r; requestId := requestId r; id := id r; body := body r; route := v |}.

(** [res.setHeader(name, value)]: header names are case-insensitive. *)
Definition setHeader (k : string) (v : HeaderValue) (r : Response) : Response :=
  {| statusCode := statusCode r;
     resHeaders := <[JS.toLowerCase k := v]> (resHeaders r);
     resBody := resBody r; finished := finished r; listeners := listeners r |}.

(** [res.status(code)] *)
Definition setStatus (code : Z) (r : Response) : Response :=
  {| statusCode := code; resHeaders := resHeaders r; resBody := resBody r;
     finished := finished r; listeners := listeners r |}.

(** The status codes that Node agrees to write: [writeHead] throws
    ERR_HTTP_INVALID_STATUS_CODE for any other. *)
Definition validStatus (code : Z) : bool := (100 <=? code) && (code <=? 999).

(** [res.end(body)] *)
Definition endWith (b : option Body) (r : Response) : Response :=
  {| statusCode := statusCode r; resHeaders := resHeaders r; resBody := b;
     finished := true; listeners := listeners r |}.

(** The first step of [res.json(value)]: the content type, unless one is
    set. *)
Definition jsonContentType (r : Response) : Response :=
  match resHeaders r !! "content-type" with
  | Some _ => r
  | None => setHeader "Content-Type" (HStr "application/json; charset=utf-8") r
  end.

(** [res.json(value)]: the content type unless one is set, then the body. *)
Definition sendJson (j : JS.json) (r : Response) : Response :=
  let r1 := match resHeaders r !! "content-type" with
            | Some _ => r
            | None => setHeader "Content-Type" (HStr "application/json; charset=utf-8") r
            end in
  endWith (Some (Json j)) r1.

(** [res.on("finish", listener)] *)
Definition onFinish (l : Listener) (r : Response) : Response :=
  {| statusCode := statusCode r; resHeaders := resHeaders r; resBody := resBody r;
     finished := finished r; listeners := listeners r ++ [l] |}.

Definition with_uuidsDrawn (n : nat) (w : World) : World :=
  {| uuidOracle := uuidOracle w; uuidsDrawn := n; globalStore := globalStore w;
     authStore := authStore w; httpRequestDurationMs := httpRequestDurationMs w;
     logs := logs w; uptime := uptime w |}.
Definition with_store (cls : Class) (s : gmap string Window) (w : World) : World :=
  {| uuidOracle := uuidOracle w; uuidsDrawn := uuidsDrawn w;
     globalStore := match cls with Global => s | Auth => globalStore w end;
     authStore := match cls with Global => authStore w | Auth => s end;
     httpRequestDurationMs := httpRequestDurationMs w;
     logs := logs w; uptime := uptime w |}.
Definition with_histogram (h : Prom.Histogram) (w : World) : World :=
  {| uuidOracle := uuidOracle w; uuidsDrawn := uuidsDrawn w; globalStore := globalStore w;
     authStore := authStore w; httpRequestDurationMs := h;
     logs := logs w; uptime := uptime w |}.
Definition with_logs (l : list JS.json) (w : World) : World :=
  {| uuidOracle := uuidOracle w; uuidsDrawn := uuidsDrawn w; globalStore := globalStore w;
     authStore := authStore w; httpRequestDurationMs := httpRequestDurationMs w;
     logs := l; uptime := uptime w |}.

Definition store (cls : Class) (w : World) : gmap string Window :=
  match cls with Global => globalStore w | Auth => authStore w end.

(** [o[k]] on the headers of a message: the first entry named [k]. *)
Fixpoint get_header (k : string) (hs : list (string * string)) : option string :=
  match hs with
  | [] => None
  | (k', v) :: rest => if String.eqb k k' then Some v else get_header k rest
  end.

(** [req.header(name)] *)
Definition header (r : Request) (name : string) : option string :=
  get_header (JS.toLowerCase name) (headers (message r)).

(** [crypto.randomUUID()]: the next value of the oracle. *)
Definition randomUUID (c : Ctx) : string * Ctx :=
  let w := world c in
  (uuidOracle w (uuidsDrawn w), set_world (with_uuidsDrawn (S (uuidsDrawn w))) c).

End Http.

(** ** src/middleware/requestId.ts *)

Module RequestId.

Import Http.

Definition requestIdHeader : string := "x-request-id".

(** Lines 6-12. *)
Definition requestId : Middleware := fun c =>
  let incoming := header (req c) requestIdHeader in
  let '(id, c1) :=
    match incoming with
    | Some s =>
        if JS.nonempty s && (0 <? Z.of_nat (String.length (JS.trim s)))
        then (s, c) else randomUUID c
    | None => randomUUID c
    end in
  let c2 := set_req (with_requestId (Some id)) c1 in
  let c3 := set_res (setHeader requestIdHeader (HStr id)) c2 in
  (c3, Next).

(** Lines 14-16. *)
Definition getRequestId (r : Request) : option string := Http.requestId r.

End RequestId.

(** ** express-rate-limit *)

Module RateLimiter.

Import Http.

Record Options : Type := {
  windowMs : Z;
  limit : JS.number;
  standardHeaders : bool;
  legacyHeaders : bool
}.

Inductive Verdict : Type := Allowed | Rejected.

(** Modelled from the spec: the package express-rate-limit is not under
    src/.  Section 4.4: "On each call: if no window is active or the active
    window has expired, start a new window with count 1 and admit; otherwise
    increment the count and admit if count <= ceiling, else reject."  The
    window is "per class" and the call is [admit(class, clientKey)]: one
    store per limiter, one window per client key in it.  A window whose
    expiry is not after the current time has expired. *)
Definition admitRequest (o : Options) (key : string) (t : Z) (st : gmap string Window)
  : gmap string Window * Window * Verdict :=
  let fresh := {| hits := 1; resetTime := t + windowMs o |} in
  match st !! key with
  | None => (<[key := fresh]> st, fresh, Allowed)
  | Some w =>
      if resetTime w <=? t then (<[key := fresh]> st, fresh, Allowed)
      else
        let w' := {| hits := hits w + 1; resetTime := resetTime w |} in
        (<[key := w']> st, w',
         if JS.le (JS.of_Z (hits w')) (limit o) then Allowed else Rejected)
  end.

(** Whole seconds until the window expires, rounded up. *)
Definition secondsUntil (t reset : Z) : Z := (reset - t + 999) / 1000.

(** Modelled from the spec (sections 4.4 and 6): the "standard rate-limit
    headers (current limit, remaining count, reset time)". *)
Definition standard (o : Options) (w : Window) (t : Z) (r : Response) : Response :=
  setHeader "RateLimit-Limit" (HNum (limit o))
    (setHeader "RateLimit-Remaining"
       (HNum (JS.max (JS.of_Z 0) (JS.sub (limit o) (JS.of_Z (hits w)))))
       (setHeader "RateLimit-Reset" (HNum (JS.of_Z (secondsUntil t (resetTime w)))) r)).

Definition tooMany : Body := Text "Too many requests, please try again later.".

(** Modelled from the spec: [rateLimit(options)], the middleware.  It keys
    the window by the client address; a rejected request gets status 429
    with the headers above, and [next] is not called ("must short-circuit
    before reaching any route handler, metrics timer start, or business
    logic"). *)
Definition rateLimit (cls : Class) (o : Options) : Middleware := fun c =>
  let '(st, w, v) := admitRequest o (ip (message (req c))) (now c) (store cls (world c)) in
  let c1 := set_world (with_store cls st) c in
  let c2 := if standardHeaders o then set_res (standard o w (now c)) c1 else c1 in
  match v with
  | Allowed => (c2, Next)
  | Rejected =>
      (set_res (fun r => endWith (Some tooMany)
                           (setHeader "Retry-After"
                              (HNum (JS.of_Z (secondsUntil (now c) (resetTime w))))
                              (setStatus 429 r))) c2,
       Done)
  end.

End RateLimiter.

(** ** pino and pino-http *)

Module Pino.

Import Http.

Record Redact : Type := {
  paths : list string;
  censor : string
}.

Record Options : Type := {
  level : string;
  redact : Redact
}.

(** Modelled from the spec: the package pino is not under src/.  Section
    4.3: the values named by the redaction paths "are replaced with a fixed
    redaction marker before serialization".  A path that does not exist in
    the record adds nothing to it. *)
Fixpoint redact_path (path : list string) (mark : JS.json) (j : JS.json) : JS.json :=
  match path with
  | [] => mark
  | k :: rest =>
      match j with
      | JS.JObj fs =>
          JS.JObj (List.map (fun kv => if String.eqb k (fst kv)
                                       then (fst kv, redact_path rest mark (snd kv))
                                       else kv) fs)
      | _ => j
      end
  end.

Definition redacted (o : Redact) (record : JS.json) : JS.json :=
  fold_left (fun acc p => redact_path (JS.split "." p) (JS.JStr (censor o)) acc)
    (paths o) record.

(** A record is redacted, then written. *)
Definition write (o : Options) (record : JS.json) (w : World) : World :=
  with_logs (logs w ++ [redacted (redact o) record]) w.

(** The request and the response as the record holds them.  They are
    written in full, so that each redaction path has something to act on;
    the serializers that pino-http installs by default write a part of
    this (they leave the bodies out). *)
Definition serializeReq (r : Request) : JS.json :=
  JS.JObj
    (JS.field_opt "id" (option_map JS.JStr (id r)) ++
     [("method", JS.JStr (method (message r)));
      ("url", JS.JStr (path (message r)));
      ("headers",
       JS.JObj (List.map (fun kv => (fst kv, JS.JStr (snd kv))) (headers (message r))))] ++
     JS.field_opt "body" (body r)).

Definition serializeBody (b : Body) : JS.json :=
  match b with
  | Json j => j
  | Text s => JS.JStr s
  | Exposition _ => JS.JStr "# metrics"
  | Page _ => JS.JStr "<!DOCTYPE html>"
  end.

Definition serializeRes (r : Response) : JS.json :=
  JS.JObj
    ([("statusCode", JS.JNum (JS.of_Z (statusCode r)))] ++
     JS.field_opt "body" (option_map serializeBody (resBody r))).

Record HttpOptions : Type := {
  logger : Options;
  genReqId : Ctx -> string * Ctx;
  customProps : Request -> list (string * JS.json);
  autoLogging : bool
}.

(** Modelled from the spec: the package pino-http is not under src/.
    Section 4.3: "for every request, emit one start and one finish
    structured record containing at minimum: correlation identifier, method,
    path, status (finish only), duration (finish only), environment, service
    name."  The level threshold of the logger is not modelled: it can only
    remove records. *)
Definition started (o : HttpOptions) (c : Ctx) : JS.json :=
  JS.JObj ([("req", serializeReq (req c))] ++ customProps o (req c) ++
           [("msg", JS.JStr "request started")]).

Definition completed (o : HttpOptions) (start : Z) (c : Ctx) : JS.json :=
  JS.JObj ([("req", serializeReq (req c)); ("res", serializeRes (res c));
            ("responseTime", JS.JNum (JS.of_Z (now c - start)))] ++
           customProps o (req c) ++
           [("msg", JS.JStr "request completed")]).

Definition pinoHttp (o : HttpOptions) : Middleware := fun c =>
  let '(rid, c1) := genReqId o c in
  let c2 := set_req (with_id (Some rid)) c1 in
  if autoLogging o then
    let c3 := set_world (write (logger o) (started o c2)) c2 in
    (set_res (onFinish (LogCompleted (now c))) c3, Next)
  else (c2, Next).

End Pino.

(** ** The other middleware packages

    morgan, body-parser ([express.json]), cors and helmet are not under
    src/ either.  What is kept of each is its place in the pipeline, whether
    it goes on, and the names of the headers it sets; a value the package
    computes is [HVendor]. *)

Module Vendor.

Import Http.

(** [morgan("dev")] prints a line to the standard output when the response
    is finished; it changes neither request nor response. *)
Definition morgan : Middleware := fun c => (c, Next).

(** [express.json(...)]: the parsed body, or a 400 error. *)
Definition json : Middleware := fun c =>
  match payload (message (req c)) with
  | NoPayload => (set_req (with_body (Some (JS.JObj []))) c, Next)
  | JsonPayload j => (set_req (with_body (Some j)) c, Next)
  | Malformed m st =>
      (c, NextErr {| status := Some 400; errMessage := Some m; stack := Some st |})
  end.

Record CorsOptions : Type := {
  origin : option (list string);   (* [None] is [true]: any origin *)
  credentials : bool
}.

Definition allowed (o : CorsOptions) (v : string) : bool :=
  match origin o with
  | None => true
  | Some l => existsb (String.eqb v) l
  end.

(** [cors(options)]: a preflight request is answered here with 204. *)
Definition cors (o : CorsOptions) : Middleware := fun c =>
  let r0 := res c in
  let r1 := match header (req c) "origin" with
            | Some v => if allowed o v
                        then setHeader "Access-Control-Allow-Origin" (HStr v) r0 else r0
            | None => r0
            end in
  let r2 := setHeader "Vary" (HStr "Origin") r1 in
  let r3 := if credentials o
            then setHeader "Access-Control-Allow-Credentials" (HStr "true") r2 else r2 in
  if String.eqb (method (message (req c))) "OPTIONS"
  then (set_res (fun _ => endWith None (setStatus 204 r3)) c, Done)
  else (set_res (fun _ => r3) c, Next).

Record HelmetOptions : Type := {
  contentSecurityPolicy : bool;
  hstsMaxAge : bool;              (* an explicit maxAge was given *)
  referrerPolicy : string;
  frameguard : string
}.

Definition helmet (o : HelmetOptions) : Middleware := fun c =>
  let r0 := res c in
  let r1 := if contentSecurityPolicy o
            then setHeader "Content-Security-Policy" (HVendor "helmet") r0 else r0 in
  let r2 := setHeader "Strict-Transport-Security" (HVendor "helmet") r1 in
  let r3 := setHeader "Referrer-Policy" (HStr (referrerPolicy o)) r2 in
  let r4 := setHeader "X-Frame-Options"
              (HStr (if String.eqb (frameguard o) "deny" then "DENY" else "SAMEORIGIN")) r3 in
  (set_res (fun _ => r4) c, Next).

End Vendor.

(** ** The Express router

    The router of Express 4: the layers of the stack in the order of
    registration, the matching of paths, and the final handler. *)

Module Express.

Import Http.

Inductive Handler : Type :=
| Plain (h : Middleware)               (* (req, res, next) *)
| OnError (h : Thrown -> Middleware).  (* (err, req, res, next) *)

Inductive Mount : Type :=
| Everywhere                           (* app.use(h) *)
| Under (prefixes : list string)       (* app.use([p, ...], h) *)
| Get (pattern : string).              (* app.get(p, h) *)

Record Layer : Type := {
  name : string;
  mount : Mount;
  handler : Handler
}.

(** A path below a mount point: the prefix, then the end or a slash.
    Matching is case-insensitive. *)
Definition under (prefix p : string) : bool :=
  let lp := JS.toLowerCase p in
  String.prefix prefix lp &&
  match String.get (String.length prefix) lp with
  | None => true
  | Some ch => Ascii.eqb ch "/"
  end.

(** The pattern ends in a slash. *)
Definition endsInSlash (pattern : string) : bool :=
  match String.get (String.length pattern - 1) pattern with
  | Some ch => Ascii.eqb ch "/"
  | None => false
  end.

(** A route's path, as the router of Express 4 matches it ([strict] and
    [caseSensitive] are off).  A pattern [p] without parameters is compiled
    (path-to-regexp 0.1) to the expression [^p/?$], and one that ends in a
    slash to [^p?$]; the case is ignored.  So a path takes the route when it
    is the pattern, or the pattern with one slash more; for a pattern that
    ends in a slash, such as the root, when it is the pattern or the
    pattern without that slash. *)
Definition routed (pattern p : string) : bool :=
  let lp := JS.toLowerCase p in
  let lq := JS.toLowerCase pattern in
  String.eqb lp lq ||
  (if endsInSlash lq
   then String.eqb lp (String.substring 0 (String.length lq - 1) lq)
   else String.eqb lp (lq ++ "/")).

Definition matches (m : Mount) (r : Request) : bool :=
  match m with
  | Everywhere => true
  | Under ps => existsb (fun pre => under pre (path (message r))) ps
  | Get pattern =>
      (String.eqb (method (message r)) "GET" || String.eqb (method (message r)) "HEAD")
      && routed pattern (path (message r))
  end.

(** Before a route's handler runs, [req.route] is the route. *)
Definition enter (m : Mount) (c : Ctx) : Ctx :=
  match m with
  | Get pattern => set_req (with_route (Some pattern)) c
  | _ => c
  end.

(** A status in 400..599. *)
Definition isErrorStatus (code : Z) : bool := (400 <=? code) && (code <=? 599).

(** The status that the package finalhandler answers with when the stack
    is exhausted: 404 when no error is pending; otherwise the status of the
    error when that is an error status, else the status of the response
    when that is one, else 500. *)
Definition finalStatus (err : option Thrown) (r : Response) : Z :=
  let fallback := if isErrorStatus (statusCode r) then statusCode r else 500 in
  match err with
  | None => 404
  | Some e =>
      match status e with
      | Some s => if isErrorStatus s then s else fallback
      | None => fallback
      end
  end.

(** What Express answers when the stack is exhausted (finalhandler): the
    status above and an HTML page of its own, with the headers that go with
    it.  The headers that were set before stay. *)
Definition finalhandler (err : option Thrown) (c : Ctx) : Ctx :=
  set_res (fun r =>
    endWith (Some (Page "finalhandler"))
      (setHeader "Content-Type" (HStr "text/html; charset=utf-8")
         (setHeader "X-Content-Type-Options" (HStr "nosniff")
            (setHeader "Content-Security-Policy" (HStr "default-src 'none'")
               (setStatus (finalStatus err r) r))))) c.

(** A layer that ran: its name, the request object as it was handed to
    the handler, and how the handler handed over. *)
Record Visit : Type := {
  layer : string;
  seen : Request;
  handed : Decision
}.

Definition Trace : Type := list Visit.

(** Where a stack leaves a request: answered, or not, possibly with a
    pending error. *)
Inductive Outcome : Type :=
| Ended
| Unanswered (err : option Thrown).

(** The handler of a layer that takes the request in hand: a layer whose
    mount point matches, and an error handler exactly when an error is
    pending. *)
Definition invoke (l : Layer) (err : option Thrown) (r : Request) : option Middleware :=
  if matches (mount l) r then
    match err, handler l with
    | None, Plain h => Some h
    | Some e, OnError h => Some (h e)
    | _, _ => None
    end
  else None.

(** One request through a stack ([next] after [next]). *)
Fixpoint pass (stack : list Layer) (err : option Thrown) (c : Ctx) : Ctx * Outcome * Trace :=
  match stack with
  | [] => (c, Unanswered err, [])
  | l :: rest =>
      match invoke l err (req c) with
      | None => pass rest err c
      | Some h =>
          let c0 := enter (mount l) c in
          let '(c1, d) := h c0 in
          let v := {| layer := name l; seen := req c0; handed := d |} in
          match d with
          | Next => let '(c2, o, tr) := pass rest None c1 in (c2, o, v :: tr)
          | NextErr e => let '(c2, o, tr) := pass rest (Some e) c1 in (c2, o, v :: tr)
          | Done => (c1, Ended, [v])
          end
      end
  end.

(** [app.handle(req, res)]: the stack, then the final handler. *)
Definition dispatch (stack : list Layer) (c : Ctx) : Ctx * Trace :=
  let '(c1, o, tr) := pass stack None c in
  match o with
  | Ended => (c1, tr)
  | Unanswered err => (finalhandler err c1, tr)
  end.


End Express.

(** ** src/server.ts: the pipeline *)

Module Server.

Import Http Express.

Section App.

(** Line 14: [const cfg = getConfig()]. *)
Variable cfg : Config.AppConfig.

(** Lines 17-23. *)
Definition logger : Pino.Options :=
  {| Pino.level := Config.level (Config.logging cfg);
     Pino.redact :=
       {| Pino.paths := ["req.headers.authorization"; "req.body.password"; "res.body"];
          Pino.censor := "[REDACTED]" |} |}.

(** Lines 36-41. *)
Definition httpLogger : Pino.HttpOptions :=
  {| Pino.logger := logger;
     Pino.genReqId := fun c =>
       match RequestId.getRequestId (req c) with
       | Some rid => (rid, c)
       | None => randomUUID c
       end;
     Pino.customProps := fun _ =>
       [("env", JS.JStr (Config.env cfg)); ("service", JS.JStr (Config.serviceName cfg))];
     Pino.autoLogging := true |}.

(** Line 51. *)
Definition allowAll : bool := existsb (String.eqb "*") (Config.corsOrigins cfg).

(** Lines 53-56. *)
Definition corsOptions : Vendor.CorsOptions :=
  {| Vendor.origin := if allowAll then None else Some (Config.corsOrigins cfg);
     Vendor.credentials := true |}.

(** Lines 61-75. *)
Definition helmetOptions : Vendor.HelmetOptions :=
  {| Vendor.contentSecurityPolicy := Config.enableCSP (Config.security cfg);
     Vendor.hstsMaxAge := Config.enableHSTS (Config.security cfg);
     Vendor.referrerPolicy := "no-referrer";
     Vendor.frameguard := "deny" |}.

(** Lines 80-88.  Every call of [rateLimit] creates a store of its own;
    [cls] says which of the two stores of the process this one is. *)
Definition makeLimiter (cls : Class) (perMin : JS.number) : Middleware :=
  if JS.le perMin (JS.of_Z 0) then fun c => (c, Next)
  else RateLimiter.rateLimit cls
         {| RateLimiter.windowMs := 60 * 1000;
            RateLimiter.limit := perMin;
            RateLimiter.standardHeaders := true;
            RateLimiter.legacyHeaders := false |}.

(** Lines 96-101, at boot. *)
Definition httpRequestDurationMs0 : Prom.Histogram :=
  {| Prom.name := "http_request_duration_ms";
     Prom.help := "Duration of HTTP requests in ms";
     Prom.labelNames := ["method"; "route"; "status"];
     Prom.buckets := [50; 100; 200; 300; 400; 500; 1000; 2000];
     Prom.data := ∅ |}.

(** Lines 102-109: the timer. *)
Definition metricsTimer : Middleware := fun c =>
  let start := now c in
  (set_res (onFinish (ObserveDuration start)) c, Next).

(** Lines 104-107: the listener, when [finish] is emitted. *)
Definition observeDuration (start : Z) (c : Ctx) : Ctx :=
  let duration := now c - start in
  let labels := (method (message (req c)),
                 JS.or_else (route (req c)) (path (message (req c))),
                 pretty (statusCode (res c))) in
  set_world (fun w => with_histogram
                        (Prom.observe labels duration (httpRequestDurationMs w)) w) c.

(** Lines 112-119. *)
Definition version : Middleware := fun c =>
  (set_res (sendJson (JS.JObj
     ([("service", JS.JStr (Config.serviceName cfg));
       ("env", JS.JStr (Config.env cfg));
       ("node", JS.JStr (Config.node (Config.build cfg)))] ++
      JS.field_opt "commit" (option_map JS.JStr (Config.commit (Config.build cfg)))))) c,
   Done).

(** Lines 122-124. *)
Definition healthz : Middleware := fun c =>
  (set_res (sendJson (JS.JObj
     [("ok", JS.JBool true);
      ("uptime", JS.JNum (uptime (world c)));
      ("ts", JS.JNum (JS.of_Z (now c)))])) c,
   Done).

(** Lines 126-131. *)
Definition readyz : Middleware := fun c =>
  let healthy := true in
  if negb healthy && Config.isProduction cfg
  then (set_res (fun r => sendJson (JS.JObj [("ok", JS.JBool false)]) (setStatus 503 r)) c,
        Done)
  else (set_res (sendJson (JS.JObj [("ok", JS.JBool true)])) c, Done).

(** Lines 134-137.  The body is rendered from the registry as it is when
    the handler runs. *)
Definition metrics : Middleware := fun c =>
  (set_res (fun r => endWith (Some (Exposition (httpRequestDurationMs (world c))))
                       (setHeader "Content-Type" (HVendor "prom-client") r)) c,
   Done).

(** Lines 140-149. *)
Definition root : Middleware := fun c =>
  (set_res (fun r => sendJson (JS.JObj
     [("name", JS.JStr "Nexus Sentinel API");
      ("message", JS.JStr "Service is running");
      ("health", JS.JStr "/healthz");
      ("ready", JS.JStr "/readyz");
      ("version", JS.JStr "/version");
      ("ts", JS.JNum (JS.of_Z (now c)))]) (setStatus 200 r)) c,
   Done).

(** Lines 152-155. *)
Definition notFound : Middleware := fun c =>
  let rid := RequestId.getRequestId (req c) in
  (set_res (fun r => sendJson (JS.JObj
     ([("error", JS.JStr "Not Found");
       ("path", JS.JStr (path (message (req c))))] ++
      JS.field_opt "requestId" (option_map JS.JStr rid))) (setStatus 404 r)) c,
   Done).

(** Lines 158-166. *)
Definition errorPayload (err : Thrown) (rid : option string) : list (string * JS.json) :=
  let payload :=
    [("error", JS.JStr (JS.or_else (errMessage err) "Internal Server Error"))] ++
    JS.field_opt "requestId" (option_map JS.JStr rid) in
  if negb (Config.isProduction cfg)
  then payload ++ JS.field_opt "stack" (option_map JS.JStr (stack err))
  else payload.

(** What Node throws when it is to write a status it refuses; the frames
    of the stack are left out. *)
Definition invalidStatusCode (code : Z) : Thrown :=
  {| Http.status := None;
     errMessage := Some ("Invalid status code: " +:+ pretty code);
     stack := Some ("RangeError [ERR_HTTP_INVALID_STATUS_CODE]: Invalid status code: "
                    +:+ pretty code) |}.

(** Line 165 is the only place where the status is not a literal:
    [res.status(status)] stores it, and [res.json(payload)] throws when Node
    refuses to write it, after the content type was set.  A middleware that
    throws hands the thrown value to [next]. *)
Definition errorHandler (err : Thrown) : Middleware := fun c =>
  let rid := RequestId.getRequestId (req c) in
  let status := JS.int_or (status err) 500 in
  let payload := JS.JObj (errorPayload err rid) in
  if validStatus status
  then (set_res (fun r => sendJson payload (setStatus status r)) c, Done)
  else (set_res (fun r => jsonContentType (setStatus status r)) c,
        NextErr (invalidStatusCode status)).

Definition layer (n : string) (m : Mount) (h : Middleware) : Layer :=
  {| name := n; mount := m; handler := Plain h |}.

(** Lines 32-77: what every request goes through first. *)
Definition entry : list Layer :=
  [ layer "requestId" Everywhere RequestId.requestId;
    layer "pinoHttp" Everywhere (Pino.pinoHttp httpLogger) ] ++
  (if Config.isDevelopment cfg then [layer "morgan" Everywhere Vendor.morgan] else []) ++
  [ layer "express.json" Everywhere Vendor.json;
    layer "cors" Everywhere (Vendor.cors corsOptions) ] ++
  (if Config.enableHelmet (Config.security cfg)
   then [layer "helmet" Everywhere (Vendor.helmet helmetOptions)] else []).

(** Lines 89-91. *)
Definition limiters : list Layer :=
  [ layer "globalLimiter" Everywhere
      (makeLimiter Global (Config.globalPerMin (Config.rateLimit cfg)));
    layer "authLimiter" (Under ["/auth"; "/login"])
      (makeLimiter Auth (Config.authPerMin (Config.rateLimit cfg))) ].

(** Lines 102-109. *)
Definition timer : list Layer := [ layer "metricsTimer" Everywhere metricsTimer ].

(** Lines 112-149. *)
Definition routes : list Layer :=
  [ layer "GET /version" (Get "/version") version;
    layer "GET /healthz" (Get "/healthz") healthz;
    layer "GET /readyz" (Get "/readyz") readyz;
    layer "GET /metrics" (Get "/metrics") metrics;
    layer "GET /" (Get "/") root ].

(** Lines 152-166. *)
Definition terminal : list Layer :=
  [ layer "notFound" Everywhere notFound;
    {| name := "errorHandler"; mount := Everywhere; handler := OnError errorHandler |} ].

(** Lines 25-166: the stack, in the order of registration. *)
Definition app : list Layer := entry ++ limiters ++ timer ++ routes ++ terminal.

(** The [finish] event of the response: its listeners, in the order in
    which they were added. *)
Definition fire (l : Listener) (c : Ctx) : Ctx :=
  match l with
  | LogCompleted start =>
      set_world (Pino.write logger (Pino.completed httpLogger start c)) c
  | ObserveDuration start => observeDuration start c
  end.

Definition finish (c : Ctx) : Ctx :=
  fold_left (fun acc l => fire l acc) (listeners (res c)) c.

(** One request, from the first middleware to the [finish] event.  The
    middleware run at time [t0]; the response is fully written at [t1]. *)
Definition handle (w : World) (m : Incoming) (t0 t1 : Z) : World * Response * Trace :=
  let c0 := {| req := newRequest m; res := newResponse; world := w; now := t0 |} in
  let '(c1, tr) := dispatch app c0 in
  let c2 := finish (set_now t1 c1) in
  (world c2, res c2, tr).

(** Requests one after the other. *)
Fixpoint serve (w : World) (rs : list (Incoming * Z * Z)) : World * list (Response * Trace) :=
  match rs with
  | [] => (w, [])
  | (m, t0, t1) :: rest =>
      let '(w1, r, tr) := handle w m t0 t1 in
      let '(w2, out) := serve w1 rest in
      (w2, (r, tr) :: out)
  end.

End App.

(** The state of the process when the server starts to listen. *)
Definition boot (oracle : nat -> string) (up : JS.number) : World :=
  {| uuidOracle := oracle; uuidsDrawn := 0; globalStore := ∅; authStore := ∅;
     httpRequestDurationMs := httpRequestDurationMs0; logs := []; uptime := up |}.

End Server.

(** ** src/server.ts, lines 168-192: the listening socket and shutdown

    The process as the shutdown code sees it: Node's timers, the server
    that [app.listen] returns (an [http.Server]) with its sockets and the
    listeners of its [close] event, the logger and [process.exit].  All of
    it runs on one thread, one callback at a time. *)

Module Lifecycle.

Inductive Severity : Type := Info | Warn | Error.

Record Entry : Type := {
  severity : Severity;
  text : string;
  detail : option string
}.

(** A pending [setTimeout]; the only callback the program ever schedules
    is the forced exit of lines 176-179. *)
Record Timer : Type := {
  timerId : nat;
  due : Z
}.

(** The callback of lines 180-188 as a listener of [close]: the timer it
    captured, and whether Node will pass it an error. *)
Record CloseListener : Type := {
  captured : nat;
  withError : bool
}.

Record Process : Type := {
  clock : Z;
  listening : bool;                     (* the server has a handle *)
  sockets : gmap nat bool;              (* the open connections; [true]: a
                                           request is in flight on it *)
  closeListeners : list CloseListener;  (* server.once("close", ...) *)
  timers : list Timer;
  nextTimerId : nat;
  journal : list Entry;
  exited : option (Z * Z)               (* exit code, and when *)
}.

(** [server._connections]: how many connections are open. *)
Definition connections (p : Process) : nat := size (sockets p).

Inductive Signal : Type := SIGINT | SIGTERM.

Definition signalName (s : Signal) : string :=
  match s with SIGINT => "SIGINT" | SIGTERM => "SIGTERM" end.

(** Line 169: the server listens, nothing is pending. *)
Definition listen (t : Z) : Process :=
  {| clock := t; listening := true; sockets := ∅; closeListeners := [];
     timers := []; nextTimerId := 0; journal := []; exited := None |}.

Definition log (sv : Severity) (msg : string) (d : option string) (p : Process) : Process :=
  {| clock := clock p; listening := listening p; sockets := sockets p;
     closeListeners := closeListeners p; timers := timers p;
     nextTimerId := nextTimerId p;
     journal := journal p ++ [{| severity := sv; text := msg; detail := d |}];
     exited := exited p |}.

(** [process.exit(code)]: nothing runs afterwards. *)
Definition exit (code : Z) (p : Process) : Process :=
  {| clock := clock p; listening := listening p; sockets := sockets p;
     closeListeners := closeListeners p; timers := timers p;
     nextTimerId := nextTimerId p; journal := journal p;
     exited := Some (code, clock p) |}.

(** [setTimeout(callback, delay)] *)
Definition setTimeout (delay : Z) (p : Process) : nat * Process :=
  (nextTimerId p,
   {| clock := clock p; listening := listening p; sockets := sockets p;
      closeListeners := closeListeners p;
      timers := timers p ++ [{| timerId := nextTimerId p; due := clock p + delay |}];
      nextTimerId := S (nextTimerId p); journal := journal p; exited := exited p |}).

(** [clearTimeout(id)] *)
Definition clearTimeout (i : nat) (p : Process) : Process :=
  {| clock := clock p; listening := listening p; sockets := sockets p;
     closeListeners := closeListeners p;
     timers := List.filter (fun tm => negb (Nat.eqb (timerId tm) i)) (timers p);
     nextTimerId := nextTimerId p; journal := journal p; exited := exited p |}.

Definition with_sockets (m : gmap nat bool) (p : Process) : Process :=
  {| clock := clock p; listening := listening p; sockets := m;
     closeListeners := closeListeners p; timers := timers p;
     nextTimerId := nextTimerId p; journal := journal p; exited := exited p |}.

(** A request is in flight on the connection. *)
Definition busy (kv : nat * bool) : Prop := snd kv = true.

(** [server.closeIdleConnections()]: every connection on which no request
    is in flight is destroyed. *)
Definition closeIdleConnections (p : Process) : Process :=
  with_sockets (filter busy (sockets p)) p.

(** [server.close(callback)] of Node's http.Server (Node 19 and later):
    the idle connections are destroyed first, on every call; then, as in
    net.Server, the callback waits for the [close] event (on a server that
    is no longer listening it will be given ERR_SERVER_NOT_RUNNING) and the
    handle is released, so that no new connection is accepted. *)
Definition serverClose (captured_timer : nat) (p : Process) : Process :=
  let p1 := closeIdleConnections p in
  {| clock := clock p1; listening := false; sockets := sockets p1;
     closeListeners :=
       closeListeners p1 ++
       [{| captured := captured_timer; withError := negb (listening p1) |}];
     timers := timers p1; nextTimerId := nextTimerId p1; journal := journal p1;
     exited := exited p1 |}.

(** Lines 180-188, when [close] is emitted. *)
Definition onClose (l : CloseListener) (p : Process) : Process :=
  let p1 := clearTimeout (captured l) p in
  if withError l
  then exit 1 (log Error "Error closing server" (Some "ERR_SERVER_NOT_RUNNING") p1)
  else exit 0 (log Info "Server closed cleanly" None p1).

(** Lines 176-179, when the timer fires. *)
Definition onTimeout (p : Process) : Process :=
  exit 1 (log Error "Force exit after timeout" None p).

(** Lines 174-189. *)
Definition shutdown (signal : string) (p : Process) : Process :=
  let p1 := log Warn "Shutdown initiated" (Some signal) p in
  let '(timeout, p2) := setTimeout 30000 p1 in
  serverClose timeout p2.

(** The [close] event: the listeners in the order in which they were
    added, as long as the process has not exited. *)
Fixpoint runListeners (ls : list CloseListener) (p : Process) : Process :=
  match ls with
  | [] => p
  | l :: rest =>
      match exited p with
      | Some _ => p
      | None => runListeners rest (onClose l p)
      end
  end.

Definition emitClose (p : Process) : Process :=
  let ls := closeListeners p in
  runListeners ls
    {| clock := clock p; listening := listening p; sockets := sockets p;
       closeListeners := []; timers := timers p; nextTimerId := nextTimerId p;
       journal := journal p; exited := exited p |}.

(** A server without handle and without connections emits [close]. *)
Definition emitCloseIfDrained (p : Process) : Process :=
  if listening p || negb (Nat.eqb (connections p) 0) then p else emitClose p.

(** The timer that fires first: the least [due], the older one on a tie. *)
Fixpoint earliest (ts : list Timer) : option Timer :=
  match ts with
  | [] => None
  | tm :: rest =>
      match earliest rest with
      | Some tm' => if due tm' <? due tm then Some tm' else Some tm
      | None => Some tm
      end
  end.

Definition set_clock (t : Z) (p : Process) : Process :=
  {| clock := t; listening := listening p; sockets := sockets p;
     closeListeners := closeListeners p; timers := timers p;
     nextTimerId := nextTimerId p; journal := journal p; exited := exited p |}.

(** Time passes until [t]: a timer that is due by then fires when it is
    due. *)
Definition advance (t : Z) (p : Process) : Process :=
  match earliest (timers p) with
  | Some tm =>
      if due tm <=? t then onTimeout (set_clock (Z.max (clock p) (due tm)) p)
      else set_clock (Z.max (clock p) t) p
  | None => set_clock (Z.max (clock p) t) p
  end.

(** What happens to the process from outside; [k] names a connection. *)
Inductive Event : Type :=
| Signalled (s : Signal)         (* lines 191-192 *)
| ConnectionOpened (k : nat)     (* a client connects *)
| RequestReceived (k : nat)      (* a request arrives on the connection *)
| ResponseFinished (k : nat)     (* its response is written; the connection is kept *)
| ConnectionClosed (k : nat).    (* the connection is closed: by the client or by a timeout *)

(** An event on a connection that is not open (any more) has no effect,
    and a server without handle accepts no connection. *)
Definition react (e : Event) (p : Process) : Process :=
  match e with
  | Signalled s => emitCloseIfDrained (shutdown (signalName s) p)
  | ConnectionOpened k =>
      match sockets p !! k with
      | None => if listening p then with_sockets (<[k := false]> (sockets p)) p else p
      | Some _ => p
      end
  | RequestReceived k =>
      match sockets p !! k with
      | Some _ => with_sockets (<[k := true]> (sockets p)) p
      | None => p
      end
  | ResponseFinished k =>
      match sockets p !! k with
      | Some true => with_sockets (<[k := false]> (sockets p)) p
      | _ => p
      end
  | ConnectionClosed k =>
      match sockets p !! k with
      | Some _ => emitCloseIfDrained (with_sockets (delete k (sockets p)) p)
      | None => p
      end
  end.

(** Time passes until [t] and nothing else happens; an exited process
    does nothing any more. *)
Definition idle (t : Z) (p : Process) : Process :=
  match exited p with
  | Some _ => p
  | None => advance t p
  end.

(** One event at time [t]. *)
Definition step (p : Process) (te : Z * Event) : Process :=
  let p1 := idle (fst te) p in
  match exited p1 with
  | Some _ => p1
  | None => react (snd te) p1
  end.

Definition run (p : Process) (events : list (Z * Event)) : Process :=
  fold_left step events p.

(** How the process ends if nothing else happens: as it has ended, or by
    the timer that fires first. *)
Definition settle (p : Process) : option (Z * Z) :=
  match exited p with
  | Some x => Some x
  | None =>
      match earliest (timers p) with
      | Some tm => Some (1, Z.max (clock p) (due tm))
      | None => None
      end
  end.

(** The lifecycle state of section 3, read off the process. *)
Inductive State : Type := Running | ShuttingDown | Closed.

Definition state (p : Process) : State :=
  match exited p with
  | Some _ => Closed
  | None => if listening p then Running else ShuttingDown
  end.

End Lifecycle.

(** ** Vocabulary of the statements *)

Module Spec.

Import Http Express.

(** The variables [getConfig] reads as numbers. *)
Definition numericVariables : list string :=
  ["PORT"; "RATE_LIMIT_DEFAULT_PER_MIN"; "RATE_LIMIT_PER_MINUTE";
   "RATE_LIMIT_AUTH_PER_MIN"; "RATE_LIMIT_AUTHZ_PER_MINUTE"].

(** Every variable [getConfig] reads, but for [NODE_ENV]. *)
Definition overrides : list string :=
  ["SERVICE_NAME"; "CORS_ORIGINS"; "HOST"; "LOG_LEVEL"; "GIT_COMMIT"] ++ numericVariables.

Definition unset (p : Node.process) (ks : list string) : Prop :=
  Forall (fun k => Node.env p !! k = None) ks.

(** The tier of the process: [NODE_ENV], and development when that is
    unset or empty. *)
Definition tier (p : Node.process) : string :=
  JS.or_else (Node.env p !! "NODE_ENV") "development".

(** A value that the tier selects; what is neither production nor
    development is treated like test. *)
Definition byTier {A : Type} (t : string) (production development test : A) : A :=
  if String.eqb t "production" then production
  else if String.eqb t "development" then development
  else test.

(** An environment with two numeric variables that are no numbers. *)
Definition badNumbers : Node.process :=
  {| Node.env := <["PORT" := "abc"]> (<["RATE_LIMIT_PER_MINUTE" := "many"]> ∅);
     Node.version := "v20.11.0" |}.

(** A layer is in the trace. *)
Definition visited (n : string) (tr : Trace) : bool :=
  existsb (fun v => String.eqb (layer v) n) tr.

Definition isDone (d : Decision) : bool :=
  match d with Done => true | _ => false end.

(** A layer ended the response. *)
Definition answeredBy (n : string) (tr : Trace) : bool :=
  existsb (fun v => String.eqb (layer v) n && isDone (handed v)) tr.

(** The parts of what [handle] returns. *)
Definition worldOf (x : World * Response * Trace) : World := fst (fst x).
Definition responseOf (x : World * Response * Trace) : Response := snd (fst x).
Definition traceOf (x : World * Response * Trace) : Trace := snd x.

(** The context in which the first middleware runs. *)
Definition arrival (w : World) (m : Incoming) (t0 : Z) : Ctx :=
  {| req := newRequest m; res := newResponse; world := w; now := t0 |}.

Definition routeNames : list string :=
  ["GET /version"; "GET /healthz"; "GET /readyz"; "GET /metrics"; "GET /"].

Definition entryNames : list string :=
  ["requestId"; "pinoHttp"; "morgan"; "express.json"; "cors"; "helmet"].

Definition limiterNames : list string := ["globalLimiter"; "authLimiter"].

(** A listener of the logger. *)
Definition isLog (l : Listener) : Prop :=
  match l with
  | LogCompleted _ => True
  | ObserveDuration _ => False
  end.

(** One request to a middleware alone, on a response of its own. *)
Definition knock (mw : Middleware) (w : World) (m : Incoming) (t : Z)
  : World * Response * Decision :=
  let '(c, d) := mw {| req := newRequest m; res := newResponse; world := w; now := t |} in
  (world c, res c, d).

(** Requests of one client to a middleware, at the given times. *)
Fixpoint knocks (mw : Middleware) (w : World) (m : Incoming) (ts : list Z)
  : World * list (Response * Decision) :=
  match ts with
  | [] => (w, [])
  | t :: rest =>
      let '(w1, r, d) := knock mw w m t in
      let '(w2, out) := knocks mw w1 m rest in
      (w2, (r, d) :: out)
  end.

(** No window of the client is running at time [t]. *)
Definition noWindow (cls : Class) (w : World) (m : Incoming) (t : Z) : Prop :=
  match store cls w !! ip m with
  | None => True
  | Some win => resetTime win <= t
  end.

(** What a rejected request is answered with: status 429, the limit, no
    request remaining, and the seconds until the window expires. *)
Definition rejection (n : Z) (r : Response) : Prop :=
  statusCode r = 429 /\
  resHeaders r !! "ratelimit-limit" = Some (HNum (JS.of_Z n)) /\
  resHeaders r !! "ratelimit-remaining" = Some (HNum (JS.of_Z 0)) /\
  exists secs, 0 < secs <= 60 /\
               resHeaders r !! "ratelimit-reset" = Some (HNum (JS.of_Z secs)).

(** The correlation id [rid] is on the request object and in the header
    of the response. *)
Definition Correlated (rid : string) (c : Ctx) : Prop :=
  requestId (req c) = Some rid /\
  resHeaders (res c) !! "x-request-id" = Some (HStr rid).

(** Two lists of fields that agree on the names, and on every value but
    that of the field named [secret]. *)
Definition sameBut (secret : string) {A : Type} (l1 l2 : list (string * A)) : Prop :=
  Forall2 (fun a b => fst a = fst b /\ (fst a <> secret -> snd a = snd b)) l1 l2.

(** Two bodies that differ at most in the value of the [password] field. *)
Definition bodiesApart (j1 j2 : JS.json) : Prop :=
  j1 = j2 \/
  exists fs1 fs2, j1 = JS.JObj fs1 /\ j2 = JS.JObj fs2 /\ sameBut "password" fs1 fs2.

Definition payloadsApart (p1 p2 : Payload) : Prop :=
  p1 = p2 \/
  exists j1 j2, p1 = JsonPayload j1 /\ p2 = JsonPayload j2 /\ bodiesApart j1 j2.

(** Two requests that differ at most in the value of the [authorization]
    header and in the value of the [password] field of the body. *)
Definition secretsApart (m1 m2 : Incoming) : Prop :=
  method m1 = method m2 /\ path m1 = path m2 /\ ip m1 = ip m2 /\
  sameBut "authorization" (headers m1) (headers m2) /\
  payloadsApart (payload m1) (payload m2).

(** The same, of the request objects and of the contexts they are in. *)
Definition requestsApart (r1 r2 : Request) : Prop :=
  secretsApart (message r1) (message r2) /\
  requestId r1 = requestId r2 /\ id r1 = id r2 /\ route r1 = route r2 /\
  match body r1, body r2 with
  | Some j1, Some j2 => bodiesApart j1 j2
  | None, None => True
  | _, _ => False
  end.

Definition apart (c1 c2 : Ctx) : Prop :=
  requestsApart (req c1) (req c2) /\
  res c1 = res c2 /\ world c1 = world c2 /\ now c1 = now c2.

(** What a layer must do for an invariant to hold along the stack: [P]
    for a request that goes on (with the error that is pending), [Q] for one
    that was answered, [S] for the request object the handler is given. *)
Definition keeps (P : option Thrown -> Ctx -> Prop) (Q : Ctx -> Prop)
    (S : Request -> Prop) (l : Layer) : Prop :=
  forall err c h, P err c -> invoke l err (req c) = Some h ->
    S (req (enter (mount l) c)) /\
    match h (enter (mount l) c) with
    | (c', Done) => Q c'
    | (c', Next) => P None c'
    | (c', NextErr e) => P (Some e) c'
    end.

(** The only error that is ever pending in the stack of lines 25-166 is
    the 400 of the body parser. *)
Definition parserError (err : option Thrown) : Prop :=
  forall e, err = Some e -> status e = Some 400.

(** A handler leaves the correlation id where it is. *)
Definition stays (rid : string) (h : Middleware) : Prop :=
  forall c, Correlated rid c -> Correlated rid (fst (h c)).

(** What a layer must do for two requests that differ in their secrets
    only to stay so. *)
Definition respects (l : Layer) : Prop :=
  forall err c1 c2, apart c1 c2 ->
    match invoke l err (req c1), invoke l err (req c2) with
    | Some h1, Some h2 =>
        snd (h1 (enter (mount l) c1)) = snd (h2 (enter (mount l) c2)) /\
        apart (fst (h1 (enter (mount l) c1))) (fst (h2 (enter (mount l) c2)))
    | None, None => True
    | _, _ => False
    end.

(** A middleware that keeps two such requests as they are. *)
Definition blind (h : Middleware) : Prop :=
  forall c1 c2, apart c1 c2 -> snd (h c1) = snd (h c2) /\ apart (fst (h c1)) (fst (h c2)).

(** The redaction marker of line 21. *)
Definition mark : JS.json := JS.JStr "[REDACTED]".

(** The request as the log holds it, once the two paths under [req] are
    redacted. *)
Definition censored (r : Request) : JS.json :=
  Pino.redact_path ["body"; "password"] mark
    (Pino.redact_path ["headers"; "authorization"] mark (Pino.serializeReq r)).

(** A request with credentials, and the same request with others. *)
Definition login (token password : string) : Incoming :=
  {| method := "POST"; path := "/login"; ip := "203.0.113.7";
     headers := [("authorization", token); ("content-type", "application/json")];
     payload := JsonPayload (JS.JObj [("user", JS.JStr "ada");
                                      ("password", JS.JStr password)]) |}.

(** The callback that is first in line for the [close] event was
    registered on a listening server: it will be given no error. *)
Definition firstInLine (p : Lifecycle.Process) : Prop :=
  exists l ls, Lifecycle.closeListeners p = l :: ls /\ Lifecycle.withError l = false.









(** *** Sample inputs *)

Definition sampleOracle (n : nat) : string := "uuid-" +:+ pretty n.

Definition sampleWorld : World := Server.boot sampleOracle (JS.of_Z 5).

(** A GET request without headers and without body. *)
Definition get (p : string) : Incoming :=
  {| method := "GET"; path := p; ip := "203.0.113.7"; headers := []; payload := NoPayload |}.

(** The production defaults, with a global ceiling of one request per
    minute ([NODE_ENV=production], [RATE_LIMIT_PER_MINUTE=1]). *)
Definition strict : Config.AppConfig :=
  {| Config.env := "production"; Config.serviceName := "nexus-sentinel";
     Config.host := "0.0.0.0"; Config.port := JS.of_Z 200;
     Config.corsOrigins := [];
     Config.rateLimit := {| Config.globalPerMin := JS.of_Z 1;
                            Config.authPerMin := JS.of_Z 10 |};
     Config.security := {| Config.enableHelmet := true; Config.enableCSP := true;
                           Config.enableHSTS := true |};
     Config.logging := {| Config.level := "info"; Config.pretty := false;
                          Config.includeBodies := false |};
     Config.build := {| Config.commit := None; Config.node := "v20.11.0" |} |}.

(** The development defaults. *)
Definition development : Config.AppConfig :=
  {| Config.env := "development"; Config.serviceName := "local-dev";
     Config.host := "0.0.0.0"; Config.port := JS.of_Z 200;
     Config.corsOrigins := ["*"];
     Config.rateLimit := {| Config.globalPerMin := JS.of_Z 1000;
                            Config.authPerMin := JS.of_Z 0 |};
     Config.security := {| Config.enableHelmet := true; Config.enableCSP := false;
                           Config.enableHSTS := false |};
     Config.logging := {| Config.level := "debug"; Config.pretty := true;
                          Config.includeBodies := true |};
     Config.build := {| Config.commit := None; Config.node := "v20.11.0" |} |}.

(** The world after one request was served under [strict]. *)
Definition afterOne : World :=
  worldOf (Server.handle strict sampleWorld (get "/version") 1000 1003).

(** The request has been changed by nothing that the metrics or a route
    would see: the histogram is [h0], the status is still 200, only the
    logger listens for [finish]. *)
Definition Fresh (h0 : Prom.Histogram) (m : Incoming) (t0 : Z) (c : Ctx) : Prop :=
  httpRequestDurationMs (world c) = h0 /\
  statusCode (res c) = 200 /\
  Forall isLog (listeners (res c)) /\
  message (req c) = m /\
  now c = t0.

(** The histogram is [h0] and only the logger listens for [finish]. *)
Definition Quiet (h0 : Prom.Histogram) (c : Ctx) : Prop :=
  httpRequestDurationMs (world c) = h0 /\
  Forall isLog (listeners (res c)).

End Spec.

(** ** src/server/index.ts: the minimal server

    The file holds two revisions of the same entry point; the later one is
    embedded.  The earlier one is the same stack without the root route
    and without the explicit host. *)

Module Legacy.

Import Http Express.

(** [helmet()] without options: the defaults of the package. *)
Definition helmetOptions : Vendor.HelmetOptions :=
  {| Vendor.contentSecurityPolicy := true;
     Vendor.hstsMaxAge := false;
     Vendor.referrerPolicy := "no-referrer";
     Vendor.frameguard := "sameorigin" |}.

(** [cors({ origin: true, credentials: true })] *)
Definition corsOptions : Vendor.CorsOptions :=
  {| Vendor.origin := None; Vendor.credentials := true |}.

(** [app.get("/health", ...)] *)
Definition health : Middleware := fun c =>
  (set_res (fun r => sendJson (JS.JObj
     [("ok", JS.JBool true);
      ("ts", JS.JNum (JS.of_Z (now c)))]) (setStatus 200 r)) c,
   Done).

(** [app.get("/", ...)] *)
Definition root : Middleware := fun c =>
  (set_res (fun r => sendJson (JS.JObj
     [("name", JS.JStr "Nexus Sentinel API");
      ("message", JS.JStr "Service is running");
      ("health", JS.JStr "/health");
      ("ts", JS.JNum (JS.of_Z (now c)))]) (setStatus 200 r)) c,
   Done).

(** The stack, in the order of registration. *)
Definition app : list Layer :=
  [ Server.layer "helmet" Everywhere (Vendor.helmet helmetOptions);
    Server.layer "cors" Everywhere (Vendor.cors corsOptions);
    Server.layer "express.json" Everywhere Vendor.json;
    Server.layer "morgan" Everywhere Vendor.morgan;
    Server.layer "GET /health" (Get "/health") health;
    Server.layer "GET /" (Get "/") root ].

(** [const PORT = Number(process.env.PORT) || 200] *)
Definition PORT (process : Node.process) : JS.number :=
  JS.num_or (JS.Number_opt (Node.env process !! "PORT")) (JS.of_Z 200).

Definition HOST : string := "0.0.0.0".

(** One request through the stack, as far as the stack takes it: what
    Express does with a request that is left over is not part of the
    file. *)
Definition handle (w : World) (m : Incoming) (t0 : Z) : Ctx * Outcome * Trace :=
  pass app None {| req := newRequest m; res := newResponse; world := w; now := t0 |}.

End Legacy.

(** ** Vocabulary of the statements about the pipeline as a whole *)

Module Terms.

Import Http Express.

(** The layers that can end a response. *)
Definition answerers : list string :=
  "cors" :: Spec.limiterNames ++ Spec.routeNames ++ ["notFound"; "errorHandler"].

(** Lines 32-45: what runs before the body is parsed. *)
Definition beforeBody (cfg : Config.AppConfig) : list Layer :=
  [ Server.layer "requestId" Everywhere RequestId.requestId;
    Server.layer "pinoHttp" Everywhere (Pino.pinoHttp (Server.httpLogger cfg)) ] ++
  (if Config.isDevelopment cfg then [Server.layer "morgan" Everywhere Vendor.morgan] else []).

(** Lines 52-166: what is registered after the body parser. *)
Definition afterBody (cfg : Config.AppConfig) : list Layer :=
  [ Server.layer "cors" Everywhere (Vendor.cors (Server.corsOptions cfg)) ] ++
  (if Config.enableHelmet (Config.security cfg)
   then [Server.layer "helmet" Everywhere (Vendor.helmet (Server.helmetOptions cfg))]
   else []) ++
  Server.limiters cfg ++ Server.timer ++ Server.routes cfg ++ Server.terminal cfg.

(** The paths of lines 112-149. *)
Definition routePatterns : list string :=
  ["/version"; "/healthz"; "/readyz"; "/metrics"; "/"].

(** The two stores of windows are those of [w]. *)
Definition sameStores (w : World) (c : Ctx) : Prop :=
  globalStore (world c) = globalStore w /\ authStore (world c) = authStore w.

(** What a request is like when nothing but the correlation middleware
    and the loggers have seen it: the only header of the response is the
    correlation id. *)
Definition early (w : World) (m : Incoming) (t0 : Z) (c : Ctx) : Prop :=
  Spec.Fresh (httpRequestDurationMs w) m t0 c /\ sameStores w c /\
  (forall k, k <> "x-request-id" -> resHeaders (res c) !! k = None) /\
  resBody (res c) = None /\ body (req c) = None.


(** The route label of line 106, [req.route?.path || req.path], for a
    request that the layer [l] answers. *)
Definition routeLabel (l : Layer) (m : Incoming) : string :=
  match mount l with
  | Get pat => pat
  | _ => path m
  end.

(** The character [c] occurs in [s]. *)
Fixpoint occurs (c : ascii) (s : string) : bool :=
  match s with
  | EmptyString => false
  | String c' s' => Ascii.eqb c c' || occurs c s'
  end.

(** The middleware that only calls [next()]. *)
Definition passThrough (mw : Middleware) : Prop := forall c, mw c = (c, Next).

(** The event is a termination signal. *)
Definition isSignal (e : Lifecycle.Event) : bool :=
  match e with Lifecycle.Signalled _ => true | _ => false end.

(** A process that has not been told to terminate: it listens, and the
    shutdown code has left no trace. *)
Definition untouched (p : Lifecycle.Process) : Prop :=
  Lifecycle.exited p = None /\ Lifecycle.listening p = true /\
  Lifecycle.timers p = [] /\ Lifecycle.closeListeners p = [] /\
  Lifecycle.journal p = [].

(** A process that was first told to terminate at time [T]: it has ended
    by [T + 30000] with status 0 or 1, or the first timer to fire is the one
    due at [T + 30000]. *)
Definition winding (T : Z) (p : Lifecycle.Process) : Prop :=
  match Lifecycle.exited p with
  | Some (code, te) => (code = 0 \/ code = 1) /\ T <= te <= T + 30000
  | None =>
      T <= Lifecycle.clock p <= T + 30000 /\
      option_map Lifecycle.due (Lifecycle.earliest (Lifecycle.timers p)) = Some (T + 30000)
  end.

(** The text of the last record of the journal. *)
Definition lastText (p : Lifecycle.Process) : option string :=
  option_map Lifecycle.text (hd_error (rev (Lifecycle.journal p))).

(** The close callback that is first in line was registered while the
    server was listening; the journal holds no report of a failed close; and
    a process that has ended says why in its last record. *)
Definition orderly (p : Lifecycle.Process) : Prop :=
  Forall (fun en => Lifecycle.text en <> "Error closing server") (Lifecycle.journal p) /\
  match Lifecycle.exited p with
  | Some (code, _) =>
      (code = 0 /\ lastText p = Some "Server closed cleanly") \/
      (code = 1 /\ lastText p = Some "Force exit after timeout")
  | None =>
      if Lifecycle.listening p then Lifecycle.closeListeners p = []
      else exists l ls, Lifecycle.closeListeners p = l :: ls /\
                        Lifecycle.withError l = false
  end.

(** The response grants cross-origin access to nobody, or to the origin
    that the request names and that the configuration allows. *)
Definition granted (cfg : Config.AppConfig) (m : Incoming) (c : Ctx) : Prop :=
  message (req c) = m /\
  match resHeaders (res c) !! "access-control-allow-origin" with
  | Some hv =>
      exists v, hv = HStr v /\ get_header "origin" (headers m) = Some v /\
                Vendor.allowed (Server.corsOptions cfg) v = true
  | None => True
  end.

(** Every variable of the environment that [getConfig] reads. *)
Definition configVariables : list string :=
  "NODE_ENV" :: Spec.overrides.

(** The variables that [getConfig] reads with [||]. *)
Definition lenientVariables : list string :=
  ["NODE_ENV"; "SERVICE_NAME"; "CORS_ORIGINS"; "HOST"; "LOG_LEVEL"; "PORT"].

(** The process with the variable [k] removed from its environment. *)
Definition unsetenv (k : string) (p : Node.process) : Node.process :=
  {| Node.env := delete k (Node.env p); Node.version := Node.version p |}.

(** The character is a decimal digit. *)
Definition is_digit (c : ascii) : bool :=
  let n := N_of_ascii c in ((48 <=? n) && (n <=? 57))%N.

(** The string holds decimal digits only. *)
Fixpoint digits_only (s : string) : bool :=
  match s with
  | EmptyString => true
  | String c s' => is_digit c && digits_only s'
  end.

(** *** Sample inputs *)

(** A development machine that sets the port. *)
Definition onPort8080 : Node.process :=
  {| Node.env := <["PORT" := "8080"]> ∅; Node.version := "v20.11.0" |}.


(** An environment with a tier that the code does not know. *)
Definition staging : Node.process :=
  {| Node.env := <["NODE_ENV" := "staging"]> ∅; Node.version := "v20.11.0" |}.

(** Production, with the ceiling variable left blank in the deployment. *)
Definition blankCeiling : Node.process :=
  {| Node.env := <["NODE_ENV" := "production"]>
                   (<["RATE_LIMIT_DEFAULT_PER_MIN" := " "]>
                      (<["RATE_LIMIT_PER_MINUTE" := "50"]> ∅));
     Node.version := "v20.11.0" |}.


(** A login whose body is cut short. *)
Definition garbled : Incoming :=
  {| method := "POST"; path := "/login"; ip := "203.0.113.7";
     headers := [("content-type", "application/json")];
     payload := Malformed "Unexpected end of JSON input"
                          "SyntaxError: Unexpected end of JSON input" |}.


(** The preflight a browser sends before a cross-origin request. *)
Definition preflight : Incoming :=
  {| method := "OPTIONS"; path := "/version"; ip := "203.0.113.7";
     headers := [("origin", "https://console.example");
                 ("access-control-request-method", "GET")];
     payload := NoPayload |}.

(** The test defaults ([NODE_ENV=test]). *)
Definition testing : Config.AppConfig :=
  {| Config.env := "test"; Config.serviceName := "test-suite";
     Config.host := "0.0.0.0"; Config.port := JS.of_Z 200;
     Config.corsOrigins := ["*"];
     Config.rateLimit := {| Config.globalPerMin := JS.of_Z 0;
                            Config.authPerMin := JS.of_Z 0 |};
     Config.security := {| Config.enableHelmet := false; Config.enableCSP := false;
                           Config.enableHSTS := false |};
     Config.logging := {| Config.level := "error"; Config.pretty := false;
                          Config.includeBodies := false |};
     Config.build := {| Config.commit := None; Config.node := "v20.11.0" |} |}.

End Terms.

(** * Theorems *)

(** ** Configuration *)

Lemma num_or_truthy a b : JS.truthy b = true -> JS.truthy (JS.num_or a b) = true.
Proof. unfold JS.num_or. intros Hb. destruct (JS.truthy a) eqn:Ha; [exact Ha | exact Hb]. Qed.

(** C1, as stated, fails: with [PORT=abc] and [RATE_LIMIT_PER_MINUTE=many],
    neither of which is a non-negative integer, [getConfig] returns a
    configuration.  The port falls back to 200 and the global ceiling is
    NaN. *)
Lemma getConfig_accepts_bad_numbers :
  Node.env Spec.badNumbers !! "PORT" = Some "abc" /\
  JS.nonneg_integer (JS.Number "abc") = false /\
  Node.env Spec.badNumbers !! "RATE_LIMIT_PER_MINUTE" = Some "many" /\
  JS.nonneg_integer (JS.Number "many") = false /\
  exists cfg,
    Config.getConfig Spec.badNumbers = JS.Normal cfg /\
    Config.port cfg = JS.of_Z 200 /\
    Config.globalPerMin (Config.rateLimit cfg) = JS.NaN.
Proof.
  repeat split; try reflexivity.
  eexists. split; [reflexivity |]. split; vm_compute; reflexivity.
Qed.

(** C1, amended: [getConfig] never aborts.  For every environment it
    returns a configuration, in which
    - the port is [Number(PORT)] when that is neither NaN nor zero, and 200
      otherwise, so that it is never NaN;
    - a ceiling is [Number] of its variable when one is set, whatever the
      text (NaN included), the first name of each pair winning;
    - every field has the default of its tier as soon as its own variable
      is unset, whatever the other variables are: the tier is [NODE_ENV]
      (development when unset), the security toggles and the two flags of
      the logger depend on the tier alone, and the commit id is
      [GIT_COMMIT], undefined when unset;
    - so in an environment that sets none of the variables but [NODE_ENV],
      the configuration is the table of its tier. *)
Theorem getConfig_never_aborts (p : Node.process) :
  exists cfg,
    Config.getConfig p = JS.Normal cfg /\
    (Config.port cfg =
       if JS.truthy (JS.Number_opt (Node.env p !! "PORT"))
       then JS.Number_opt (Node.env p !! "PORT") else JS.of_Z 200) /\
    JS.truthy (Config.port cfg) = true /\
    (forall v, Node.env p !! "RATE_LIMIT_DEFAULT_PER_MIN" = Some v ->
       Config.globalPerMin (Config.rateLimit cfg) = JS.Number v) /\
    (forall v, Node.env p !! "RATE_LIMIT_DEFAULT_PER_MIN" = None ->
       Node.env p !! "RATE_LIMIT_PER_MINUTE" = Some v ->
       Config.globalPerMin (Config.rateLimit cfg) = JS.Number v) /\
    (forall v, Node.env p !! "RATE_LIMIT_AUTH_PER_MIN" = Some v ->
       Config.authPerMin (Config.rateLimit cfg) = JS.Number v) /\
    (forall v, Node.env p !! "RATE_LIMIT_AUTH_PER_MIN" = None ->
       Node.env p !! "RATE_LIMIT_AUTHZ_PER_MINUTE" = Some v ->
       Config.authPerMin (Config.rateLimit cfg) = JS.Number v) /\
    (* field by field *)
    Config.env cfg = Spec.tier p /\
    (Node.env p !! "SERVICE_NAME" = None ->
       Config.serviceName cfg =
       Spec.byTier (Spec.tier p) "nexus-sentinel" "local-dev" "test-suite") /\
    (Node.env p !! "HOST" = None -> Config.host cfg = "0.0.0.0") /\
    (Node.env p !! "PORT" = None -> Config.port cfg = JS.of_Z 200) /\
    (Node.env p !! "CORS_ORIGINS" = None ->
       Config.corsOrigins cfg = Spec.byTier (Spec.tier p) [] ["*"] ["*"]) /\
    (Node.env p !! "RATE_LIMIT_DEFAULT_PER_MIN" = None ->
     Node.env p !! "RATE_LIMIT_PER_MINUTE" = None ->
       Config.globalPerMin (Config.rateLimit cfg) =
       JS.of_Z (Spec.byTier (Spec.tier p) 100 1000 0)) /\
    (Node.env p !! "RATE_LIMIT_AUTH_PER_MIN" = None ->
     Node.env p !! "RATE_LIMIT_AUTHZ_PER_MINUTE" = None ->
       Config.authPerMin (Config.rateLimit cfg) =
       JS.of_Z (Spec.byTier (Spec.tier p) 10 0 0)) /\
    (Node.env p !! "LOG_LEVEL" = None ->
       Config.level (Config.logging cfg) =
       Spec.byTier (Spec.tier p) "info" "debug" "error") /\
    Config.security cfg =
      {| Config.enableHelmet := negb (String.eqb (Spec.tier p) "test");
         Config.enableCSP := String.eqb (Spec.tier p) "production";
         Config.enableHSTS := String.eqb (Spec.tier p) "production" |} /\
    Config.pretty (Config.logging cfg) = String.eqb (Spec.tier p) "development" /\
    Config.includeBodies (Config.logging cfg) = String.eqb (Spec.tier p) "development" /\
    Config.build cfg =
      {| Config.commit := Node.env p !! "GIT_COMMIT"; Config.node := Node.version p |} /\
    (* the tables *)
    (Spec.unset p Spec.overrides ->
       (Node.env p !! "NODE_ENV" = Some "production" ->
        cfg = {| Config.env := "production"; Config.serviceName := "nexus-sentinel";
                 Config.host := "0.0.0.0"; Config.port := JS.of_Z 200;
                 Config.corsOrigins := [];
                 Config.rateLimit := {| Config.globalPerMin := JS.of_Z 100;
                                        Config.authPerMin := JS.of_Z 10 |};
                 Config.security := {| Config.enableHelmet := true;
                                       Config.enableCSP := true;
                                       Config.enableHSTS := true |};
                 Config.logging := {| Config.level := "info"; Config.pretty := false;
                                      Config.includeBodies := false |};
                 Config.build := {| Config.commit := None;
                                    Config.node := Node.version p |} |}) /\
       (JS.or_else (Node.env p !! "NODE_ENV") "development" = "development" ->
        cfg = {| Config.env := "development"; Config.serviceName := "local-dev";
                 Config.host := "0.0.0.0"; Config.port := JS.of_Z 200;
                 Config.corsOrigins := ["*"];
                 Config.rateLimit := {| Config.globalPerMin := JS.of_Z 1000;
                                        Config.authPerMin := JS.of_Z 0 |};
                 Config.security := {| Config.enableHelmet := true;
                                       Config.enableCSP := false;
                                       Config.enableHSTS := false |};
                 Config.logging := {| Config.level := "debug"; Config.pretty := true;
                                      Config.includeBodies := true |};
                 Config.build := {| Config.commit := None;
                                    Config.node := Node.version p |} |}) /\
       (Node.env p !! "NODE_ENV" = Some "test" ->
        cfg = {| Config.env := "test"; Config.serviceName := "test-suite";
                 Config.host := "0.0.0.0"; Config.port := JS.of_Z 200;
                 Config.corsOrigins := ["*"];
                 Config.rateLimit := {| Config.globalPerMin := JS.of_Z 0;
                                        Config.authPerMin := JS.of_Z 0 |};
                 Config.security := {| Config.enableHelmet := false;
                                       Config.enableCSP := false;
                                       Config.enableHSTS := false |};
                 Config.logging := {| Config.level := "error"; Config.pretty := false;
                                      Config.includeBodies := false |};
                 Config.build := {| Config.commit := None;
                                    Config.node := Node.version p |} |})).
Proof.
  eexists. split; [reflexivity |].
  cbn [Config.port Config.rateLimit Config.globalPerMin Config.authPerMin Config.env
       Config.serviceName Config.host Config.corsOrigins Config.logging Config.level
       Config.pretty Config.includeBodies Config.security Config.build].
  fold (Spec.tier p).
  split; [reflexivity |].
  split; [apply num_or_truthy; reflexivity |].
  split; [intros v Hv; rewrite Hv; reflexivity |].
  split; [intros v Hn Hv; rewrite Hn, Hv; reflexivity |].
  split; [intros v Hv; rewrite Hv; reflexivity |].
  split; [intros v Hn Hv; rewrite Hn, Hv; reflexivity |].
  split; [reflexivity |].
  split; [intros Hv; rewrite Hv; reflexivity |].
  split; [intros Hv; rewrite Hv; reflexivity |].
  split; [intros Hv; rewrite Hv; reflexivity |].
  split.
  { intros Hv. rewrite Hv. unfold Spec.byTier.
    destruct (String.eqb (Spec.tier p) "production"); [reflexivity |].
    destruct (String.eqb (Spec.tier p) "development"); reflexivity. }
  split.
  { intros H1 H2. rewrite H1, H2. unfold Spec.byTier.
    destruct (String.eqb (Spec.tier p) "production"); [reflexivity |].
    destruct (String.eqb (Spec.tier p) "development"); reflexivity. }
  split.
  { intros H1 H2. rewrite H1, H2. unfold Spec.byTier.
    destruct (String.eqb (Spec.tier p) "production"); [reflexivity |].
    destruct (String.eqb (Spec.tier p) "development"); reflexivity. }
  split; [intros Hv; rewrite Hv; reflexivity |].
  split; [reflexivity |]. split; [reflexivity |]. split; [reflexivity |].
  split; [reflexivity |].
  intros Hun. unfold Spec.unset, Spec.overrides, Spec.numericVariables in Hun.
  cbn [app] in Hun.
  repeat match goal with
         | H : Forall _ (_ :: _) |- _ =>
             let H1 := fresh "Hk" in
             apply Forall_cons_1 in H; destruct H as [H1 H]
         end.
  unfold Spec.tier.
  rewrite Hk, Hk0, Hk1, Hk2, Hk3, Hk4, Hk5, Hk6, Hk7, Hk8.
  split; [| split]; intros He; try rewrite He; reflexivity.
Qed.

(** ** Responses *)

Section Responses.

Import Http.

Lemma sendJson_listeners j r : listeners (sendJson j r) = listeners r.
Proof. unfold sendJson. destruct (resHeaders r !! "content-type"); reflexivity. Qed.

Lemma sendJson_statusCode j r : statusCode (sendJson j r) = statusCode r.
Proof. unfold sendJson. destruct (resHeaders r !! "content-type"); reflexivity. Qed.

Lemma sendJson_body j r : resBody (sendJson j r) = Some (Json j).
Proof. unfold sendJson. destruct (resHeaders r !! "content-type"); reflexivity. Qed.

Lemma setHeader_other k v r k' :
  JS.toLowerCase k <> k' -> resHeaders (setHeader k v r) !! k' = resHeaders r !! k'.
Proof. intros H. cbn. apply lookup_insert_ne. exact H. Qed.

Lemma sendJson_header j r k :
  k <> "content-type" -> resHeaders (sendJson j r) !! k = resHeaders r !! k.
Proof.
  intros H. unfold sendJson. destruct (resHeaders r !! "content-type"); [reflexivity |].
  cbn. apply lookup_insert_ne. intros E. apply H. symmetry. exact E.
Qed.

Lemma jsonContentType_header r k :
  k <> "content-type" -> resHeaders (jsonContentType r) !! k = resHeaders r !! k.
Proof.
  intros H. unfold jsonContentType. destruct (resHeaders r !! "content-type"); [reflexivity |].
  cbn. apply lookup_insert_ne. intros E. apply H. symmetry. exact E.
Qed.

Lemma jsonContentType_listeners r : listeners (jsonContentType r) = listeners r.
Proof. unfold jsonContentType. destruct (resHeaders r !! "content-type"); reflexivity. Qed.


Lemma jsonContentType_finished r : finished (jsonContentType r) = finished r.
Proof. unfold jsonContentType. destruct (resHeaders r !! "content-type"); reflexivity. Qed.

Lemma jsonContentType_body r : resBody (jsonContentType r) = resBody r.
Proof. unfold jsonContentType. destruct (resHeaders r !! "content-type"); reflexivity. Qed.

End Responses.

(** ** The router *)

Section Router.

Import Http Express Spec.

(** A stack in two parts: the second part takes over where the first
    leaves the request unanswered. *)
Lemma pass_app s1 s2 err c :
  pass (s1 ++ s2) err c =
  let '(c1, o, tr1) := pass s1 err c in
  match o with
  | Ended => (c1, Ended, tr1)
  | Unanswered e => let '(c2, o2, tr2) := pass s2 e c1 in (c2, o2, tr1 ++ tr2)
  end.
Proof.
  revert err c. induction s1 as [| l s1 IH]; intros err c.
  - cbn [app pass]. destruct (pass s2 err c) as [[c2 o2] tr2]. reflexivity.
  - cbn [app pass]. destruct (invoke l err (req c)) as [h |]; [| apply IH].
    destruct (h (enter (mount l) c)) as [c1 d]. cbn zeta.
    destruct d as [| e |]; [rewrite IH | rewrite IH | reflexivity].
    + destruct (pass s1 None c1) as [[c2 o] tr]. destruct o as [| e2]; [reflexivity |].
      destruct (pass s2 e2 c2) as [[c3 o3] tr3]. reflexivity.
    + destruct (pass s1 (Some e) c1) as [[c2 o] tr]. destruct o as [| e2]; [reflexivity |].
      destruct (pass s2 e2 c2) as [[c3 o3] tr3]. reflexivity.
Qed.

(** Only layers of the stack are in the trace. *)
Lemma pass_layers stack err c :
  Forall (fun v => In (layer v) (List.map name stack)) (snd (pass stack err c)).
Proof.
  revert err c. induction stack as [| l rest IH]; intros err c; cbn [pass].
  - constructor.
  - assert (Hweak : forall tr : Trace,
              Forall (fun v => In (layer v) (List.map name rest)) tr ->
              Forall (fun v => In (layer v) (List.map name (l :: rest))) tr).
    { intros tr H. eapply Forall_impl; [exact H |]. intros v Hv. right. exact Hv. }
    destruct (invoke l err (req c)) as [h |]; [| apply Hweak, IH].
    destruct (h (enter (mount l) c)) as [c1 d]. cbn zeta.
    destruct d as [| e |].
    + specialize (IH None c1). destruct (pass rest None c1) as [[c2 o] tr].
      constructor; [left; reflexivity | apply Hweak, IH].
    + specialize (IH (Some e) c1). destruct (pass rest (Some e) c1) as [[c2 o] tr].
      constructor; [left; reflexivity | apply Hweak, IH].
    + constructor; [left; reflexivity | constructor].
Qed.

(** A request that is left unanswered was ended by no layer. *)
Lemma pass_unanswered stack err c c' e tr :
  pass stack err c = (c', Unanswered e, tr) ->
  Forall (fun v => handed v <> Done) tr.
Proof.
  revert err c c' e tr. induction stack as [| l rest IH]; intros err c c' e tr; cbn [pass].
  - intros H. inversion H. constructor.
  - destruct (invoke l err (req c)) as [h |]; [| apply IH].
    destruct (h (enter (mount l) c)) as [c1 d]. cbn zeta.
    destruct d as [| e1 |].
    + destruct (pass rest None c1) as [[c2 o] tr2] eqn:Hp. intros H. inversion H; subst.
      constructor; [discriminate | eapply IH; exact Hp].
    + destruct (pass rest (Some e1) c1) as [[c2 o] tr2] eqn:Hp. intros H. inversion H; subst.
      constructor; [discriminate | eapply IH; exact Hp].
    + intros H. discriminate H.
Qed.

Lemma pass_inv (P : option Thrown -> Ctx -> Prop) (Q : Ctx -> Prop)
    (S : Request -> Prop) stack :
  Forall (keeps P Q S) stack ->
  forall err c, P err c ->
    match pass stack err c with
    | (c', Ended, tr) => Q c' /\ Forall (fun v => S (seen v)) tr
    | (c', Unanswered e, tr) => P e c' /\ Forall (fun v => S (seen v)) tr
    end.
Proof.
  induction 1 as [| l rest Hl _ IH]; intros err c HP; cbn [pass].
  - split; [exact HP | constructor].
  - destruct (invoke l err (req c)) as [h |] eqn:Hi; [| apply IH, HP].
    destruct (Hl err c h HP Hi) as [HS Hh].
    destruct (h (enter (mount l) c)) as [c1 d]. cbn zeta.
    destruct d as [| e |].
    + specialize (IH None c1 Hh). destruct (pass rest None c1) as [[c2 o] tr].
      destruct o; destruct IH as [H1 H2]; (split; [exact H1 | constructor; [exact HS | exact H2]]).
    + specialize (IH (Some e) c1 Hh). destruct (pass rest (Some e) c1) as [[c2 o] tr].
      destruct o; destruct IH as [H1 H2]; (split; [exact H1 | constructor; [exact HS | exact H2]]).
    + split; [exact Hh | constructor; [exact HS | constructor]].
Qed.

(** The final handler leaves the other headers of the response alone. *)
Lemma finalhandler_header err c k :
  k <> "content-type" -> k <> "x-content-type-options" ->
  k <> "content-security-policy" ->
  resHeaders (res (finalhandler err c)) !! k = resHeaders (res c) !! k.
Proof.
  intros H1 H2 H3. unfold finalhandler.
  cbn [set_res res endWith setHeader setStatus resHeaders].
  change (JS.toLowerCase "Content-Type") with "content-type".
  change (JS.toLowerCase "X-Content-Type-Options") with "x-content-type-options".
  change (JS.toLowerCase "Content-Security-Policy") with "content-security-policy".
  rewrite !lookup_insert_ne by congruence. reflexivity.
Qed.

(** Two invariants of a stack at once. *)
Lemma keeps_both (P1 P2 : option Thrown -> Ctx -> Prop) (Q1 Q2 : Ctx -> Prop)
    (S1 S2 : Request -> Prop) l :
  keeps P1 Q1 S1 l -> keeps P2 Q2 S2 l ->
  keeps (fun e c => P1 e c /\ P2 e c) (fun c => Q1 c /\ Q2 c) (fun r => S1 r /\ S2 r) l.
Proof.
  intros H1 H2 err c h [HP1 HP2] Hi.
  destruct (H1 err c h HP1 Hi) as [A1 B1]. destruct (H2 err c h HP2 Hi) as [A2 B2].
  split; [split; assumption |].
  destruct (h (enter (mount l) c)) as [c' [| e |]]; split; assumption.
Qed.

(** A middleware mounted with [app.use]: the request object is handed
    over as it is. *)
Lemma keeps_use (P : option Thrown -> Ctx -> Prop) (Q : Ctx -> Prop) (S : Request -> Prop)
    n m h0 :
  (forall pat, m <> Get pat) ->
  (forall c, P None c ->
     S (req c) /\
     match h0 c with
     | (c', Done) => Q c'
     | (c', Next) => P None c'
     | (c', NextErr e) => P (Some e) c'
     end) ->
  keeps P Q S (Server.layer n m h0).
Proof.
  intros Hm Hh err c h HP Hi. unfold invoke, Server.layer in Hi. cbn in Hi.
  destruct (matches m (req c)); [| discriminate].
  destruct err; [discriminate |]. inversion Hi; subst h.
  cbn [Server.layer mount].
  assert (He : enter m c = c) by (destruct m; [reflexivity | reflexivity | exfalso; eapply Hm; reflexivity]).
  rewrite He. apply Hh, HP.
Qed.

(** A layer that is skipped when an error is pending, under an invariant
    that no error is. *)
Lemma keeps_onError (P : option Thrown -> Ctx -> Prop) (Q : Ctx -> Prop) (S : Request -> Prop)
    n m h0 :
  (forall e c, P (Some e) c ->
     S (req (enter m c)) /\
     match h0 e (enter m c) with
     | (c', Done) => Q c'
     | (c', Next) => P None c'
     | (c', NextErr e') => P (Some e') c'
     end) ->
  keeps P Q S {| name := n; mount := m; handler := OnError h0 |}.
Proof.
  intros Hh err c h HP Hi. unfold invoke in Hi. cbn in Hi.
  destruct (matches m (req c)); [| discriminate].
  destruct err as [e |]; [| discriminate]. inversion Hi; subst h.
  cbn [mount]. apply Hh, HP.
Qed.

End Router.

(** ** The middleware before the routes *)

Section Entry.

Import Http Express Spec.

Variable cfg : Config.AppConfig.
Variable h0 : Prom.Histogram.
Variable m : Incoming.
Variable t0 : Z.

Lemma Fresh_Quiet c : Fresh h0 m t0 c -> Quiet h0 c.
Proof. intros (H1 & _ & H3 & _). split; assumption. Qed.

Lemma requestId_Fresh c :
  Fresh h0 m t0 c ->
  match RequestId.requestId c with
  | (c', Done) => Quiet h0 c'
  | (c', _) => Fresh h0 m t0 c'
  end.
Proof.
  intros H. unfold RequestId.requestId.
  destruct (header (req c) RequestId.requestIdHeader) as [s |];
    [destruct (JS.nonempty s && (0 <? Z.of_nat (String.length (JS.trim s)))) |];
    exact H.
Qed.

Lemma pinoHttp_Fresh c :
  Fresh h0 m t0 c ->
  match Pino.pinoHttp (Server.httpLogger cfg) c with
  | (c', Done) => Quiet h0 c'
  | (c', _) => Fresh h0 m t0 c'
  end.
Proof.
  intros (H1 & H2 & H3 & H4 & H5). unfold Pino.pinoHttp.
  cbn [Pino.genReqId Server.httpLogger Pino.autoLogging].
  destruct (RequestId.getRequestId (req c)); cbn;
    (repeat split; [exact H1 | exact H2 | | exact H4 | exact H5]);
    (apply Forall_app; split; [exact H3 | repeat constructor]).
Qed.

Lemma morgan_Fresh c :
  Fresh h0 m t0 c ->
  match Vendor.morgan c with
  | (c', Done) => Quiet h0 c'
  | (c', _) => Fresh h0 m t0 c'
  end.
Proof. intros H. exact H. Qed.

Lemma json_Fresh c :
  Fresh h0 m t0 c ->
  match Vendor.json c with
  | (c', Done) => Quiet h0 c'
  | (c', _) => Fresh h0 m t0 c'
  end.
Proof.
  intros H. unfold Vendor.json. destruct (payload (message (req c))); exact H.
Qed.

Lemma cors_Fresh o c :
  Fresh h0 m t0 c ->
  match Vendor.cors o c with
  | (c', Done) => Quiet h0 c'
  | (c', _) => Fresh h0 m t0 c'
  end.
Proof.
  intros (H1 & H2 & H3 & H4 & H5). unfold Vendor.cors.
  destruct (String.eqb (method (message (req c))) "OPTIONS").
  - split; [exact H1 |]. cbn.
    destruct (header (req c) "origin") as [v |]; [destruct (Vendor.allowed o v) |];
      destruct (Vendor.credentials o); exact H3.
  - repeat split; [exact H1 | | | exact H4 | exact H5]; cbn;
      (destruct (header (req c) "origin") as [v |]; [destruct (Vendor.allowed o v) |]);
      destruct (Vendor.credentials o); assumption.
Qed.

Lemma helmet_Fresh o c :
  Fresh h0 m t0 c ->
  match Vendor.helmet o c with
  | (c', Done) => Quiet h0 c'
  | (c', _) => Fresh h0 m t0 c'
  end.
Proof.
  intros (H1 & H2 & H3 & H4 & H5). unfold Vendor.helmet.
  repeat split; [exact H1 | | | exact H4 | exact H5]; cbn;
    destruct (Vendor.contentSecurityPolicy o); assumption.
Qed.

(** Lines 32-77 leave the histogram, the status and the listeners of the
    metrics alone. *)
Lemma entry_keeps :
  Forall (keeps (fun _ => Fresh h0 m t0) (Quiet h0) (fun _ => True)) (Server.entry cfg).
Proof.
  assert (Huse : forall n h,
            (forall c, Fresh h0 m t0 c ->
               match h c with
               | (c', Done) => Quiet h0 c'
               | (c', _) => Fresh h0 m t0 c'
               end) ->
            keeps (fun _ => Fresh h0 m t0) (Quiet h0) (fun _ => True)
              (Server.layer n Everywhere h)).
  { intros n h Hh. apply keeps_use; [discriminate |]. intros c Hc. split; [exact I |].
    specialize (Hh c Hc). destruct (h c) as [c' [| e |]]; exact Hh. }
  unfold Server.entry.
  apply Forall_app; split; [| apply Forall_app; split; [| apply Forall_app; split]].
  - constructor; [apply Huse, requestId_Fresh |].
    constructor; [apply Huse, pinoHttp_Fresh | constructor].
  - destruct (Config.isDevelopment cfg); [| constructor].
    constructor; [apply Huse, morgan_Fresh | constructor].
  - constructor; [apply Huse, json_Fresh |].
    constructor; [apply Huse, cors_Fresh | constructor].
  - destruct (Config.enableHelmet (Config.security cfg)); [| constructor].
    constructor; [apply Huse, helmet_Fresh | constructor].
Qed.

(** A middleware that raises nothing but the error of the body parser. *)
Lemma keeps_parserError n mt h :
  (forall c e, snd (h c) = NextErr e -> status e = Some 400) ->
  keeps (fun err _ => parserError err) (fun _ => True) (fun _ => True)
        (Server.layer n mt h).
Proof.
  intros Hh err c h' _ Hi. unfold invoke, Server.layer in Hi. cbn in Hi.
  destruct (matches mt (req c)); [| discriminate].
  destruct err; [discriminate |]. inversion Hi; subst h'.
  cbn [Server.layer mount]. split; [exact I |].
  specialize (Hh (enter mt c)).
  destruct (h (enter mt c)) as [c' [| e |]]; cbn [snd] in Hh.
  - intros e He. discriminate He.
  - intros e' He. inversion He; subst e'. apply Hh. reflexivity.
  - exact I.
Qed.

Lemma requestId_next c : snd (RequestId.requestId c) = Next.
Proof.
  unfold RequestId.requestId.
  destruct (header (req c) RequestId.requestIdHeader) as [s |];
    [destruct (JS.nonempty s && (0 <? Z.of_nat (String.length (JS.trim s)))) |];
    reflexivity.
Qed.

Lemma pinoHttp_next c : snd (Pino.pinoHttp (Server.httpLogger cfg) c) = Next.
Proof.
  unfold Pino.pinoHttp. cbn [Pino.genReqId Server.httpLogger Pino.autoLogging].
  destruct (RequestId.getRequestId (req c)); reflexivity.
Qed.

Lemma json_raises c e : snd (Vendor.json c) = NextErr e -> status e = Some 400.
Proof.
  unfold Vendor.json. destruct (payload (message (req c))); cbn [snd]; intros H;
    inversion H. reflexivity.
Qed.

Lemma cors_raises o c e : snd (Vendor.cors o c) <> NextErr e.
Proof.
  unfold Vendor.cors. destruct (String.eqb (method (message (req c))) "OPTIONS");
    discriminate.
Qed.

Lemma makeLimiter_raises cls perMin c e : snd (Server.makeLimiter cls perMin c) <> NextErr e.
Proof.
  unfold Server.makeLimiter. destruct (JS.le perMin (JS.of_Z 0)); [discriminate |].
  unfold RateLimiter.rateLimit.
  destruct (RateLimiter.admitRequest _ _ _ _) as [[st win] v].
  destruct v; discriminate.
Qed.

(** Lines 32-91 raise no error but that of the body parser. *)
Lemma before_timer_parserError :
  Forall (keeps (fun err _ => parserError err) (fun _ => True) (fun _ => True))
         (Server.entry cfg ++ Server.limiters cfg).
Proof.
  apply Forall_app. split.
  - unfold Server.entry.
    apply Forall_app; split; [| apply Forall_app; split; [| apply Forall_app; split]].
    + constructor; [| constructor; [| constructor]]; apply keeps_parserError; intros c e H.
      * rewrite requestId_next in H. discriminate H.
      * rewrite pinoHttp_next in H. discriminate H.
    + destruct (Config.isDevelopment cfg); [| constructor].
      constructor; [| constructor]. apply keeps_parserError. intros c e H. discriminate H.
    + constructor; [| constructor; [| constructor]]; apply keeps_parserError; intros c e H.
      * eapply json_raises; exact H.
      * exfalso. eapply cors_raises; exact H.
    + destruct (Config.enableHelmet (Config.security cfg)); [| constructor].
      constructor; [| constructor]. apply keeps_parserError. intros c e H. discriminate H.
  - unfold Server.limiters.
    constructor; [| constructor; [| constructor]]; apply keeps_parserError; intros c e H;
      exfalso; eapply makeLimiter_raises; exact H.
Qed.

Lemma entry_parserError :
  Forall (keeps (fun err _ => parserError err) (fun _ => True) (fun _ => True))
         (Server.entry cfg).
Proof. pose proof before_timer_parserError as H. apply Forall_app in H. exact (proj1 H). Qed.

(** An error that lines 32-91 leave pending is that of the body parser. *)
Lemma pending_is_parserError stack c c' e tr :
  Forall (keeps (fun err _ => parserError err) (fun _ => True) (fun _ => True)) stack ->
  pass stack None c = (c', Unanswered (Some e), tr) ->
  status e = Some 400.
Proof.
  intros Hk Hp.
  assert (H0 : parserError None) by (intros e0 H; discriminate H).
  pose proof (pass_inv _ _ _ _ Hk None c H0) as Hinv. rewrite Hp in Hinv.
  destruct Hinv as [H _]. apply H. reflexivity.
Qed.

(** The names of lines 32-77. *)
Lemma entry_names : incl (List.map name (Server.entry cfg)) entryNames.
Proof.
  unfold Server.entry, entryNames.
  destruct (Config.isDevelopment cfg), (Config.enableHelmet (Config.security cfg));
    cbn; intros n Hn; cbn in Hn; cbn; tauto.
Qed.

(** The rate limiter: a request it lets through is as it was, but for the
    window and for headers; one it rejects has status 429. *)
Lemma makeLimiter_Fresh cls perMin c :
  Fresh h0 m t0 c ->
  match Server.makeLimiter cls perMin c with
  | (c', Done) => Quiet h0 c' /\ statusCode (res c') = 429
  | (c', Next) => Fresh h0 m t0 c'
  | (c', NextErr e) => False
  end.
Proof.
  intros (H1 & H2 & H3 & H4 & H5). unfold Server.makeLimiter.
  destruct (JS.le perMin (JS.of_Z 0)); [repeat split; assumption |].
  unfold RateLimiter.rateLimit.
  destruct (RateLimiter.admitRequest _ _ _ _) as [[st w] v].
  cbn [RateLimiter.standardHeaders].
  destruct v; cbn.
  - repeat split; [destruct cls; exact H1 | exact H2 | exact H3 | exact H4 | exact H5].
  - repeat split; [destruct cls; exact H1 | exact H3].
Qed.

Lemma limiters_keeps :
  Forall (keeps (fun e c => e = None /\ Fresh h0 m t0 c)
                (fun c => Quiet h0 c /\ statusCode (res c) = 429)
                (fun _ => True))
         (Server.limiters cfg).
Proof.
  assert (Huse : forall n mt cls perMin, (forall pat, mt <> Get pat) ->
            keeps (fun e c => e = None /\ Fresh h0 m t0 c)
              (fun c => Quiet h0 c /\ statusCode (res c) = 429) (fun _ => True)
              (Server.layer n mt (Server.makeLimiter cls perMin))).
  { intros n mt cls perMin Hmt. apply keeps_use; [exact Hmt |].
    intros c [_ Hc]. split; [exact I |].
    pose proof (makeLimiter_Fresh cls perMin c Hc) as H.
    destruct (Server.makeLimiter cls perMin c) as [c' [| e |]];
      [split; [reflexivity | exact H] | destruct H | exact H]. }
  unfold Server.limiters.
  constructor; [apply Huse; discriminate |].
  constructor; [apply Huse; discriminate | constructor].
Qed.

End Entry.

(** ** One request through the application *)

Section Application.

Import Http Express Spec.

Variable cfg : Config.AppConfig.

(** With an error pending, a stack without error handler is skipped. *)
Lemma pass_error_skips stack e c :
  Forall (fun l => exists h, handler l = Plain h) stack ->
  pass stack (Some e) c = (c, Unanswered (Some e), []).
Proof.
  induction 1 as [| l rest [h Hh] _ IH]; cbn [pass]; [reflexivity |].
  unfold invoke. rewrite Hh. destruct (matches (mount l) (req c)); exact IH.
Qed.

Lemma plain_layers :
  Forall (fun l => exists h, handler l = Plain h)
    (Server.limiters cfg ++ Server.timer ++ Server.routes cfg ++
     [Server.layer "notFound" Everywhere Server.notFound]).
Proof. repeat constructor; eexists; reflexivity. Qed.

Lemma after_entry :
  Server.limiters cfg ++ Server.timer ++ Server.routes cfg ++ Server.terminal cfg =
  (Server.limiters cfg ++ Server.timer ++ Server.routes cfg ++
   [Server.layer "notFound" Everywhere Server.notFound]) ++
  [{| name := "errorHandler"; mount := Everywhere;
      handler := OnError (Server.errorHandler cfg) |}].
Proof. reflexivity. Qed.

(** The error handler answers whenever Node agrees to write the status,
    and throws otherwise. *)
Lemma errorHandler_answers e c :
  validStatus (JS.int_or (status e) 500) = true ->
  Server.errorHandler cfg e c =
  (set_res (fun r => sendJson (JS.JObj (Server.errorPayload cfg e
                                          (RequestId.getRequestId (req c))))
                       (setStatus (JS.int_or (status e) 500) r)) c,
   Done).
Proof. intros H. unfold Server.errorHandler. rewrite H. reflexivity. Qed.


Lemma parserError_valid e :
  status e = Some 400 -> validStatus (JS.int_or (status e) 500) = true.
Proof. intros H. rewrite H. reflexivity. Qed.

(** An error raised before the limiters goes to the error handler, and
    to nothing else. *)
Lemma error_path e c :
  validStatus (JS.int_or (status e) 500) = true ->
  pass (Server.limiters cfg ++ Server.timer ++ Server.routes cfg ++ Server.terminal cfg)
       (Some e) c =
  (fst (Server.errorHandler cfg e c), Ended,
   [{| layer := "errorHandler"; seen := req c; handed := Done |}]).
Proof.
  intros Hv. rewrite after_entry, pass_app, (pass_error_skips _ _ _ plain_layers).
  cbn [pass]. unfold invoke. cbn [matches mount handler name enter].
  rewrite (errorHandler_answers e c Hv). reflexivity.
Qed.

(** A route whose handler always answers. *)
Lemma pass_route n pat h rest c :
  (forall c1, snd (h c1) = Done) ->
  pass (Server.layer n (Get pat) h :: rest) None c =
  if matches (Get pat) (req c)
  then (fst (h (enter (Get pat) c)), Ended,
        [{| layer := n; seen := req (enter (Get pat) c); handed := Done |}])
  else pass rest None c.
Proof.
  intros Hd. cbn [pass]. unfold invoke. cbn [mount handler name Server.layer].
  destruct (matches (Get pat) (req c)); [| reflexivity].
  specialize (Hd (enter (Get pat) c)).
  destruct (h (enter (Get pat) c)) as [c1 d]. cbn in Hd. subst d. reflexivity.
Qed.

(** The listeners of the logger change the log, and nothing else. *)
Lemma fire_logs ls : forall c,
  Forall isLog ls ->
  let c' := fold_left (fun acc l => Server.fire cfg l acc) ls c in
  res c' = res c /\ req c' = req c /\ now c' = now c /\
  httpRequestDurationMs (world c') = httpRequestDurationMs (world c) /\
  globalStore (world c') = globalStore (world c) /\
  authStore (world c') = authStore (world c).
Proof.
  induction ls as [| l ls IH]; intros c Hls; cbn [fold_left].
  - repeat split.
  - inversion Hls as [| ? ? Hl Hls']; subst.
    destruct l as [start | start]; [| destruct Hl].
    specialize (IH (Server.fire cfg (LogCompleted start) c) Hls').
    cbn zeta in IH. destruct IH as (I1 & I2 & I3 & I4 & I5 & I6).
    rewrite I1, I2, I3, I4, I5, I6. repeat split.
Qed.

Lemma finish_Quiet h0 c :
  Quiet h0 c ->
  res (Server.finish cfg c) = res c /\
  httpRequestDurationMs (world (Server.finish cfg c)) = h0.
Proof.
  intros [H1 H2]. unfold Server.finish.
  destruct (fire_logs (listeners (res c)) c H2) as (I1 & _ & _ & I4 & _).
  split; [exact I1 | rewrite I4; exact H1].
Qed.

Lemma route_names l :
  In l (Server.routes cfg ++ [Server.layer "notFound" Everywhere Server.notFound]) ->
  In (name l) (routeNames ++ ["notFound"]).
Proof.
  intros H. cbn in H. cbn.
  repeat (destruct H as [H | H]; [subst l; cbn; tauto |]). destruct H.
Qed.

(** Where a request can end in the stack of lines 25-166:
    - before the limiters (a CORS preflight) or in the error handler;
    - in a limiter, with status 429;
    - in a route or in the not-found handler, after the timer was started
      on a request that was still untouched. *)
Lemma app_run h0 m t0 c0 c' o tr :
  Fresh h0 m t0 c0 ->
  pass (Server.app cfg) None c0 = (c', o, tr) ->
  o = Ended /\
  ((Quiet h0 c' /\ Forall (fun v => In (layer v) (entryNames ++ ["errorHandler"])) tr) \/
   (Quiet h0 c' /\ statusCode (res c') = 429 /\
    Forall (fun v => In (layer v) (entryNames ++ limiterNames)) tr) \/
   (exists c2 tr0 l h,
      Fresh h0 m t0 c2 /\
      Forall (fun v => In (layer v) (entryNames ++ limiterNames ++ ["metricsTimer"]) /\
                       handed v <> Done) tr0 /\
      In l (Server.routes cfg ++ [Server.layer "notFound" Everywhere Server.notFound]) /\
      handler l = Plain h /\
      let c3 := enter (mount l) (set_res (onFinish (ObserveDuration t0)) c2) in
      h c3 = (c', Done) /\
      tr = tr0 ++ [{| layer := name l; seen := req c3; handed := Done |}])).
Proof.
  intros HF. unfold Server.app. rewrite pass_app.
  pose proof (pass_inv _ _ _ _ (entry_keeps cfg h0 m t0) None c0 HF) as Hinv.
  pose proof (pass_layers (Server.entry cfg) None c0) as Hnames.
  destruct (pass (Server.entry cfg) None c0) as [[c1 o1] tr1] eqn:Hentry.
  cbn [snd] in Hnames.
  assert (Hn1 : Forall (fun v => In (layer v) entryNames) tr1).
  { eapply Forall_impl; [exact Hnames |]. intros v Hv. apply (entry_names cfg), Hv. }
  destruct o1 as [| e1].
  { (* answered before the limiters *)
    intros H. inversion H; subst. destruct Hinv as [HQ _].
    split; [reflexivity |]. left. split; [exact HQ |].
    eapply Forall_impl; [exact Hn1 |]. intros v Hv. apply in_or_app. left. exact Hv. }
  destruct Hinv as [HF1 _].
  pose proof (pass_unanswered _ _ _ _ _ _ Hentry) as Hnd1.
  destruct e1 as [e |].
  { (* an error is pending *)
    pose proof (parserError_valid e
                  (pending_is_parserError _ _ _ _ _ (entry_parserError cfg) Hentry)) as Hok.
    rewrite (error_path e c1 Hok), (errorHandler_answers e c1 Hok).
    intros H. inversion H; subst.
    split; [reflexivity |]. left. split.
    - apply Fresh_Quiet in HF1. destruct HF1 as [Q1 Q2].
      split; [exact Q1 | cbn [set_res res]; rewrite sendJson_listeners; exact Q2].
    - apply Forall_app. split.
      + eapply Forall_impl; [exact Hn1 |]. intros v Hv. apply in_or_app. left. exact Hv.
      + constructor; [| constructor]. apply in_or_app. right. left. reflexivity. }
  (* the limiters *)
  rewrite pass_app.
  pose proof (pass_inv _ _ _ _ (limiters_keeps cfg h0 m t0) None c1 (conj eq_refl HF1)) as Hinv2.
  pose proof (pass_layers (Server.limiters cfg) None c1) as Hnames2.
  destruct (pass (Server.limiters cfg) None c1) as [[c2 o2] tr2] eqn:Hlim.
  cbn [snd] in Hnames2.
  destruct o2 as [| e2].
  { intros H. inversion H; subst. destruct Hinv2 as [[HQ H429] _].
    split; [reflexivity |]. right. left. split; [exact HQ |]. split; [exact H429 |].
    apply Forall_app. split.
    - eapply Forall_impl; [exact Hn1 |]. intros v Hv. apply in_or_app. left. exact Hv.
    - eapply Forall_impl; [exact Hnames2 |]. intros v Hv. apply in_or_app. right. exact Hv. }
  destruct Hinv2 as [[He2 HF2] _]. subst e2.
  pose proof (pass_unanswered _ _ _ _ _ _ Hlim) as Hnd2.
  (* the timer, then the routes *)
  assert (Hpre : Forall (fun v => In (layer v) (entryNames ++ limiterNames ++ ["metricsTimer"]) /\
                                  handed v <> Done)
                   (tr1 ++ tr2 ++
                    [{| layer := "metricsTimer"; seen := req c2; handed := Next |}])).
  { apply Forall_app. split; [| apply Forall_app; split].
    - apply Forall_forall. intros v Hv. split.
      + apply in_or_app. left. eapply Forall_forall in Hn1; [exact Hn1 | exact Hv].
      + eapply Forall_forall in Hnd1; [exact Hnd1 | exact Hv].
    - apply Forall_forall. intros v Hv. split.
      + apply in_or_app. right. apply in_or_app. left.
        eapply Forall_forall in Hnames2; [exact Hnames2 | exact Hv].
      + eapply Forall_forall in Hnd2; [exact Hnd2 | exact Hv].
    - constructor; [| constructor]. split; [| discriminate].
      apply in_or_app. right. apply in_or_app. right. left. reflexivity. }
  set (c3 := set_res (onFinish (ObserveDuration t0)) c2).
  assert (Htimer : forall rest,
            pass (Server.timer ++ rest) None c2 =
            let '(c4, o4, tr4) := pass rest None c3 in
            (c4, o4, {| layer := "metricsTimer"; seen := req c2; handed := Next |} :: tr4)).
  { intros rest. cbn [Server.timer app pass]. unfold invoke. cbn.
    destruct HF2 as (_ & _ & _ & _ & Hnow). rewrite Hnow. reflexivity. }
  rewrite Htimer.
  assert (Hroutes : exists l h,
            In l (Server.routes cfg ++
                  [Server.layer "notFound" Everywhere Server.notFound]) /\
            handler l = Plain h /\
            pass (Server.routes cfg ++ Server.terminal cfg) None c3 =
            (fst (h (enter (mount l) c3)), Ended,
             [{| layer := name l; seen := req (enter (mount l) c3); handed := Done |}]) /\
            snd (h (enter (mount l) c3)) = Done).
  { unfold Server.routes, Server.terminal. cbn [app].
    rewrite !pass_route by reflexivity.
    repeat match goal with
           | |- context [if matches (Get ?p) (req c3) then _ else _] =>
               destruct (matches (Get p) (req c3));
               [eexists (Server.layer _ (Get p) _), _;
                split; [cbn; tauto | split; [reflexivity | split; reflexivity]] |]
           end.
    exists (Server.layer "notFound" Everywhere Server.notFound), Server.notFound.
    split; [cbn; tauto | split; [reflexivity | split; reflexivity]]. }
  destruct Hroutes as (l & h & Hin & Hh & Hpass & Hd).
  rewrite Hpass. intros H. inversion H; subst.
  split; [reflexivity |]. right. right.
  exists c2, (tr1 ++ tr2 ++ [{| layer := "metricsTimer"; seen := req c2; handed := Next |}]), l, h.
  split; [exact HF2 |]. split; [exact Hpre |]. split; [exact Hin |]. split; [exact Hh |].
  cbn zeta. fold c3. split.
  - destruct (h (enter (mount l) c3)) as [c4 d4]. cbn in Hd. subst d4. reflexivity.
  - rewrite <- !List.app_assoc. reflexivity.
Qed.

End Application.

(** ** Rate limiting and metrics *)

Section Metrics.

Import Http Express Spec.

Variable cfg : Config.AppConfig.

Lemma arrival_Fresh w m t0 : Fresh (httpRequestDurationMs w) m t0 (arrival w m t0).
Proof. repeat split. constructor. Qed.

Lemma visited_In n tr (L : list string) :
  visited n tr = true -> Forall (fun v => In (layer v) L) tr -> In n L.
Proof.
  unfold visited. intros H HL. apply existsb_exists in H. destruct H as (v & Hv & Hn).
  apply String.eqb_eq in Hn. subst n. rewrite List.Forall_forall in HL. apply HL, Hv.
Qed.

Lemma answeredBy_In n tr :
  answeredBy n tr = true -> exists v, In v tr /\ layer v = n /\ handed v = Done.
Proof.
  unfold answeredBy. intros H. apply existsb_exists in H. destruct H as (v & Hv & Hn).
  apply andb_true_iff in Hn. destruct Hn as [Hn Hd]. apply String.eqb_eq in Hn.
  exists v. split; [exact Hv |]. split; [exact Hn |]. destruct (handed v); try discriminate.
  reflexivity.
Qed.


(** [handle], once the stack is known to answer. *)
Lemma handle_Ended w m t0 t1 c1 tr :
  pass (Server.app cfg) None (arrival w m t0) = (c1, Ended, tr) ->
  Server.handle cfg w m t0 t1 =
  (world (Server.finish cfg (set_now t1 c1)), res (Server.finish cfg (set_now t1 c1)), tr).
Proof.
  intros H. unfold Server.handle, dispatch. fold (arrival w m t0). rewrite H. reflexivity.
Qed.

Ltac absurd_name H :=
  cbn in H; repeat (destruct H as [H | H]; [discriminate H |]); destruct H.

(** What a request that reaches the routes leaves behind: the handler's
    response, and one observation of the timer. *)
Lemma routed_finish (h0 : Prom.Histogram) t0 t1 c2 c' :
  Forall isLog (listeners (res c2)) ->
  listeners (res c') = listeners (res c2) ++ [ObserveDuration t0] ->
  httpRequestDurationMs (world c') = h0 ->
  let cf := Server.finish cfg (set_now t1 c') in
  res cf = res c' /\
  httpRequestDurationMs (world cf) =
    Prom.observe (method (message (req c')),
                  JS.or_else (route (req c')) (path (message (req c'))),
                  pretty (statusCode (res c')))
                 (t1 - t0) h0.
Proof.
  intros Hlogs Hls Hh. cbn zeta. unfold Server.finish. cbn [set_now res].
  rewrite Hls, fold_left_app.
  destruct (fire_logs cfg (listeners (res c2)) (set_now t1 c') Hlogs)
    as (I1 & I2 & I3 & I4 & _).
  cbn [fold_left Server.fire]. unfold Server.observeDuration.
  cbn [set_world res world req now with_histogram httpRequestDurationMs].
  rewrite I1, I2, I3, I4. cbn [set_now res req world now]. rewrite Hh.
  split; reflexivity.
Qed.

(** C5.  A request that the global or the auth limiter answers gets status
    429; the histogram is what it was before the request; neither the
    timer of the metrics nor a route handler (nor the not-found handler)
    ran for it. *)
Theorem rejected_requests_bypass_metrics w m t0 t1 :
  answeredBy "globalLimiter" (traceOf (Server.handle cfg w m t0 t1)) = true \/
  answeredBy "authLimiter" (traceOf (Server.handle cfg w m t0 t1)) = true ->
  statusCode (responseOf (Server.handle cfg w m t0 t1)) = 429 /\
  httpRequestDurationMs (worldOf (Server.handle cfg w m t0 t1)) = httpRequestDurationMs w /\
  Forall (fun n => visited n (traceOf (Server.handle cfg w m t0 t1)) = false)
         ("metricsTimer" :: routeNames ++ ["notFound"]).
Proof.
  destruct (pass (Server.app cfg) None (arrival w m t0)) as [[c1 o] tr] eqn:Hp.
  destruct (app_run cfg _ _ _ _ _ _ _ (arrival_Fresh w m t0) Hp) as [Ho Hcases]. subst o.
  rewrite (handle_Ended _ _ _ t1 _ _ Hp). cbn [worldOf responseOf traceOf fst snd].
  intros Hprem.
  assert (Hans : exists n v, In n limiterNames /\ In v tr /\ layer v = n /\ handed v = Done).
  { destruct Hprem as [H | H]; apply answeredBy_In in H; destruct H as (v & H1 & H2 & H3);
      [exists "globalLimiter", v | exists "authLimiter", v]; cbn; tauto. }
  clear Hprem. destruct Hans as (n & v & Hn & Hv & Hl & Hd).
  destruct Hcases as [[HQ Hnames] | [(HQ & H429 & Hnames) | Hrouted]].
  - (* never reached a limiter *)
    exfalso. rewrite List.Forall_forall in Hnames. specialize (Hnames v Hv).
    rewrite Hl in Hnames. cbn in Hn.
    destruct Hn as [Hn | [Hn | []]]; subst n; absurd_name Hnames.
  - destruct (finish_Quiet cfg _ (set_now t1 c1) HQ) as [Hres Hhist].
    split; [rewrite Hres; exact H429 |]. split; [exact Hhist |].
    apply List.Forall_forall. intros n' Hn'.
    destruct (visited n' tr) eqn:Hvis; [exfalso | reflexivity].
    pose proof (visited_In _ _ _ Hvis Hnames) as Hin.
    cbn in Hn'. repeat (destruct Hn' as [Hn' | Hn']; [subst n'; absurd_name Hin |]).
    destruct Hn'.
  - (* reached the routes: no limiter answered *)
    exfalso. destruct Hrouted as (c2 & tr0 & l & h & _ & Hpre & Hin & _ & _ & Htr).
    subst tr. apply in_app_or in Hv. destruct Hv as [Hv | [Hv | []]].
    + rewrite List.Forall_forall in Hpre. destruct (Hpre v Hv) as [_ Hnd]. exact (Hnd Hd).
    + subst v. cbn [layer] in Hl. pose proof (route_names cfg l Hin) as Hrn.
      rewrite Hl in Hrn. cbn in Hn.
      destruct Hn as [Hn | [Hn | []]]; subst n; absurd_name Hrn.
Qed.





End Metrics.

(** C5 at work: under [Spec.strict], the second request of a client
    within the minute. *)
Lemma rejected_requests_bypass_metrics_witness :
  Spec.answeredBy "globalLimiter"
    (Spec.traceOf (Server.handle Spec.strict Spec.afterOne (Spec.get "/version") 2000 2002))
    = true /\
  Http.statusCode
    (Spec.responseOf (Server.handle Spec.strict Spec.afterOne (Spec.get "/version") 2000 2002))
    = 429 /\
  Http.httpRequestDurationMs
    (Spec.worldOf (Server.handle Spec.strict Spec.afterOne (Spec.get "/version") 2000 2002))
    = Http.httpRequestDurationMs Spec.afterOne.
Proof.
  assert (H : Spec.answeredBy "globalLimiter"
                (Spec.traceOf
                   (Server.handle Spec.strict Spec.afterOne (Spec.get "/version") 2000 2002))
              = true)
    by (vm_compute; reflexivity).
  split; [exact H |].
  destruct (rejected_requests_bypass_metrics Spec.strict Spec.afterOne (Spec.get "/version")
              2000 2002 (or_introl H)) as (H1 & H2 & _).
  split; [exact H1 | exact H2].
Defined.

(** ** The correlation id *)

Section Correlation.

Import Http Express Spec.

Variable cfg : Config.AppConfig.
Variable rid : string.

Ltac project :=
  cbn [set_res set_req set_world res req fst endWith setStatus resHeaders onFinish].

Ltac other_header :=
  repeat first
    [ progress project
    | rewrite sendJson_header by discriminate
    | rewrite setHeader_other by (vm_compute; discriminate) ].

(** Changing the response so that the header stays keeps the id. *)
Lemma Correlated_res (f : Response -> Response) c :
  (forall r, resHeaders (f r) !! "x-request-id" = resHeaders r !! "x-request-id") ->
  Correlated rid c -> Correlated rid (set_res f c).
Proof. intros Hf [H1 H2]. split; [exact H1 | cbn [set_res res]; rewrite Hf; exact H2]. Qed.

Lemma pinoHttp_Correlated c :
  Correlated rid c -> Correlated rid (fst (Pino.pinoHttp (Server.httpLogger cfg) c)) /\
  snd (Pino.pinoHttp (Server.httpLogger cfg) c) = Next.
Proof.
  intros [H1 H2]. unfold Pino.pinoHttp.
  cbn [Pino.genReqId Server.httpLogger Pino.autoLogging]. unfold RequestId.getRequestId.
  rewrite H1. split; [| reflexivity]. split; [exact H1 | exact H2].
Qed.

Lemma json_Correlated c :
  Correlated rid c -> Correlated rid (fst (Vendor.json c)).
Proof. intros H. unfold Vendor.json. destruct (payload (message (req c))); exact H. Qed.

Lemma cors_Correlated o c :
  Correlated rid c -> Correlated rid (fst (Vendor.cors o c)).
Proof.
  intros [H1 H2]. unfold Vendor.cors.
  destruct (String.eqb (method (message (req c))) "OPTIONS"); (split; [exact H1 |]); project;
    (destruct (header (req c) "origin") as [v |]; [destruct (Vendor.allowed o v) |]);
    destruct (Vendor.credentials o); project; other_header; exact H2.
Qed.

Lemma helmet_Correlated o c :
  Correlated rid c -> Correlated rid (fst (Vendor.helmet o c)).
Proof.
  intros [H1 H2]. unfold Vendor.helmet. split; [exact H1 |]. project.
  destruct (Vendor.contentSecurityPolicy o); other_header; exact H2.
Qed.

Lemma makeLimiter_Correlated cls perMin c :
  Correlated rid c -> Correlated rid (fst (Server.makeLimiter cls perMin c)).
Proof.
  intros [H1 H2]. unfold Server.makeLimiter.
  destruct (JS.le perMin (JS.of_Z 0)); [split; assumption |].
  unfold RateLimiter.rateLimit.
  destruct (RateLimiter.admitRequest _ _ _ _) as [[st w] v].
  cbn [RateLimiter.standardHeaders].
  destruct v; (split; [exact H1 |]); project; unfold RateLimiter.standard; project;
    other_header; exact H2.
Qed.

Lemma enter_Correlated mt c : Correlated rid c -> Correlated rid (enter mt c).
Proof. intros H. destruct mt; exact H. Qed.

Lemma keeps_stays n mt h :
  stays rid h ->
  keeps (fun _ => Correlated rid) (Correlated rid)
        (fun r => RequestId.getRequestId r = Some rid) (Server.layer n mt h).
Proof.
  intros Hh err c h' HP Hi. unfold invoke, Server.layer in Hi. cbn in Hi.
  destruct (matches mt (req c)); [| discriminate].
  destruct err; [discriminate |]. inversion Hi; subst h'.
  cbn [Server.layer mount].
  pose proof (enter_Correlated mt c HP) as HE.
  split; [exact (proj1 HE) |].
  specialize (Hh _ HE). destruct (h (enter mt c)) as [c' [| e |]]; exact Hh.
Qed.

Lemma app_stays :
  Forall (keeps (fun _ => Correlated rid) (Correlated rid)
                (fun r => RequestId.getRequestId r = Some rid))
         (tl (Server.app cfg)).
Proof.
  unfold Server.app, Server.entry. cbn [app tl].
  constructor; [apply keeps_stays; intros c Hc; apply pinoHttp_Correlated, Hc |].
  apply Forall_app; split.
  { apply Forall_app; split.
    { destruct (Config.isDevelopment cfg); [| constructor].
      constructor; [| constructor]. apply keeps_stays. intros c Hc. exact Hc. }
    constructor; [apply keeps_stays; intros c; apply json_Correlated |].
    constructor; [apply keeps_stays; intros c; apply cors_Correlated |].
    destruct (Config.enableHelmet (Config.security cfg)); [| constructor].
    constructor; [| constructor]. apply keeps_stays. intros c. apply helmet_Correlated. }
  unfold Server.limiters, Server.timer, Server.routes, Server.terminal. cbn [app].
  constructor; [apply keeps_stays; intros c; apply makeLimiter_Correlated |].
  constructor; [apply keeps_stays; intros c; apply makeLimiter_Correlated |].
  constructor; [apply keeps_stays; intros c Hc; exact Hc |].
  assert (Hjson : forall (body : Ctx -> JS.json) (st : Ctx -> option Z),
            stays rid (fun c => (set_res (fun r => sendJson (body c)
                                        match st c with
                                        | Some z => setStatus z r
                                        | None => r
                                        end) c, Done))).
  { intros body st c Hc. cbn [fst]. apply Correlated_res; [| exact Hc].
    intros r. other_header. destruct (st c); reflexivity. }
  constructor; [apply keeps_stays; exact (Hjson _ (fun _ => None)) |].
  constructor; [apply keeps_stays; exact (Hjson _ (fun _ => None)) |].
  constructor; [apply keeps_stays; exact (Hjson _ (fun _ => None)) |].
  constructor.
  { apply keeps_stays. intros c Hc. cbn [fst Server.metrics]. apply Correlated_res; [| exact Hc].
    intros r. project. other_header. reflexivity. }
  constructor; [apply keeps_stays; exact (Hjson _ (fun _ => Some 200)) |].
  constructor; [apply keeps_stays; exact (Hjson _ (fun _ => Some 404)) |].
  constructor; [| constructor].
  apply keeps_onError. intros e c Hc. split; [exact (proj1 Hc) |].
  cbn [enter]. unfold Server.errorHandler.
  destruct (validStatus (JS.int_or (status e) 500)); (apply Correlated_res; [| exact Hc]);
    intros r.
  - other_header. reflexivity.
  - rewrite jsonContentType_header by discriminate. reflexivity.
Qed.

Lemma fire_res l c : res (Server.fire cfg l c) = res c.
Proof. destruct l; reflexivity. Qed.

(** The [finish] event does not change the response. *)
Lemma finish_res c : res (Server.finish cfg c) = res c.
Proof.
  unfold Server.finish. generalize (listeners (res c)). intros ls. revert c.
  induction ls as [| l ls IH]; intros c; cbn [fold_left]; [reflexivity |].
  rewrite IH. apply fire_res.
Qed.

(** The test of line 8, [incoming && incoming.trim().length > 0], holds
    exactly of a value that is not blank. *)
Lemma present_nonblank v :
  JS.nonempty v && (0 <? Z.of_nat (String.length (JS.trim v))) = true <-> JS.trim v <> "".
Proof.
  split.
  - intros H. apply andb_true_iff in H. destruct H as [_ H]. apply Z.ltb_lt in H.
    intros E. rewrite E in H. cbn in H. lia.
  - intros H. apply andb_true_iff. split.
    + destruct v; [exfalso; apply H; reflexivity | reflexivity].
    + apply Z.ltb_lt. destruct (JS.trim v); [exfalso; apply H; reflexivity | cbn; lia].
Qed.

(** Once the correlation middleware has put [rid] in place, the response
    carries it and every later layer sees it. *)
Lemma handle_after_requestId w m t0 t1 c1 :
  RequestId.requestId (arrival w m t0) = (c1, Next) ->
  Correlated rid c1 ->
  resHeaders (responseOf (Server.handle cfg w m t0 t1)) !! "x-request-id" = Some (HStr rid) /\
  Forall (fun v => layer v = "requestId" \/ RequestId.getRequestId (seen v) = Some rid)
         (traceOf (Server.handle cfg w m t0 t1)).
Proof.
  intros Hrun HC. unfold Server.handle, dispatch. fold (arrival w m t0).
  change (Server.app cfg)
    with (Server.layer "requestId" Everywhere RequestId.requestId :: tl (Server.app cfg)).
  cbn [pass]. unfold invoke. cbn [matches mount Server.layer handler enter name].
  rewrite Hrun.
  pose proof (pass_inv _ _ _ _ app_stays None c1 HC) as Hinv.
  destruct (pass (tl (Server.app cfg)) None c1) as [[c2 o] tr].
  assert (Hseen : forall tr' : Trace,
            Forall (fun v => RequestId.getRequestId (seen v) = Some rid) tr' ->
            Forall (fun v => layer v = "requestId" \/
                             RequestId.getRequestId (seen v) = Some rid)
                   ({| layer := "requestId"; seen := req (arrival w m t0); handed := Next |}
                    :: tr')).
  { intros tr' H. constructor; [left; reflexivity |].
    eapply Forall_impl; [exact H |]. intros v Hv. right. exact Hv. }
  destruct o as [| e]; destruct Hinv as [[_ Hh] Htr];
    cbn [worldOf responseOf traceOf fst snd]; rewrite finish_res; cbn [set_now res].
  - split; [exact Hh | apply Hseen, Htr].
  - split; [rewrite finalhandler_header by discriminate; exact Hh | apply Hseen, Htr].
Qed.

End Correlation.

(** C2.  For every request there is one identifier [rid] such that
    - [rid] is the inbound [x-request-id] header, verbatim, when that header
      is present and not blank after trimming, and the value the UUID
      generator returns next otherwise;
    - the response carries [rid] in its [x-request-id] header;
    - every layer that runs after the correlation middleware finds [rid]
      with [getRequestId];
    - the not-found handler and the error handler put what [getRequestId]
      gives them into the [requestId] field of their body: the payload of
      the error handler always holds it, and that payload is the body
      whenever the status is one that Node agrees to write (100..999). *)
Theorem correlation_id_propagates (cfg : Config.AppConfig) (w : Http.World)
    (m : Http.Incoming) (t0 t1 : Z) :
  exists rid,
    (forall v, Http.get_header "x-request-id" (Http.headers m) = Some v ->
               JS.trim v <> "" -> rid = v) /\
    (Http.get_header "x-request-id" (Http.headers m) = None \/
     (exists v, Http.get_header "x-request-id" (Http.headers m) = Some v /\ JS.trim v = "") ->
     rid = Http.uuidOracle w (Http.uuidsDrawn w)) /\
    Http.resHeaders (Spec.responseOf (Server.handle cfg w m t0 t1)) !! "x-request-id"
      = Some (Http.HStr rid) /\
    Forall (fun v => Express.layer v = "requestId" \/
                     RequestId.getRequestId (Express.seen v) = Some rid)
           (Spec.traceOf (Server.handle cfg w m t0 t1)) /\
    (forall c, exists fields,
        Http.resBody (Http.res (fst (Server.notFound c))) = Some (Http.Json (JS.JObj fields)) /\
        JS.get_field "requestId" fields =
          option_map JS.JStr (RequestId.getRequestId (Http.req c))) /\
    (forall e c,
        JS.get_field "requestId"
          (Server.errorPayload cfg e (RequestId.getRequestId (Http.req c))) =
          option_map JS.JStr (RequestId.getRequestId (Http.req c)) /\
        (Http.validStatus (JS.int_or (Http.status e) 500) = true ->
         Http.resBody (Http.res (fst (Server.errorHandler cfg e c))) =
           Some (Http.Json
                   (JS.JObj (Server.errorPayload cfg e
                               (RequestId.getRequestId (Http.req c))))))).
Proof.
  set (incoming := Http.get_header "x-request-id" (Http.headers m)).
  set (fresh := Http.uuidOracle w (Http.uuidsDrawn w)).
  set (rid := match incoming with
              | Some v => if JS.nonempty v && (0 <? Z.of_nat (String.length (JS.trim v)))
                          then v else fresh
              | None => fresh
              end).
  assert (Hrun : exists c1,
            RequestId.requestId (Spec.arrival w m t0) = (c1, Http.Next) /\
            Spec.Correlated rid c1).
  { unfold RequestId.requestId, Http.header.
    change (JS.toLowerCase RequestId.requestIdHeader) with "x-request-id".
    cbn [Spec.arrival Http.req Http.newRequest Http.message]. fold incoming.
    subst rid. destruct incoming as [v |];
      [destruct (JS.nonempty v && (0 <? Z.of_nat (String.length (JS.trim v)))) |];
      (eexists; split; [reflexivity |]; split; [reflexivity |]);
      cbn; apply lookup_insert_eq. }
  destruct Hrun as (c1 & Hrun & HC).
  exists rid. split; [| split; [| split; [| split; [| split]]]].
  - intros v Hv Hnb. subst rid. rewrite Hv.
    rewrite (proj2 (present_nonblank v) Hnb). reflexivity.
  - intros [Hn | (v & Hv & Hb)]; subst rid; [rewrite Hn; reflexivity |].
    rewrite Hv.
    destruct (JS.nonempty v && (0 <? Z.of_nat (String.length (JS.trim v)))) eqn:E;
      [| reflexivity].
    apply present_nonblank in E. contradiction.
  - apply (handle_after_requestId cfg rid w m t0 t1 _ Hrun HC).
  - apply (handle_after_requestId cfg rid w m t0 t1 _ Hrun HC).
  - intros c. eexists. unfold Server.notFound. cbn [fst Http.set_res Http.res].
    rewrite sendJson_body. split; [reflexivity |].
    destruct (RequestId.getRequestId (Http.req c)); reflexivity.
  - intros e c. split.
    + unfold Server.errorPayload.
      destruct (Config.isProduction cfg), (RequestId.getRequestId (Http.req c)),
        (Http.stack e); reflexivity.
    + intros Hv. rewrite (errorHandler_answers cfg e c Hv). cbn [fst Http.set_res Http.res].
      apply sendJson_body.
Qed.

(** ** The rate limiter *)

Section Limiter.

Import Http Spec.

Lemma le_of_Z a b : JS.le (JS.of_Z a) (JS.of_Z b) = (a <=? b).
Proof. unfold JS.le, JS.of_Z. cbn [Z.of_N]. rewrite Z.pow_0_r, !Z.mul_1_r. reflexivity. Qed.

Lemma sub_succ n : JS.sub (JS.of_Z n) (JS.of_Z (n + 1)) = JS.of_Z (-1).
Proof.
  unfold JS.sub, JS.of_Z. cbn [Z.of_N N.add]. rewrite Z.pow_0_r, !Z.mul_1_r.
  replace (n - (n + 1)) with (-1) by lia. vm_compute. reflexivity.
Qed.

Lemma secondsUntil_bounds t reset :
  t < reset -> reset <= t + 60000 ->
  0 < RateLimiter.secondsUntil t reset <= 60.
Proof.
  intros H1 H2. unfold RateLimiter.secondsUntil. split.
  - apply Z.div_str_pos. lia.
  - apply Z.lt_succ_r. apply Z.div_lt_upper_bound; lia.
Qed.

Lemma store_with_store cls s w : store cls (with_store cls s w) = s.
Proof. destruct cls; reflexivity. Qed.

(** The limiter of a positive ceiling is the fixed-window limiter. *)
Lemma makeLimiter_positive cls n :
  1 <= n ->
  Server.makeLimiter cls (JS.of_Z n) =
  RateLimiter.rateLimit cls
    {| RateLimiter.windowMs := 60 * 1000; RateLimiter.limit := JS.of_Z n;
       RateLimiter.standardHeaders := true; RateLimiter.legacyHeaders := false |}.
Proof.
  intros Hn. unfold Server.makeLimiter. rewrite le_of_Z.
  destruct (n <=? 0) eqn:E; [apply Z.leb_le in E; lia | reflexivity].
Qed.

(** A request that finds no running window starts one, and is admitted. *)
Lemma knock_starts cls n w m t :
  1 <= n -> noWindow cls w m t ->
  exists w' r,
    knock (Server.makeLimiter cls (JS.of_Z n)) w m t = (w', r, Next) /\
    store cls w' !! ip m = Some {| hits := 1; resetTime := t + 60000 |}.
Proof.
  intros Hn Hw. unfold knock. rewrite (makeLimiter_positive cls n Hn).
  unfold RateLimiter.rateLimit, RateLimiter.admitRequest.
  cbn [req newRequest message world now RateLimiter.windowMs RateLimiter.limit
       RateLimiter.standardHeaders].
  unfold noWindow in Hw. change (60 * 1000) with 60000.
  destruct (store cls w !! ip m) as [win |];
    [apply Z.leb_le in Hw; rewrite Hw |];
    (eexists _, _; split; [reflexivity |]);
    cbn [set_res set_world world]; rewrite store_with_store; apply lookup_insert_eq.
Qed.

(** A request within the running window counts, and is admitted as long
    as the count is within the ceiling. *)
Lemma knock_counts cls n w m t k reset :
  1 <= n ->
  store cls w !! ip m = Some {| hits := k; resetTime := reset |} ->
  t < reset ->
  exists w' r d,
    knock (Server.makeLimiter cls (JS.of_Z n)) w m t = (w', r, d) /\
    store cls w' !! ip m = Some {| hits := k + 1; resetTime := reset |} /\
    (k + 1 <= n -> d = Next) /\
    (k = n ->
     d = Done /\ statusCode r = 429 /\
     resHeaders r !! "ratelimit-limit" = Some (HNum (JS.of_Z n)) /\
     resHeaders r !! "ratelimit-remaining" = Some (HNum (JS.of_Z 0)) /\
     resHeaders r !! "ratelimit-reset" =
       Some (HNum (JS.of_Z (RateLimiter.secondsUntil t reset)))).
Proof.
  intros Hn Hw Ht. unfold knock. rewrite (makeLimiter_positive cls n Hn).
  unfold RateLimiter.rateLimit, RateLimiter.admitRequest.
  cbn [req newRequest message world now RateLimiter.windowMs RateLimiter.limit
       RateLimiter.standardHeaders].
  rewrite Hw. cbn [resetTime hits].
  destruct (reset <=? t) eqn:E; [apply Z.leb_le in E; lia |].
  rewrite le_of_Z.
  destruct (k + 1 <=? n) eqn:Hle.
  - eexists _, _, _. split; [reflexivity |].
    cbn [set_res set_world world]. rewrite store_with_store.
    split; [apply lookup_insert_eq |]. split; [reflexivity |].
    intros ->. apply Z.leb_le in Hle. lia.
  - eexists _, _, _. split; [reflexivity |].
    cbn [set_res set_world world res]. rewrite store_with_store.
    split; [apply lookup_insert_eq |].
    split; [intros H; apply Z.leb_gt in Hle; lia |].
    intros ->. split; [reflexivity |]. split; [reflexivity |].
    unfold RateLimiter.standard. cbn [RateLimiter.limit hits resetTime].
    rewrite sub_succ.
    repeat split; cbn [endWith setStatus resHeaders];
      repeat (rewrite setHeader_other by (vm_compute; discriminate));
      cbn [setHeader resHeaders]; apply lookup_insert_eq.
Qed.

(** Requests within a running window that has counted [k] so far. *)
Lemma knocks_counts cls n m reset ts : forall k w,
  1 <= n ->
  store cls w !! ip m = Some {| hits := k; resetTime := reset |} ->
  Forall (fun t => reset - 60000 <= t < reset) ts ->
  store cls (fst (knocks (Server.makeLimiter cls (JS.of_Z n)) w m ts)) !! ip m =
    Some {| hits := k + Z.of_nat (length ts); resetTime := reset |} /\
  forall i r d,
    snd (knocks (Server.makeLimiter cls (JS.of_Z n)) w m ts) !! i = Some (r, d) ->
    (k + Z.of_nat i + 1 <= n -> d = Next) /\
    (k + Z.of_nat i = n -> d = Done /\ Spec.rejection n r).
Proof.
  induction ts as [| t ts IH]; intros k w Hn Hw Hts.
  - cbn [knocks fst snd length]. split; [rewrite Z.add_0_r; exact Hw |].
    intros i r d H. destruct i; discriminate H.
  - inversion Hts as [| ? ? Ht Hts']; subst. cbn [knocks].
    destruct (knock_counts cls n w m t k reset Hn Hw (proj2 Ht))
      as (w1 & r1 & d1 & Hk & Hw1 & Hadm & Hrej).
    rewrite Hk. specialize (IH (k + 1) w1 Hn Hw1 Hts').
    destruct (knocks (Server.makeLimiter cls (JS.of_Z n)) w1 m ts) as [w2 out].
    cbn [fst snd] in *. destruct IH as [IH1 IH2]. split.
    + rewrite IH1. f_equal. f_equal. cbn [length]. lia.
    + intros i r d H. destruct i as [| i].
      * cbn in H. inversion H; subst r d. cbn [Z.of_nat]. rewrite Z.add_0_r. split.
        -- exact Hadm.
        -- intros E. destruct (Hrej E) as (D1 & D2 & D3 & D4 & D5).
           split; [exact D1 |]. split; [exact D2 |]. split; [exact D3 |]. split; [exact D4 |].
           exists (RateLimiter.secondsUntil t reset). split; [| exact D5].
           apply secondsUntil_bounds; lia.
      * cbn in H. specialize (IH2 i r d H).
        replace (k + Z.of_nat (S i) + 1) with (k + 1 + Z.of_nat i + 1) by lia.
        replace (k + Z.of_nat (S i)) with (k + 1 + Z.of_nat i) by lia. exact IH2.
Qed.

End Limiter.

(** C3.  For a ceiling of [n >= 1] requests per minute and a client that
    has no running window at [t0]: of the requests the client makes at [t0]
    and at later times within the 60 seconds that follow, the first [n] are
    admitted and the one after them is rejected with status 429 and the
    limit, remaining and reset headers; and a request at or after
    [t0 + 60000] is admitted again. *)
Theorem fixed_window_ceiling (cls : Http.Class) (n : Z) (w : Http.World)
    (m : Http.Incoming) (t0 : Z) (ts : list Z) :
  1 <= n ->
  Spec.noWindow cls w m t0 ->
  Forall (fun t => t0 <= t < t0 + 60000) ts ->
  (forall i r d,
     snd (Spec.knocks (Server.makeLimiter cls (JS.of_Z n)) w m (t0 :: ts)) !! i = Some (r, d) ->
     (Z.of_nat i < n -> d = Http.Next) /\
     (Z.of_nat i = n -> d = Http.Done /\ Spec.rejection n r)) /\
  (forall t', t0 + 60000 <= t' ->
     exists w' r,
       Spec.knock (Server.makeLimiter cls (JS.of_Z n))
         (fst (Spec.knocks (Server.makeLimiter cls (JS.of_Z n)) w m (t0 :: ts))) m t'
       = (w', r, Http.Next)).
Proof.
  intros Hn Hw Hts. cbn [Spec.knocks].
  destruct (knock_starts cls n w m t0 Hn Hw) as (w1 & r1 & Hk & Hw1). rewrite Hk.
  assert (Hts' : Forall (fun t => t0 + 60000 - 60000 <= t < t0 + 60000) ts).
  { eapply Forall_impl; [exact Hts |]. intros t Ht. cbn beta in *. lia. }
  pose proof (knocks_counts cls n m (t0 + 60000) ts 1 w1 Hn Hw1 Hts') as [Hst Hout].
  destruct (Spec.knocks (Server.makeLimiter cls (JS.of_Z n)) w1 m ts) as [w2 out].
  cbn [fst snd] in *. split.
  - intros i r d H. destruct i as [| i].
    + cbn in H. inversion H; subst r d. split; [reflexivity | cbn; lia].
    + cbn in H. destruct (Hout i r d H) as [Ha Hr]. split.
      * intros Hi. apply Ha. lia.
      * intros Hi. apply Hr. lia.
  - intros t' Ht'.
    destruct (knock_starts cls n w2 m t' Hn) as (w3 & r3 & Hk3 & _).
    { unfold Spec.noWindow. rewrite Hst. cbn. exact Ht'. }
    exists w3, r3. exact Hk3.
Qed.

(** C3 at work: a ceiling of two, three requests within the minute. *)
Lemma fixed_window_ceiling_witness :
  List.map snd
    (snd (Spec.knocks (Server.makeLimiter Http.Global (JS.of_Z 2)) Spec.sampleWorld
            (Spec.get "/version") [1000; 1500; 2000]))
    = [Http.Next; Http.Next; Http.Done] /\
  forall r d,
    snd (Spec.knocks (Server.makeLimiter Http.Global (JS.of_Z 2)) Spec.sampleWorld
           (Spec.get "/version") [1000; 1500; 2000]) !! 2%nat = Some (r, d) ->
    d = Http.Done /\ Spec.rejection 2 r.
Proof.
  split; [vm_compute; reflexivity |].
  intros r d H.
  refine (proj2 (proj1 (fixed_window_ceiling Http.Global 2 Spec.sampleWorld
                          (Spec.get "/version") 1000 [1500; 2000] _ _ _) 2%nat r d H)
            eq_refl).
  - lia.
  - exact I.
  - repeat constructor; lia.
Defined.

(** C4.  The limiter of a ceiling of 0 is the middleware that calls
    [next()] and nothing else: it hands every request on, whatever their
    number, and the context, the two stores of windows included, is what it
    was. *)
Theorem zero_ceiling_disables_limiting (cls : Http.Class) :
  (forall c, Server.makeLimiter cls (JS.of_Z 0) c = (c, Http.Next)) /\
  (forall w m ts,
     Spec.knocks (Server.makeLimiter cls (JS.of_Z 0)) w m ts =
     (w, List.map (fun _ => (Http.newResponse, Http.Next)) ts)).
Proof.
  assert (H : forall c, Server.makeLimiter cls (JS.of_Z 0) c = (c, Http.Next))
    by (intros c; reflexivity).
  split; [exact H |].
  intros w m ts. induction ts as [| t ts IH]; cbn [Spec.knocks List.map]; [reflexivity |].
  unfold Spec.knock. rewrite H. cbn [Http.world Http.res]. rewrite IH. reflexivity.
Qed.

(** ** The error handler *)

Section Errors.

Import Http Express Spec.

Variable cfg : Config.AppConfig.

Lemma entry_plain : Forall (fun l => exists h, handler l = Plain h) (Server.entry cfg).
Proof.
  unfold Server.entry.
  destruct (Config.isDevelopment cfg), (Config.enableHelmet (Config.security cfg));
    repeat constructor; eexists; reflexivity.
Qed.

(** The stack is plain layers, then the error handler. *)
Lemma app_plain_then_handler :
  exists plains,
    Forall (fun l => exists h, handler l = Plain h) plains /\
    Server.app cfg =
    plains ++ [{| name := "errorHandler"; mount := Everywhere;
                  handler := OnError (Server.errorHandler cfg) |}].
Proof.
  exists (Server.entry cfg ++
          (Server.limiters cfg ++ Server.timer ++ Server.routes cfg ++
           [Server.layer "notFound" Everywhere Server.notFound])).
  split.
  - apply Forall_app. split; [apply entry_plain | apply plain_layers].
  - unfold Server.app. rewrite <- List.app_assoc. f_equal.
Qed.

(** Whatever part of the stack is still ahead when an error is raised,
    the error goes to the error handler and to nothing else. *)
Lemma error_goes_to_handler front back e c :
  Server.app cfg = front ++ back -> back <> [] ->
  pass back (Some e) c =
  pass [{| name := "errorHandler"; mount := Everywhere;
           handler := OnError (Server.errorHandler cfg) |}] (Some e) c.
Proof.
  intros Happ Hback. destruct app_plain_then_handler as (plains & Hplain & Heq).
  rewrite Heq in Happ. symmetry in Happ. apply List.app_eq_app in Happ.
  destruct Happ as (mid & [[H1 H2] | [H1 H2]]).
  - (* the error handler itself is all that is ahead *)
    destruct mid as [| x mid].
    + cbn in H2. subst back. reflexivity.
    + cbn in H2. inversion H2 as [[Hx Hmid]].
      destruct mid, back; try discriminate. contradiction.
  - subst back. rewrite pass_app.
    assert (Hmid : Forall (fun l => exists h, handler l = Plain h) mid).
    { rewrite H1 in Hplain. apply Forall_app in Hplain. exact (proj2 Hplain). }
    rewrite (pass_error_skips _ _ _ Hmid).
    destruct (pass _ (Some e) c) as [[c2 o2] tr2]. reflexivity.
Qed.

(** The handler answers when Node agrees to write the status. *)
Lemma error_reaches_handler front back e c :
  Server.app cfg = front ++ back -> back <> [] ->
  validStatus (JS.int_or (status e) 500) = true ->
  pass back (Some e) c =
  (fst (Server.errorHandler cfg e c), Ended,
   [{| layer := "errorHandler"; seen := req c; handed := Done |}]).
Proof.
  intros Happ Hback Hv. rewrite (error_goes_to_handler front back e c Happ Hback).
  cbn [pass]. unfold invoke. cbn [matches mount handler name enter].
  rewrite (errorHandler_answers cfg e c Hv). reflexivity.
Qed.





End Errors.



(** ** Redaction *)

Section Redaction.

Import Http Express Spec.

Variable cfg : Config.AppConfig.

Lemma pass_apart stack :
  Forall respects stack ->
  forall err c1 c2, apart c1 c2 ->
    snd (fst (pass stack err c1)) = snd (fst (pass stack err c2)) /\
    apart (fst (fst (pass stack err c1))) (fst (fst (pass stack err c2))) /\
    List.map layer (snd (pass stack err c1)) = List.map layer (snd (pass stack err c2)).
Proof.
  induction 1 as [| l rest Hl _ IH]; intros err c1 c2 HR; cbn [pass].
  - cbn. split; [reflexivity | split; [exact HR | reflexivity]].
  - specialize (Hl err c1 c2 HR).
    destruct (invoke l err (req c1)) as [h1 |], (invoke l err (req c2)) as [h2 |];
      try contradiction; [| apply IH, HR].
    destruct Hl as [Hd HR'].
    destruct (h1 (enter (mount l) c1)) as [c1' d1], (h2 (enter (mount l) c2)) as [c2' d2].
    cbn [fst snd] in Hd, HR'. subst d2. cbn zeta.
    destruct d1 as [| e |].
    + specialize (IH None c1' c2' HR').
      destruct (pass rest None c1') as [[? ?] ?], (pass rest None c2') as [[? ?] ?].
      cbn [fst snd] in *. destruct IH as (I1 & I2 & I3).
      split; [exact I1 |]. split; [exact I2 |]. cbn. f_equal. exact I3.
    + specialize (IH (Some e) c1' c2' HR').
      destruct (pass rest (Some e) c1') as [[? ?] ?], (pass rest (Some e) c2') as [[? ?] ?].
      cbn [fst snd] in *. destruct IH as (I1 & I2 & I3).
      split; [exact I1 |]. split; [exact I2 |]. cbn. f_equal. exact I3.
    + cbn. split; [reflexivity |]. split; [exact HR' | reflexivity].
Qed.

Lemma matches_apart mt c1 c2 :
  apart c1 c2 -> matches mt (req c1) = matches mt (req c2).
Proof.
  intros [[(Hm & Hp & _) _] _]. unfold matches. rewrite Hm, Hp. reflexivity.
Qed.

Lemma enter_apart mt c1 c2 : apart c1 c2 -> apart (enter mt c1) (enter mt c2).
Proof.
  intros HR. destruct mt; try exact HR.
  destruct HR as ((H1 & H2 & H3 & H4 & H5) & H6).
  split; [| exact H6]. split; [exact H1 |]. split; [exact H2 |]. split; [exact H3 |].
  split; [reflexivity | exact H5].
Qed.

Lemma respects_blind n mt h : blind h -> respects (Server.layer n mt h).
Proof.
  intros Hh err c1 c2 HR. unfold invoke. cbn [Server.layer mount handler].
  rewrite <- (matches_apart mt c1 c2 HR).
  destruct (matches mt (req c1)); [| exact I].
  destruct err; [exact I |]. apply Hh, enter_apart, HR.
Qed.

(** Reading a header other than the secret one. *)
Lemma get_header_sameBut secret k (hs1 hs2 : list (string * string)) :
  sameBut secret hs1 hs2 -> k <> secret -> get_header k hs1 = get_header k hs2.
Proof.
  intros H Hk. induction H as [| [k1 v1] [k2 v2] l1 l2 [Hf Hv] _ IH]; [reflexivity |].
  cbn in Hf, Hv. subst k2. cbn [get_header].
  destruct (String.eqb k k1) eqn:E; [| exact IH].
  apply String.eqb_eq in E. subst k1. rewrite (Hv Hk). reflexivity.
Qed.

(** Redacting the secret field makes two such lists of fields equal. *)
Lemma redact_sameBut secret (l1 l2 : list (string * JS.json)) :
  sameBut secret l1 l2 ->
  Pino.redact_path [secret] mark (JS.JObj l1) = Pino.redact_path [secret] mark (JS.JObj l2).
Proof.
  intros H. cbn [Pino.redact_path]. f_equal.
  induction H as [| [k1 v1] [k2 v2] l1 l2 [Hf Hv] _ IH]; [reflexivity |].
  cbn in Hf, Hv. subst k2. cbn [List.map fst snd]. rewrite IH. f_equal.
  destruct (String.eqb secret k1) eqn:E; [reflexivity |].
  apply String.eqb_neq in E. rewrite Hv; [reflexivity |]. intros E'. apply E. symmetry. exact E'.
Qed.

Lemma sameBut_headers secret (hs1 hs2 : list (string * string)) :
  sameBut secret hs1 hs2 ->
  sameBut secret (List.map (fun kv => (fst kv, JS.JStr (snd kv))) hs1)
                 (List.map (fun kv => (fst kv, JS.JStr (snd kv))) hs2).
Proof.
  intros H. induction H as [| a b l1 l2 [Hf Hv] _ IH]; [constructor |].
  cbn [List.map]. constructor; [| exact IH]. cbn. split; [exact Hf |].
  intros Hn. rewrite (Hv Hn). reflexivity.
Qed.

Lemma redact_bodiesApart j1 j2 :
  bodiesApart j1 j2 ->
  Pino.redact_path ["password"] mark j1 = Pino.redact_path ["password"] mark j2.
Proof.
  intros [-> | (fs1 & fs2 & -> & -> & H)]; [reflexivity | apply redact_sameBut, H].
Qed.

Lemma censored_unfold r :
  censored r =
  JS.JObj
    (JS.field_opt "id" (option_map JS.JStr (id r)) ++
     [("method", JS.JStr (method (message r)));
      ("url", JS.JStr (path (message r)));
      ("headers",
       Pino.redact_path ["authorization"] mark
         (JS.JObj (List.map (fun kv => (fst kv, JS.JStr (snd kv))) (headers (message r)))))] ++
     JS.field_opt "body" (option_map (Pino.redact_path ["password"] mark) (body r))).
Proof.
  unfold censored, Pino.serializeReq. destruct (id r), (body r) as [j |]; reflexivity.
Qed.

Lemma censored_apart r1 r2 : requestsApart r1 r2 -> censored r1 = censored r2.
Proof.
  intros ((Hme & Hpa & Hip & Hhs & _) & Hx & Hy & Hz & Hb).
  rewrite !censored_unfold, Hme, Hpa, Hy.
  rewrite (redact_sameBut "authorization" _ _ (sameBut_headers _ _ _ Hhs)).
  destruct (body r1) as [j1 |], (body r2) as [j2 |]; try contradiction; [| reflexivity].
  cbn [option_map]. rewrite (redact_bodiesApart j1 j2 Hb). reflexivity.
Qed.

(** A record whose first field is the request: the first two paths act
    on that field, and what becomes of the rest does not depend on it. *)
Lemma redacted_record tail :
  exists tail', forall X,
    Pino.redacted (Pino.redact (Server.logger cfg)) (JS.JObj (("req", X) :: tail)) =
    JS.JObj (("req", Pino.redact_path ["body"; "password"] mark
                       (Pino.redact_path ["headers"; "authorization"] mark X)) :: tail').
Proof.
  eexists. intros X. unfold Pino.redacted. cbn [Server.logger Pino.redact Pino.paths Pino.censor].
  cbn [fold_left].
  change (JS.split "." "req.headers.authorization") with ["req"; "headers"; "authorization"].
  change (JS.split "." "req.body.password") with ["req"; "body"; "password"].
  change (JS.split "." "res.body") with ["res"; "body"].
  reflexivity.
Qed.

Lemma started_apart c1 c2 :
  apart c1 c2 ->
  Pino.redacted (Pino.redact (Server.logger cfg)) (Pino.started (Server.httpLogger cfg) c1) =
  Pino.redacted (Pino.redact (Server.logger cfg)) (Pino.started (Server.httpLogger cfg) c2).
Proof.
  intros (Hreq & _). unfold Pino.started. cbn [app Pino.customProps Server.httpLogger].
  destruct (redacted_record
              [("env", JS.JStr (Config.env cfg)); ("service", JS.JStr (Config.serviceName cfg));
               ("msg", JS.JStr "request started")]) as [tail' H].
  rewrite !H. f_equal. f_equal. f_equal. apply (censored_apart _ _ Hreq).
Qed.

Lemma completed_apart start c1 c2 :
  apart c1 c2 ->
  Pino.redacted (Pino.redact (Server.logger cfg))
    (Pino.completed (Server.httpLogger cfg) start c1) =
  Pino.redacted (Pino.redact (Server.logger cfg))
    (Pino.completed (Server.httpLogger cfg) start c2).
Proof.
  intros (Hreq & Hres & _ & Hnow). unfold Pino.completed.
  cbn [app Pino.customProps Server.httpLogger]. rewrite Hres, Hnow.
  destruct (redacted_record
              [("res", Pino.serializeRes (res c2));
               ("responseTime", JS.JNum (JS.of_Z (now c2 - start)));
               ("env", JS.JStr (Config.env cfg)); ("service", JS.JStr (Config.serviceName cfg));
               ("msg", JS.JStr "request completed")]) as [tail' H].
  rewrite !H. f_equal. f_equal. f_equal. apply (censored_apart _ _ Hreq).
Qed.

Lemma apart_req (f : Request -> Request) c1 c2 :
  (forall r1 r2, requestsApart r1 r2 -> requestsApart (f r1) (f r2)) ->
  apart c1 c2 -> apart (set_req f c1) (set_req f c2).
Proof. intros Hf (H1 & H2). split; [apply Hf, H1 | exact H2]. Qed.

Lemma apart_res (f : Response -> Response) c1 c2 :
  apart c1 c2 -> apart (set_res f c1) (set_res f c2).
Proof.
  intros (H1 & H2 & H3). split; [exact H1 |]. split; [cbn; rewrite H2; reflexivity | exact H3].
Qed.

Lemma apart_world (f : World -> World) c1 c2 :
  apart c1 c2 -> apart (set_world f c1) (set_world f c2).
Proof.
  intros (H1 & H2 & H3 & H4). split; [exact H1 |]. split; [exact H2 |].
  split; [cbn; rewrite H3; reflexivity | exact H4].
Qed.

Lemma apart_requestId v r1 r2 :
  requestsApart r1 r2 -> requestsApart (with_requestId v r1) (with_requestId v r2).
Proof. intros (H1 & H2 & H3 & H4 & H5). repeat split; try assumption; apply H1. Qed.

Lemma apart_id v r1 r2 :
  requestsApart r1 r2 -> requestsApart (with_id v r1) (with_id v r2).
Proof. intros (H1 & H2 & H3 & H4 & H5). repeat split; try assumption; apply H1. Qed.

Lemma randomUUID_apart c1 c2 :
  apart c1 c2 ->
  fst (randomUUID c1) = fst (randomUUID c2) /\ apart (snd (randomUUID c1)) (snd (randomUUID c2)).
Proof.
  intros HR. pose proof HR as (H1 & H2 & H3 & H4). unfold randomUUID. cbn [fst snd].
  rewrite H3. split; [reflexivity |].
  pose proof (apart_world (with_uuidsDrawn (S (uuidsDrawn (world c2)))) c1 c2 HR) as H.
  exact H.
Qed.

Lemma requestId_blind : blind RequestId.requestId.
Proof.
  intros c1 c2 HR. unfold RequestId.requestId, header.
  pose proof HR as ((Hmsg & _) & _). destruct Hmsg as (_ & _ & _ & Hhs & _).
  change (JS.toLowerCase RequestId.requestIdHeader) with "x-request-id".
  rewrite (get_header_sameBut "authorization" "x-request-id" _ _ Hhs) by discriminate.
  destruct (randomUUID_apart c1 c2 HR) as [Hu HRu].
  assert (Hgo : forall (v : string) (d1 d2 : Ctx), apart d1 d2 ->
            apart (set_res (setHeader RequestId.requestIdHeader (HStr v))
                     (set_req (with_requestId (Some v)) d1))
                  (set_res (setHeader RequestId.requestIdHeader (HStr v))
                     (set_req (with_requestId (Some v)) d2))).
  { intros v d1 d2 Hd. apply apart_res, apart_req; [apply apart_requestId | exact Hd]. }
  destruct (get_header "x-request-id" (headers (message (req c2)))) as [s |];
    [destruct (JS.nonempty s && (0 <? Z.of_nat (String.length (JS.trim s)))) |].
  - cbn [fst snd]. split; [reflexivity | apply Hgo, HR].
  - destruct (randomUUID c1) as [u1 d1], (randomUUID c2) as [u2 d2].
    cbn [fst snd] in *. subst u2. split; [reflexivity | apply Hgo, HRu].
  - destruct (randomUUID c1) as [u1 d1], (randomUUID c2) as [u2 d2].
    cbn [fst snd] in *. subst u2. split; [reflexivity | apply Hgo, HRu].
Qed.

Lemma pinoHttp_blind : blind (Pino.pinoHttp (Server.httpLogger cfg)).
Proof.
  intros c1 c2 HR. unfold Pino.pinoHttp.
  cbn [Pino.genReqId Server.httpLogger Pino.autoLogging Pino.logger].
  pose proof HR as ((_ & Hrid & _) & _ & _ & Hnow).
  unfold RequestId.getRequestId. rewrite Hrid, Hnow.
  assert (Hgo : forall (v : string) (d1 d2 : Ctx), apart d1 d2 ->
            apart
              (set_res (onFinish (LogCompleted (now c2)))
                 (set_world (Pino.write (Server.logger cfg)
                               (Pino.started (Server.httpLogger cfg)
                                  (set_req (with_id (Some v)) d1)))
                    (set_req (with_id (Some v)) d1)))
              (set_res (onFinish (LogCompleted (now c2)))
                 (set_world (Pino.write (Server.logger cfg)
                               (Pino.started (Server.httpLogger cfg)
                                  (set_req (with_id (Some v)) d2)))
                    (set_req (with_id (Some v)) d2)))).
  { intros v d1 d2 Hd.
    pose proof (apart_req (with_id (Some v)) d1 d2 (apart_id (Some v)) Hd) as Hd'.
    apply apart_res. unfold Pino.write. rewrite (started_apart _ _ Hd').
    destruct Hd' as (H1 & H2 & H3 & H4). split; [exact H1 |]. split; [exact H2 |].
    split; [cbn [set_world world]; rewrite H3; reflexivity | exact H4]. }
  destruct (requestId (req c2)) as [rid |].
  - cbn [fst snd]. split; [reflexivity | apply Hgo, HR].
  - destruct (randomUUID_apart c1 c2 HR) as [Hu HRu].
    destruct (randomUUID c1) as [u1 d1], (randomUUID c2) as [u2 d2].
    cbn [fst snd] in *. subst u2. split; [reflexivity | apply Hgo, HRu].
Qed.

Lemma json_blind : blind Vendor.json.
Proof.
  intros c1 c2 HR. unfold Vendor.json.
  pose proof HR as (((_ & _ & _ & _ & Hp) & H2 & H3 & H4 & _) & H6).
  assert (Hgo : forall j1 j2, bodiesApart j1 j2 ->
            apart (set_req (with_body (Some j1)) c1) (set_req (with_body (Some j2)) c2)).
  { intros j1 j2 Hj. destruct HR as ((G1 & G2 & G3 & G4 & _) & G6).
    split; [| exact G6]. split; [exact G1 |]. split; [exact G2 |]. split; [exact G3 |].
    split; [exact G4 | exact Hj]. }
  destruct Hp as [Hp | (j1 & j2 & Hp1 & Hp2 & Hj)].
  - rewrite Hp. destruct (payload (message (req c2))); cbn [fst snd].
    + split; [reflexivity | apply Hgo; left; reflexivity].
    + split; [reflexivity | apply Hgo; left; reflexivity].
    + split; [reflexivity | exact HR].
  - rewrite Hp1, Hp2. cbn [fst snd]. split; [reflexivity | apply Hgo, Hj].
Qed.

Lemma cors_blind o : blind (Vendor.cors o).
Proof.
  intros c1 c2 HR. unfold Vendor.cors, header.
  pose proof HR as (((Hme & _ & _ & Hhs & _) & _) & Hres & _).
  change (JS.toLowerCase "origin") with "origin".
  rewrite (get_header_sameBut "authorization" "origin" _ _ Hhs) by discriminate.
  rewrite Hme, Hres.
  destruct (String.eqb (method (message (req c2))) "OPTIONS"); cbn [fst snd];
    (split; [reflexivity | apply apart_res, HR]).
Qed.

Lemma helmet_blind o : blind (Vendor.helmet o).
Proof.
  intros c1 c2 HR. unfold Vendor.helmet. pose proof HR as (_ & Hres & _).
  rewrite Hres. cbn [fst snd]. split; [reflexivity | apply apart_res, HR].
Qed.

Lemma makeLimiter_blind cls perMin : blind (Server.makeLimiter cls perMin).
Proof.
  intros c1 c2 HR. unfold Server.makeLimiter.
  destruct (JS.le perMin (JS.of_Z 0)); [split; [reflexivity | exact HR] |].
  unfold RateLimiter.rateLimit.
  pose proof HR as (((_ & _ & Hip & _) & _) & _ & Hw & Hnow).
  rewrite Hip, Hw, Hnow.
  destruct (RateLimiter.admitRequest _ _ _ _) as [[st win] v].
  cbn [RateLimiter.standardHeaders].
  destruct v; cbn [fst snd]; (split; [reflexivity |]);
    repeat first [apply apart_res | apply apart_world]; exact HR.
Qed.

(** A handler that reads nothing of the request but its path and its
    correlation id. *)
Lemma reply_blind (f : string -> option string -> World -> Z -> Response -> Response) :
  blind (fun c => (set_res (f (path (message (req c))) (RequestId.getRequestId (req c))
                              (world c) (now c)) c, Done)).
Proof.
  intros c1 c2 HR. cbn [fst snd]. split; [reflexivity |].
  pose proof HR as (((_ & Hpa & _) & Hrid & _) & _ & Hw & Hnow).
  unfold RequestId.getRequestId. rewrite Hpa, Hrid, Hw, Hnow. apply apart_res, HR.
Qed.

Lemma respects_onError n (h : Thrown -> Middleware) :
  (forall e, blind (h e)) ->
  respects {| name := n; mount := Everywhere; handler := OnError h |}.
Proof.
  intros Hh err c1 c2 HR. unfold invoke. cbn [mount handler matches enter].
  destruct err as [e |]; [apply Hh, HR | exact I].
Qed.

(** Every layer of the stack keeps two requests that differ in their
    secrets only as they are. *)
Lemma app_respects : Forall respects (Server.app cfg).
Proof.
  unfold Server.app, Server.entry, Server.limiters, Server.timer, Server.routes,
    Server.terminal.
  apply Forall_app; split.
  { apply Forall_app; split.
    { constructor; [apply respects_blind, requestId_blind |].
      constructor; [apply respects_blind, pinoHttp_blind | constructor]. }
    apply Forall_app; split.
    { destruct (Config.isDevelopment cfg); [| constructor].
      constructor; [| constructor]. apply respects_blind.
      intros c1 c2 HR. split; [reflexivity | exact HR]. }
    apply Forall_app; split.
    { constructor; [apply respects_blind, json_blind |].
      constructor; [apply respects_blind, cors_blind | constructor]. }
    destruct (Config.enableHelmet (Config.security cfg)); [| constructor].
    constructor; [apply respects_blind, helmet_blind | constructor]. }
  cbn [app].
  constructor; [apply respects_blind, makeLimiter_blind |].
  constructor; [apply respects_blind, makeLimiter_blind |].
  constructor.
  { apply respects_blind. intros c1 c2 HR. unfold Server.metricsTimer. cbn [fst snd].
    split; [reflexivity |]. pose proof HR as (_ & _ & _ & Hnow). rewrite Hnow.
    apply apart_res, HR. }
  constructor.
  { apply respects_blind. unfold Server.version.
    exact (reply_blind (fun _ _ _ _ => sendJson _)). }
  constructor.
  { apply respects_blind. unfold Server.healthz.
    exact (reply_blind (fun _ _ w t =>
             sendJson (JS.JObj [("ok", JS.JBool true); ("uptime", JS.JNum (uptime w));
                                ("ts", JS.JNum (JS.of_Z t))]))). }
  constructor.
  { apply respects_blind.
    exact (reply_blind (fun _ _ _ _ => sendJson (JS.JObj [("ok", JS.JBool true)]))). }
  constructor.
  { apply respects_blind. unfold Server.metrics.
    exact (reply_blind (fun _ _ w _ r =>
             endWith (Some (Exposition (httpRequestDurationMs w)))
               (setHeader "Content-Type" (HVendor "prom-client") r))). }
  constructor.
  { apply respects_blind. unfold Server.root.
    exact (reply_blind (fun _ _ _ t r =>
             sendJson (JS.JObj
               [("name", JS.JStr "Nexus Sentinel API");
                ("message", JS.JStr "Service is running");
                ("health", JS.JStr "/healthz");
                ("ready", JS.JStr "/readyz");
                ("version", JS.JStr "/version");
                ("ts", JS.JNum (JS.of_Z t))]) (setStatus 200 r))). }
  constructor.
  { apply respects_blind. unfold Server.notFound.
    exact (reply_blind (fun p rid _ _ r =>
             sendJson (JS.JObj
               ([("error", JS.JStr "Not Found"); ("path", JS.JStr p)] ++
                JS.field_opt "requestId" (option_map JS.JStr rid))) (setStatus 404 r))). }
  constructor; [| constructor].
  apply respects_onError. intros e. unfold Server.errorHandler.
  destruct (validStatus (JS.int_or (status e) 500)).
  - exact (reply_blind (fun _ rid _ _ r =>
             sendJson (JS.JObj (Server.errorPayload cfg e rid))
               (setStatus (JS.int_or (status e) 500) r))).
  - intros c1 c2 HR. cbn [fst snd]. split; [reflexivity | apply apart_res, HR].
Qed.

Lemma fire_apart l c1 c2 :
  apart c1 c2 -> apart (Server.fire cfg l c1) (Server.fire cfg l c2).
Proof.
  intros HR. destruct l as [start | start]; cbn [Server.fire].
  - unfold Pino.write. rewrite (completed_apart start c1 c2 HR).
    pose proof HR as (H1 & H2 & H3 & H4). split; [exact H1 |]. split; [exact H2 |].
    split; [cbn [set_world world]; rewrite H3; reflexivity | exact H4].
  - unfold Server.observeDuration.
    pose proof HR as (((Hme & Hpa & _) & _ & _ & Hro & _) & Hres & Hw & Hnow).
    rewrite Hme, Hpa, Hro, Hres, Hnow.
    destruct HR as (H1 & H2 & H3 & H4). split; [exact H1 |]. split; [exact H2 |].
    split; [cbn [set_world world]; rewrite H3; reflexivity | exact H4].
Qed.

Lemma finish_apart c1 c2 :
  apart c1 c2 -> apart (Server.finish cfg c1) (Server.finish cfg c2).
Proof.
  intros HR. unfold Server.finish.
  replace (listeners (res c1)) with (listeners (res c2))
    by (destruct HR as (_ & Hres & _); rewrite Hres; reflexivity).
  generalize (listeners (res c2)). intros ls. revert c1 c2 HR.
  induction ls as [| l ls IH]; intros c1 c2 HR; cbn [fold_left]; [exact HR |].
  apply IH, fire_apart, HR.
Qed.

Lemma finalhandler_apart err c1 c2 :
  apart c1 c2 -> apart (finalhandler err c1) (finalhandler err c2).
Proof. intros HR. unfold finalhandler. apply apart_res, HR. Qed.

(** C9.  In every tier, two requests that differ in nothing but the value
    of the [authorization] header and the value of the [password] field of
    the body leave the same log records, and get the same response: what
    the log holds of a request was fixed before either value got there. *)
Theorem secrets_do_not_reach_the_log w m1 m2 t0 t1 :
  secretsApart m1 m2 ->
  logs (worldOf (Server.handle cfg w m1 t0 t1)) =
  logs (worldOf (Server.handle cfg w m2 t0 t1)) /\
  responseOf (Server.handle cfg w m1 t0 t1) = responseOf (Server.handle cfg w m2 t0 t1).
Proof.
  intros Hm.
  assert (H0 : apart {| req := newRequest m1; res := newResponse; world := w; now := t0 |}
                     {| req := newRequest m2; res := newResponse; world := w; now := t0 |}).
  { split; [| repeat split]. split; [exact Hm |]. repeat split. }
  unfold Server.handle, dispatch.
  pose proof (pass_apart _ app_respects None _ _ H0) as (Ho & HR & _).
  destruct (pass (Server.app cfg) None
              {| req := newRequest m1; res := newResponse; world := w; now := t0 |})
    as [[c1 o1] tr1].
  destruct (pass (Server.app cfg) None
              {| req := newRequest m2; res := newResponse; world := w; now := t0 |})
    as [[c2 o2] tr2].
  cbn [fst snd] in Ho, HR. subst o2.
  assert (Hfin : forall d1 d2, apart d1 d2 ->
            world (Server.finish cfg (set_now t1 d1)) = world (Server.finish cfg (set_now t1 d2)) /\
            res (Server.finish cfg (set_now t1 d1)) = res (Server.finish cfg (set_now t1 d2))).
  { intros d1 d2 Hd.
    assert (Hd' : apart (set_now t1 d1) (set_now t1 d2)).
    { destruct Hd as (G1 & G2 & G3 & G4). repeat split; try assumption; apply G1. }
    pose proof (finish_apart _ _ Hd') as (_ & G2 & G3 & _). split; assumption. }
  destruct o1 as [| e]; cbn [worldOf responseOf fst snd].
  - destruct (Hfin c1 c2 HR) as [G1 G2]. rewrite G1, G2. split; reflexivity.
  - destruct (Hfin _ _ (finalhandler_apart e c1 c2 HR)) as [G1 G2].
    rewrite G1, G2. split; reflexivity.
Qed.

End Redaction.

(** C9 at work: one login, with two different sets of credentials. *)
Lemma secrets_do_not_reach_the_log_witness :
  Spec.secretsApart (Spec.login "Bearer alpha" "hunter2") (Spec.login "Bearer omega" "s3cret") /\
  Http.logs (Spec.worldOf (Server.handle Spec.development Spec.sampleWorld
                             (Spec.login "Bearer alpha" "hunter2") 1000 1004)) =
  Http.logs (Spec.worldOf (Server.handle Spec.development Spec.sampleWorld
                             (Spec.login "Bearer omega" "s3cret") 1000 1004)).
Proof.
  assert (H : Spec.secretsApart (Spec.login "Bearer alpha" "hunter2")
                                (Spec.login "Bearer omega" "s3cret")).
  { repeat split.
    - repeat constructor; cbn; intros H; try reflexivity; exfalso; apply H; reflexivity.
    - right. eexists _, _. split; [reflexivity |]. split; [reflexivity |]. right.
      eexists _, _. split; [reflexivity |]. split; [reflexivity |].
      repeat constructor; cbn; intros H; try reflexivity; exfalso; apply H; reflexivity. }
  split; [exact H |].
  exact (proj1 (secrets_do_not_reach_the_log Spec.development Spec.sampleWorld _ _ 1000 1004 H)).
Defined.

(** ** Shutdown *)

Section Shutdown.

Import Lifecycle Spec.

(** The first timer to fire, once another timer is added at the end. *)
Lemma earliest_snoc ts tm :
  option_map due (earliest (ts ++ [tm])) =
  Some match option_map due (earliest ts) with
       | Some d => Z.min d (due tm)
       | None => due tm
       end.
Proof.
  induction ts as [| t ts IH]; [reflexivity |].
  cbn [app earliest]. destruct (earliest (ts ++ [tm])) as [a |]; [| discriminate IH].
  cbn [option_map] in IH. injection IH as IH.
  destruct (earliest ts) as [b |]; cbn [option_map] in *.
  - destruct (due a <? due t) eqn:E1, (due b <? due t) eqn:E2; cbn [option_map];
      f_equal; try apply Z.ltb_lt in E1; try apply Z.ltb_lt in E2;
      try apply Z.ltb_ge in E1; try apply Z.ltb_ge in E2; lia.
  - destruct (due a <? due t) eqn:E1; cbn [option_map]; f_equal;
      try apply Z.ltb_lt in E1; try apply Z.ltb_ge in E1; lia.
Qed.


(** The [close] event makes the first listener end the process. *)
Lemma emitClose_exits p l ls :
  exited p = None -> closeListeners p = l :: ls ->
  exited (emitClose p) = Some (if withError l then 1 else 0, clock p).
Proof.
  intros He Hl. unfold emitClose. rewrite Hl. cbn [runListeners exited]. rewrite He.
  assert (Hdone : forall q, exited q <> None -> runListeners ls q = q).
  { intros q Hq. destruct ls; [reflexivity |]. cbn [runListeners].
    destruct (exited q); [reflexivity | contradiction]. }
  unfold onClose. destruct (withError l); rewrite Hdone by discriminate; reflexivity.
Qed.

(** The [close] event, when the callback that is first in line was
    registered on a listening server: lines 181, 186 and 187. *)
Lemma emitClose_clean p l ls :
  exited p = None -> closeListeners p = l :: ls -> withError l = false ->
  exists q,
    journal q = journal p /\ clock q = clock p /\
    emitClose p = exit 0 (log Info "Server closed cleanly" None q).
Proof.
  intros He Hl Hw. unfold emitClose. rewrite Hl. cbn [runListeners exited]. rewrite He.
  unfold onClose. rewrite Hw.
  assert (Hdone : forall q, exited q <> None -> runListeners ls q = q).
  { intros q Hq. destruct ls; [reflexivity |]. cbn [runListeners].
    destruct (exited q); [reflexivity | contradiction]. }
  rewrite Hdone by discriminate.
  eexists. split; [| split; [| reflexivity]]; reflexivity.
Qed.

(** A server that is shutting down and has its callback: when the last
    connection is gone the process ends cleanly, and until then nothing
    happens. *)
Lemma drained_cases p :
  exited p = None -> listening p = false -> firstInLine p ->
  (connections p = 0%nat /\ exited (emitCloseIfDrained p) = Some (0, clock p)) \/
  (connections p <> 0%nat /\ emitCloseIfDrained p = p).
Proof.
  intros He Hl (l & ls & Hc & Hw). unfold emitCloseIfDrained. rewrite Hl. cbn [orb].
  destruct (Nat.eqb (connections p) 0) eqn:Hz; cbn [negb].
  - left. split; [apply Nat.eqb_eq, Hz |].
    rewrite (emitClose_exits p l ls He Hc), Hw. reflexivity.
  - right. split; [apply Nat.eqb_neq, Hz | reflexivity].
Qed.

(** What a call of [shutdown] leaves of the process. *)
Lemma shutdown_fields sig p :
  let q := shutdown sig p in
  exited q = exited p /\ clock q = clock p /\ listening q = false /\
  sockets q = filter busy (sockets p) /\
  closeListeners q =
    closeListeners p ++
    [{| captured := nextTimerId p; withError := negb (listening p) |}] /\
  timers q = timers p ++ [{| timerId := nextTimerId p; due := clock p + 30000 |}] /\
  journal q =
    journal p ++ [{| severity := Warn; text := "Shutdown initiated"; detail := Some sig |}].
Proof. repeat split. Qed.
































End Shutdown.




(** * The pipeline as a whole *)

(** ** Who answers *)

Section Answer.

Import Http Express Spec Terms.

Variable cfg : Config.AppConfig.

(** A request that a stack answers was answered by one of its layers, the
    last one in the trace; no layer before it ended the response. *)
Lemma pass_ended_by stack : forall err c c' tr,
  pass stack err c = (c', Ended, tr) ->
  exists tr0 l e c0 h,
    In l stack /\ invoke l e (req c0) = Some h /\
    h (enter (mount l) c0) = (c', Done) /\
    tr = tr0 ++ [{| layer := name l; seen := req (enter (mount l) c0); handed := Done |}] /\
    Forall (fun v => handed v <> Done) tr0.
Proof.
  induction stack as [| l rest IH]; intros err c c' tr; cbn [pass]; [discriminate |].
  destruct (invoke l err (req c)) as [h |] eqn:Hi.
  - destruct (h (enter (mount l) c)) as [c1 d] eqn:Hh. cbn zeta.
    destruct d as [| e1 |].
    + destruct (pass rest None c1) as [[c2 o] tr2] eqn:Hp. intros H. inversion H; subst.
      destruct (IH _ _ _ _ Hp) as (tr0 & l' & e & c0 & h' & H1 & H2 & H3 & H4 & H5).
      exists ({| layer := name l; seen := req (enter (mount l) c); handed := Next |} :: tr0),
        l', e, c0, h'.
      split; [right; exact H1 |]. split; [exact H2 |]. split; [exact H3 |].
      split; [rewrite H4; reflexivity |]. constructor; [discriminate | exact H5].
    + destruct (pass rest (Some e1) c1) as [[c2 o] tr2] eqn:Hp. intros H. inversion H; subst.
      destruct (IH _ _ _ _ Hp) as (tr0 & l' & e & c0 & h' & H1 & H2 & H3 & H4 & H5).
      exists ({| layer := name l; seen := req (enter (mount l) c); handed := NextErr e1 |} :: tr0),
        l', e, c0, h'.
      split; [right; exact H1 |]. split; [exact H2 |]. split; [exact H3 |].
      split; [rewrite H4; reflexivity |]. constructor; [discriminate | exact H5].
    + intros H. inversion H; subst.
      exists [], l, err, c, h.
      split; [left; reflexivity |]. split; [exact Hi |]. split; [exact Hh |].
      split; [reflexivity | constructor].
  - intros H. destruct (IH _ _ _ _ H) as (tr0 & l' & e & c0 & h' & H1 & H2 & H3 & H4 & H5).
    exists tr0, l', e, c0, h'. split; [right; exact H1 |]. tauto.
Qed.

(** The handler of a layer registered with a plain middleware. *)
Lemma invoke_layer n mt h0 e r h :
  invoke (Server.layer n mt h0) e r = Some h -> e = None /\ h = h0 /\ matches mt r = true.
Proof.
  unfold invoke. cbn [Server.layer mount handler].
  destruct (matches mt r); [| discriminate]. destruct e; [discriminate |].
  intros H. inversion H. repeat split.
Qed.

Lemma json_goes_on c : snd (Vendor.json c) <> Done.
Proof. unfold Vendor.json. destruct (payload (message (req c))); discriminate. Qed.

Lemma sendJson_finished j r : finished (sendJson j r) = true.
Proof. unfold sendJson. destruct (resHeaders r !! "content-type"); reflexivity. Qed.

Lemma cors_answer o c c' : Vendor.cors o c = (c', Done) -> finished (res c') = true.
Proof.
  unfold Vendor.cors. destruct (String.eqb (method (message (req c))) "OPTIONS");
    intros H; inversion H; reflexivity.
Qed.

Lemma makeLimiter_answer cls perMin c c' :
  Server.makeLimiter cls perMin c = (c', Done) -> finished (res c') = true.
Proof.
  unfold Server.makeLimiter. destruct (JS.le perMin (JS.of_Z 0)); [discriminate |].
  unfold RateLimiter.rateLimit.
  destruct (RateLimiter.admitRequest _ _ _ _) as [[st win] v].
  destruct v; intros H; inversion H. reflexivity.
Qed.

(** The layers of the stack, whatever the configuration. *)
Lemma app_layers l :
  In l (Server.app cfg) ->
  In l [ Server.layer "requestId" Everywhere RequestId.requestId;
         Server.layer "pinoHttp" Everywhere (Pino.pinoHttp (Server.httpLogger cfg));
         Server.layer "morgan" Everywhere Vendor.morgan;
         Server.layer "express.json" Everywhere Vendor.json;
         Server.layer "cors" Everywhere (Vendor.cors (Server.corsOptions cfg));
         Server.layer "helmet" Everywhere (Vendor.helmet (Server.helmetOptions cfg)) ] \/
  In l (Server.limiters cfg ++ Server.timer ++ Server.routes cfg ++ Server.terminal cfg).
Proof.
  unfold Server.app. intros H. apply in_app_or in H. destruct H as [H | H]; [left | right; exact H].
  unfold Server.entry in H.
  destruct (Config.isDevelopment cfg), (Config.enableHelmet (Config.security cfg));
    cbn in H; cbn; tauto.
Qed.

(** The layer that answered a request. *)
Lemma handle_answer w m t0 t1 :
  exists c1 tr0 l e c0 h,
    In l (Server.app cfg) /\ invoke l e (req c0) = Some h /\
    h (enter (mount l) c0) = (c1, Done) /\
    traceOf (Server.handle cfg w m t0 t1) =
      tr0 ++ [{| layer := name l; seen := req (enter (mount l) c0); handed := Done |}] /\
    Forall (fun v => handed v <> Done) tr0.
Proof.
  destruct (pass (Server.app cfg) None (arrival w m t0)) as [[c1 o] tr] eqn:Hp.
  destruct (app_run cfg _ _ _ _ _ _ _ (arrival_Fresh w m t0) Hp) as [Ho _]. subst o.
  rewrite (handle_Ended cfg _ _ _ t1 _ _ Hp). cbn [traceOf snd].
  destruct (pass_ended_by _ _ _ _ _ Hp) as (tr0 & l & e & c0 & h & H).
  exists c1, tr0, l, e, c0, h. exact H.
Qed.

(** X1.  Every request is answered by a layer of the application itself:
    the stack never hands a request to the default handler of Express.  The
    answering layer is the last of the trace, it is the CORS middleware, a
    limiter, a route, the not-found handler or the error handler, and the
    response it leaves is ended. *)
Theorem every_request_is_answered w m t0 t1 :
  finished (responseOf (Server.handle cfg w m t0 t1)) = true /\
  exists tr0 v,
    traceOf (Server.handle cfg w m t0 t1) = tr0 ++ [v] /\
    handed v = Done /\
    Forall (fun u => handed u <> Done) tr0 /\
    In (layer v) answerers.
Proof.
  destruct (pass (Server.app cfg) None (arrival w m t0)) as [[c1 o] tr] eqn:Hp.
  destruct (app_run cfg _ _ _ _ _ _ _ (arrival_Fresh w m t0) Hp) as [Ho _]. subst o.
  rewrite (handle_Ended cfg _ _ _ t1 _ _ Hp). cbn [worldOf responseOf traceOf fst snd].
  rewrite finish_res. cbn [set_now res].
  destruct (pass_ended_by _ _ _ _ _ Hp) as (tr0 & l & e & c0 & h & Hin & Hi & Hh & Htr & Hnd).
  assert (Hfin : finished (res c1) = true /\ In (name l) answerers).
  { apply app_layers in Hin. destruct Hin as [Hin | Hin].
    - cbn in Hin.
      repeat (destruct Hin as [Hin | Hin];
              [subst l; apply invoke_layer in Hi; destruct Hi as (_ & -> & _) |]);
        [..| destruct Hin]; cbn [mount Server.layer enter name] in *.
      + pose proof (requestId_next c0) as Hn. rewrite Hh in Hn. discriminate Hn.
      + pose proof (pinoHttp_next cfg c0) as Hn. rewrite Hh in Hn. discriminate Hn.
      + discriminate Hh.
      + pose proof (json_goes_on c0) as Hn. rewrite Hh in Hn. exfalso. apply Hn. reflexivity.
      + split; [eapply cors_answer; exact Hh | cbn; tauto].
      + discriminate Hh.
    - cbn in Hin.
      destruct Hin as [Hin | [Hin | Hin]];
        [subst l; apply invoke_layer in Hi; destruct Hi as (_ & -> & _);
         cbn [mount Server.layer enter name] in *;
         split; [eapply makeLimiter_answer; exact Hh | cbn; tauto] ..
        |].
      destruct Hin as [Hin | Hin];
        [subst l; apply invoke_layer in Hi; destruct Hi as (_ & -> & _); discriminate Hh |].
      repeat (destruct Hin as [Hin | Hin];
              [subst l; apply invoke_layer in Hi; destruct Hi as (_ & -> & _);
               cbn [mount Server.layer name] in *; inversion Hh;
               split; [cbn [set_res res]; try apply sendJson_finished; reflexivity
                      | cbn; tauto] |]).
      destruct Hin as [Hin | []]. subst l. unfold invoke in Hi. cbn in Hi.
      destruct e as [e |]; [| discriminate]. inversion Hi; subst h.
      cbn [mount enter] in Hh. unfold Server.errorHandler in Hh.
      destruct (validStatus (JS.int_or (status e) 500)); inversion Hh.
      split; [cbn [set_res res]; apply sendJson_finished | cbn; tauto]. }
  split; [exact (proj1 Hfin) |].
  eexists tr0, _. split; [exact Htr |]. split; [reflexivity |].
  split; [exact Hnd | exact (proj2 Hfin)].
Qed.

End Answer.

(** ** What is decided before the limiters *)

Section Early.

Import Http Express Spec Terms.

Variable cfg : Config.AppConfig.

Lemma app_split :
  Server.app cfg =
  beforeBody cfg ++ Server.layer "express.json" Everywhere Vendor.json :: afterBody cfg.
Proof.
  unfold Server.app, Server.entry, beforeBody, afterBody.
  destruct (Config.isDevelopment cfg), (Config.enableHelmet (Config.security cfg));
    reflexivity.
Qed.

Lemma not_visited n tr (L : list string) :
  Forall (fun v => In (layer v) L) tr -> ~ In n L -> visited n tr = false.
Proof.
  intros HL Hn. destruct (visited n tr) eqn:E; [| reflexivity].
  exfalso. apply Hn. unfold visited in E. apply existsb_exists in E.
  destruct E as (v & Hv & Hname). apply String.eqb_eq in Hname. subst n.
  rewrite List.Forall_forall in HL. apply HL, Hv.
Qed.

Lemma visited_split n tr1 tr2 : visited n (tr1 ++ tr2) = visited n tr1 || visited n tr2.
Proof. apply existsb_app. Qed.

Lemma requestId_early w m t0 c :
  early w m t0 c -> early w m t0 (fst (RequestId.requestId c)).
Proof.
  intros (HF & HS & HH & HB & HR).
  pose proof (requestId_Fresh _ _ _ c HF) as HF'.
  pose proof (requestId_next c) as Hn.
  destruct (RequestId.requestId c) as [c' d] eqn:E. cbn [snd fst] in *. subst d.
  split; [exact HF' |].
  unfold RequestId.requestId in E.
  destruct (header (req c) RequestId.requestIdHeader) as [s |];
    [destruct (JS.nonempty s && (0 <? Z.of_nat (String.length (JS.trim s)))) |];
    inversion E; subst c'; clear E;
    (split; [exact HS |]); (split; [| split; [exact HB | exact HR]]);
    intros k Hk; cbn; rewrite lookup_insert_ne by (intros E; apply Hk; symmetry; exact E);
    apply HH, Hk.
Qed.

Lemma pinoHttp_early w m t0 c :
  early w m t0 c -> early w m t0 (fst (Pino.pinoHttp (Server.httpLogger cfg) c)).
Proof.
  intros (HF & HS & HH & HB & HR).
  pose proof (pinoHttp_Fresh cfg _ _ _ c HF) as HF'.
  pose proof (pinoHttp_next cfg c) as Hn.
  destruct (Pino.pinoHttp (Server.httpLogger cfg) c) as [c' d] eqn:E.
  cbn [snd fst] in *. subst d.
  split; [exact HF' |].
  unfold Pino.pinoHttp in E. cbn [Pino.genReqId Server.httpLogger Pino.autoLogging] in E.
  destruct (RequestId.getRequestId (req c)); inversion E; subst c'; clear E;
    (split; [exact HS |]); (split; [| split; [exact HB | exact HR]]);
    intros k Hk; cbn; apply HH, Hk.
Qed.

(** Lines 32-45 hand every request on, and leave it as it came. *)
Lemma beforeBody_run w m t0 :
  exists c tr,
    pass (beforeBody cfg) None (arrival w m t0) = (c, Unanswered None, tr) /\
    early w m t0 c /\
    Forall (fun v => In (layer v) ["requestId"; "pinoHttp"; "morgan"]) tr.
Proof.
  assert (Hkeeps : Forall (keeps (fun e c => e = None /\ early w m t0 c)
                                 (fun _ => False) (fun _ => True)) (beforeBody cfg)).
  { unfold beforeBody. apply Forall_app. split.
    - constructor; [| constructor; [| constructor]]; apply keeps_use; try discriminate;
        intros c [_ Hc]; (split; [exact I |]).
      + pose proof (requestId_early _ _ _ c Hc) as H. pose proof (requestId_next c) as Hn.
        destruct (RequestId.requestId c) as [c' d]. cbn [fst snd] in *. subst d.
        split; [reflexivity | exact H].
      + pose proof (pinoHttp_early _ _ _ c Hc) as H. pose proof (pinoHttp_next cfg c) as Hn.
        destruct (Pino.pinoHttp (Server.httpLogger cfg) c) as [c' d].
        cbn [fst snd] in *. subst d. split; [reflexivity | exact H].
    - destruct (Config.isDevelopment cfg); [| constructor].
      constructor; [| constructor]. apply keeps_use; [discriminate |].
      intros c [_ Hc]. split; [exact I |]. split; [reflexivity | exact Hc]. }
  assert (H0 : early w m t0 (arrival w m t0)).
  { split; [apply arrival_Fresh |]. split; [split; reflexivity |].
    split; [intros k _; apply lookup_empty | split; reflexivity]. }
  pose proof (pass_inv _ _ _ _ Hkeeps None _ (conj eq_refl H0)) as Hinv.
  pose proof (pass_layers (beforeBody cfg) None (arrival w m t0)) as Hnames.
  destruct (pass (beforeBody cfg) None (arrival w m t0)) as [[c o] tr].
  destruct o as [| e]; [destruct Hinv as [[] _] |].
  destruct Hinv as [[-> Hc] _]. exists c, tr.
  split; [reflexivity |]. split; [exact Hc |].
  cbn [snd] in Hnames. eapply Forall_impl; [exact Hnames |].
  intros v Hv. unfold beforeBody in Hv.
  destruct (Config.isDevelopment cfg); cbn in Hv; cbn; tauto.
Qed.

(** The [finish] event of a response that only the logger listens to. *)
Lemma finish_logged w c t1 :
  Forall isLog (listeners (res c)) ->
  res (Server.finish cfg (set_now t1 c)) = res c /\
  httpRequestDurationMs (world (Server.finish cfg (set_now t1 c)))
    = httpRequestDurationMs (world c) /\
  (sameStores w c -> sameStores w (Server.finish cfg (set_now t1 c))).
Proof.
  intros Hls. unfold Server.finish. cbn [set_now res].
  destruct (fire_logs cfg (listeners (res c)) (set_now t1 c) Hls)
    as (I1 & _ & _ & I4 & I5 & I6).
  split; [exact I1 |]. split; [exact I4 |].
  intros [S1 S2]. split; [rewrite I5; exact S1 | rewrite I6; exact S2].
Qed.

Ltac names_apart :=
  cbn; intros Habs; repeat (destruct Habs as [Habs | Habs]; [discriminate Habs |]);
  destruct Habs.

(** A request with a body that is not valid JSON, step by step. *)
Lemma malformed_run w m t0 t1 msg st :
  payload m = Malformed msg st ->
  exists c tr,
    early w m t0 c /\
    Forall (fun v => In (layer v) ["requestId"; "pinoHttp"; "morgan"]) tr /\
    let e := {| status := Some 400; errMessage := Some msg; stack := Some st |} in
    let c' := Server.finish cfg (set_now t1 (fst (Server.errorHandler cfg e c))) in
    Server.handle cfg w m t0 t1 =
    (world c', res c',
     tr ++ [{| layer := "express.json"; seen := req c; handed := NextErr e |};
            {| layer := "errorHandler"; seen := req c; handed := Done |}]).
Proof.
  intros Hpay. unfold Server.handle, dispatch. fold (arrival w m t0).
  rewrite app_split, pass_app.
  destruct (beforeBody_run w m t0) as (c & tr & Hrun & Hc & Hnames). rewrite Hrun.
  exists c, tr. split; [exact Hc |]. split; [exact Hnames |].
  destruct Hc as (HF & _).
  assert (Hm : message (req c) = m) by (destruct HF as (_ & _ & _ & Hm & _); exact Hm).
  cbn [pass]. unfold invoke. cbn [matches mount Server.layer handler enter name].
  unfold Vendor.json. rewrite Hm, Hpay. cbn zeta.
  rewrite (error_reaches_handler cfg
             (beforeBody cfg ++ [Server.layer "express.json" Everywhere Vendor.json])
             (afterBody cfg) _ c);
    [| rewrite app_split, <- List.app_assoc; reflexivity | discriminate | reflexivity].
  reflexivity.
Qed.

(** X2.  A request whose body is not valid JSON is turned away by the body
    parser, which is registered before the limiters: the error handler
    answers it with status 400 and the parser's message, no limiter counts
    it, the metrics do not time it, and neither CORS nor helmet has set a
    header on the response. *)
Theorem malformed_body_bypasses_limiters w m t0 t1 msg st :
  payload m = Malformed msg st ->
  statusCode (responseOf (Server.handle cfg w m t0 t1)) = 400 /\
  (exists fields,
     resBody (responseOf (Server.handle cfg w m t0 t1)) = Some (Json (JS.JObj fields)) /\
     JS.get_field "error" fields =
       Some (JS.JStr (JS.or_else (Some msg) "Internal Server Error"))) /\
  answeredBy "errorHandler" (traceOf (Server.handle cfg w m t0 t1)) = true /\
  Forall (fun n => visited n (traceOf (Server.handle cfg w m t0 t1)) = false)
         ("cors" :: "helmet" :: limiterNames ++ "metricsTimer" :: routeNames ++ ["notFound"]) /\
  globalStore (worldOf (Server.handle cfg w m t0 t1)) = globalStore w /\
  authStore (worldOf (Server.handle cfg w m t0 t1)) = authStore w /\
  httpRequestDurationMs (worldOf (Server.handle cfg w m t0 t1)) = httpRequestDurationMs w /\
  Forall (fun k => resHeaders (responseOf (Server.handle cfg w m t0 t1)) !! k = None)
         ["access-control-allow-origin"; "access-control-allow-credentials"; "vary";
          "content-security-policy"; "strict-transport-security"; "referrer-policy";
          "x-frame-options"].
Proof.
  intros Hpay.
  destruct (malformed_run w m t0 t1 msg st Hpay) as (c & tr & Hc & Hnames & Hrun).
  cbn zeta in Hrun. rewrite Hrun. clear Hrun.
  destruct Hc as (HF & HS & HH & HB & HR).
  cbn [worldOf responseOf traceOf fst snd].
  set (e := {| status := Some 400; errMessage := Some msg; stack := Some st |}).
  assert (Hc' : fst (Server.errorHandler cfg e c) =
                set_res (fun r => sendJson (JS.JObj (Server.errorPayload cfg e
                                                       (RequestId.getRequestId (req c))))
                                    (setStatus 400 r)) c) by reflexivity.
  set (c' := fst (Server.errorHandler cfg e c)) in *.
  assert (Hls : Forall isLog (listeners (res c'))).
  { rewrite Hc'. cbn [set_res res].
    rewrite sendJson_listeners. destruct HF as (_ & _ & Hl & _). exact Hl. }
  destruct (finish_logged w c' t1 Hls) as (Hres & Hhist & Hst).
  assert (HS' : sameStores w c') by (rewrite Hc'; exact HS).
  destruct (Hst HS') as [S1 S2].
  rewrite Hres, Hhist, Hc'. cbn [set_res res world].
  rewrite sendJson_statusCode, sendJson_body.
  split; [reflexivity |]. split.
  { eexists. split; [reflexivity |].
    unfold Server.errorPayload. subst e. cbn [errMessage].
    destruct (negb (Config.isProduction cfg)), (RequestId.getRequestId (req c));
      reflexivity. }
  split.
  { unfold answeredBy. rewrite existsb_app. apply orb_true_iff. right. reflexivity. }
  split.
  { apply List.Forall_forall. intros n Hn. rewrite visited_split.
    rewrite (not_visited n tr _ Hnames).
    + cbn in Hn. repeat (destruct Hn as [Hn | Hn]; [subst n; reflexivity |]). destruct Hn.
    + cbn in Hn. repeat (destruct Hn as [Hn | Hn]; [subst n; names_apart |]). destruct Hn. }
  split; [exact S1 |]. split; [exact S2 |].
  split; [destruct HF as (Hh & _); exact Hh |].
  repeat constructor; rewrite sendJson_header by discriminate;
    cbn [setStatus resHeaders]; apply HH; discriminate.
Qed.

(** A preflight request, step by step. *)
Lemma preflight_run w m t0 t1 :
  method m = "OPTIONS" ->
  (forall msg st, payload m <> Malformed msg st) ->
  exists c tr j r3,
    early w m t0 c /\
    Forall (fun v => In (layer v) ["requestId"; "pinoHttp"; "morgan"]) tr /\
    listeners r3 = listeners (res c) /\
    resHeaders r3 !! "access-control-allow-credentials" = Some (HStr "true") /\
    Forall (fun k => resHeaders r3 !! k = None)
      ["content-security-policy"; "strict-transport-security"; "referrer-policy";
       "x-frame-options"] /\
    let c1 := set_req (with_body (Some j)) c in
    let c' := Server.finish cfg
                (set_now t1 (set_res (fun _ => endWith None (setStatus 204 r3)) c1)) in
    Server.handle cfg w m t0 t1 =
    (world c', res c',
     tr ++ [{| layer := "express.json"; seen := req c; handed := Next |};
            {| layer := "cors"; seen := req c1; handed := Done |}]).
Proof.
  intros Hmeth Hpay. unfold Server.handle, dispatch. fold (arrival w m t0).
  rewrite app_split, pass_app.
  destruct (beforeBody_run w m t0) as (c & tr & Hrun & Hc & Hnames). rewrite Hrun.
  pose proof Hc as (HF & HS & HH & HB & HR).
  assert (Hm : message (req c) = m) by (destruct HF as (_ & _ & _ & Hm & _); exact Hm).
  cbn [pass]. unfold invoke. cbn [matches mount Server.layer handler enter name].
  assert (Hjson : exists j, Vendor.json c = (set_req (with_body (Some j)) c, Next)).
  { unfold Vendor.json. rewrite Hm. destruct (payload m) as [| j | msg st] eqn:E.
    - eexists. reflexivity.
    - eexists. reflexivity.
    - exfalso. exact (Hpay msg st eq_refl). }
  destruct Hjson as (j & Hjson). rewrite Hjson. clear Hjson.
  set (c1 := set_req (with_body (Some j)) c).
  unfold afterBody. cbn [app pass]. unfold invoke.
  cbn [matches mount Server.layer handler enter name].
  assert (Hcors : exists r3,
            Vendor.cors (Server.corsOptions cfg) c1 =
              (set_res (fun _ => endWith None (setStatus 204 r3)) c1, Done) /\
            listeners r3 = listeners (res c) /\
            resHeaders r3 !! "access-control-allow-credentials" = Some (HStr "true") /\
            Forall (fun k => resHeaders r3 !! k = None)
              ["content-security-policy"; "strict-transport-security"; "referrer-policy";
               "x-frame-options"]).
  { unfold Vendor.cors. subst c1. cbn [set_req req res message with_body].
    rewrite Hm, Hmeth. cbn [String.eqb Ascii.eqb Bool.eqb].
    cbn [Server.corsOptions Vendor.credentials].
    eexists. split; [reflexivity |].
    destruct (header _ "origin") as [v |];
      [destruct (Vendor.allowed _ v) |];
      (split; [reflexivity |]); (split; [cbn; apply lookup_insert_eq |]);
      repeat constructor; cbn;
      rewrite ?lookup_insert_ne by discriminate; apply HH; discriminate. }
  destruct Hcors as (r3 & Hcors & Hl3 & Hcred & Hnone). rewrite Hcors. clear Hcors.
  exists c, tr, j, r3.
  split; [exact Hc |]. split; [exact Hnames |]. split; [exact Hl3 |].
  split; [exact Hcred |]. split; [exact Hnone |]. reflexivity.
Qed.

(** X3.  A CORS preflight (method OPTIONS, with a body the parser accepts)
    is answered by the CORS middleware with status 204 and no body.  It is
    answered before helmet, the limiters and the metrics timer: no limiter
    counts it, the histogram does not record it, and the response carries
    none of helmet's headers. *)
Theorem preflight_is_answered_by_cors w m t0 t1 :
  method m = "OPTIONS" ->
  (forall msg st, payload m <> Malformed msg st) ->
  statusCode (responseOf (Server.handle cfg w m t0 t1)) = 204 /\
  resBody (responseOf (Server.handle cfg w m t0 t1)) = None /\
  answeredBy "cors" (traceOf (Server.handle cfg w m t0 t1)) = true /\
  Forall (fun n => visited n (traceOf (Server.handle cfg w m t0 t1)) = false)
         ("helmet" :: limiterNames ++ "metricsTimer" :: routeNames ++
          ["notFound"; "errorHandler"]) /\
  globalStore (worldOf (Server.handle cfg w m t0 t1)) = globalStore w /\
  authStore (worldOf (Server.handle cfg w m t0 t1)) = authStore w /\
  httpRequestDurationMs (worldOf (Server.handle cfg w m t0 t1)) = httpRequestDurationMs w /\
  resHeaders (responseOf (Server.handle cfg w m t0 t1)) !! "access-control-allow-credentials"
    = Some (HStr "true") /\
  Forall (fun k => resHeaders (responseOf (Server.handle cfg w m t0 t1)) !! k = None)
         ["content-security-policy"; "strict-transport-security"; "referrer-policy";
          "x-frame-options"].
Proof.
  intros Hmeth Hpay.
  destruct (preflight_run w m t0 t1 Hmeth Hpay)
    as (c & tr & j & r3 & Hc & Hnames & Hl3 & Hcred & Hnone & Hrun).
  cbn zeta in Hrun. rewrite Hrun. clear Hrun.
  destruct Hc as (HF & HS & HH & HB & HR).
  cbn [worldOf responseOf traceOf fst snd].
  set (c' := set_res (fun _ => endWith None (setStatus 204 r3))
               (set_req (with_body (Some j)) c)).
  assert (Hls : Forall isLog (listeners (res c'))).
  { subst c'. cbn. rewrite Hl3. destruct HF as (_ & _ & Hl & _). exact Hl. }
  destruct (finish_logged w c' t1 Hls) as (Hres & Hhist & Hst).
  destruct (Hst HS) as [S1 S2].
  rewrite Hres, Hhist.
  split; [reflexivity |]. split; [reflexivity |]. split.
  { unfold answeredBy. rewrite existsb_app. apply orb_true_iff. right. reflexivity. }
  split.
  { apply List.Forall_forall. intros n Hn. rewrite visited_split.
    rewrite (not_visited n tr _ Hnames).
    + cbn in Hn. repeat (destruct Hn as [Hn | Hn]; [subst n; reflexivity |]). destruct Hn.
    + cbn in Hn. repeat (destruct Hn as [Hn | Hn]; [subst n; names_apart |]). destruct Hn. }
  split; [exact S1 |]. split; [exact S2 |].
  split; [destruct HF as (Hh & _); exact Hh |].
  split; [exact Hcred | exact Hnone].
Qed.

End Early.

(** ** From the timer to the routes *)

Section Routing.

Import Http Express Spec Terms.

Variable cfg : Config.AppConfig.

Ltac names_apart :=
  cbn; intros Habs; repeat (destruct Habs as [Habs | Habs]; [discriminate Habs |]);
  destruct Habs.

(** A middleware that leaves [req.route] alone, mounted with [app.use]. *)
Lemma keeps_route n mt h :
  (forall pat, mt <> Get pat) ->
  (forall c, route (req (fst (h c))) = route (req c)) ->
  keeps (fun _ c => route (req c) = None) (fun _ => True) (fun _ => True)
        (Server.layer n mt h).
Proof.
  intros Hmt Hh. apply keeps_use; [exact Hmt |]. intros c Hc. split; [exact I |].
  specialize (Hh c). destruct (h c) as [c' [| e |]]; cbn [fst] in Hh;
    [rewrite Hh; exact Hc | rewrite Hh; exact Hc | exact I].
Qed.

Lemma requestId_route c : route (req (fst (RequestId.requestId c))) = route (req c).
Proof.
  unfold RequestId.requestId.
  destruct (header (req c) RequestId.requestIdHeader) as [s |];
    [destruct (JS.nonempty s && (0 <? Z.of_nat (String.length (JS.trim s)))) |];
    reflexivity.
Qed.

Lemma pinoHttp_route c :
  route (req (fst (Pino.pinoHttp (Server.httpLogger cfg) c))) = route (req c).
Proof.
  unfold Pino.pinoHttp. cbn [Pino.genReqId Server.httpLogger Pino.autoLogging].
  destruct (RequestId.getRequestId (req c)); reflexivity.
Qed.

Lemma json_route c : route (req (fst (Vendor.json c))) = route (req c).
Proof. unfold Vendor.json. destruct (payload (message (req c))); reflexivity. Qed.

Lemma cors_route o c : route (req (fst (Vendor.cors o c))) = route (req c).
Proof.
  unfold Vendor.cors. destruct (String.eqb (method (message (req c))) "OPTIONS"); reflexivity.
Qed.

Lemma makeLimiter_route cls perMin c :
  route (req (fst (Server.makeLimiter cls perMin c))) = route (req c).
Proof.
  unfold Server.makeLimiter. destruct (JS.le perMin (JS.of_Z 0)); [reflexivity |].
  unfold RateLimiter.rateLimit.
  destruct (RateLimiter.admitRequest _ _ _ _) as [[st win] v].
  destruct v; reflexivity.
Qed.

Lemma limiters_Fresh h0 m t0 :
  Forall (keeps (fun _ => Fresh h0 m t0) (Quiet h0) (fun _ => True)) (Server.limiters cfg).
Proof.
  assert (Huse : forall n mt cls perMin, (forall pat, mt <> Get pat) ->
            keeps (fun _ => Fresh h0 m t0) (Quiet h0) (fun _ => True)
              (Server.layer n mt (Server.makeLimiter cls perMin))).
  { intros n mt cls perMin Hmt. apply keeps_use; [exact Hmt |].
    intros c Hc. split; [exact I |].
    pose proof (makeLimiter_Fresh h0 m t0 cls perMin c Hc) as H.
    destruct (Server.makeLimiter cls perMin c) as [c' [| e |]];
      [exact H | destruct H | exact (proj1 H)]. }
  unfold Server.limiters.
  constructor; [apply Huse; discriminate |].
  constructor; [apply Huse; discriminate | constructor].
Qed.

Lemma before_timer_route :
  Forall (keeps (fun _ c => route (req c) = None) (fun _ => True) (fun _ => True))
         (Server.entry cfg ++ Server.limiters cfg).
Proof.
  apply Forall_app. split.
  - unfold Server.entry.
    apply Forall_app; split; [| apply Forall_app; split; [| apply Forall_app; split]].
    + constructor; [apply keeps_route; [discriminate | apply requestId_route] |].
      constructor; [apply keeps_route; [discriminate | apply pinoHttp_route] | constructor].
    + destruct (Config.isDevelopment cfg); [| constructor].
      constructor; [apply keeps_route; [discriminate | reflexivity] | constructor].
    + constructor; [apply keeps_route; [discriminate | apply json_route] |].
      constructor; [apply keeps_route; [discriminate | apply cors_route] | constructor].
    + destruct (Config.enableHelmet (Config.security cfg)); [| constructor].
      constructor; [apply keeps_route; [discriminate | reflexivity] | constructor].
  - unfold Server.limiters.
    constructor; [apply keeps_route; [discriminate | apply makeLimiter_route] |].
    constructor; [apply keeps_route; [discriminate | apply makeLimiter_route] | constructor].
Qed.

(** Lines 32-91: a request comes out of them untouched by any route,
    answered, or with an error pending. *)
Lemma before_timer_run w m t0 :
  match pass (Server.entry cfg ++ Server.limiters cfg) None (arrival w m t0) with
  | (c2, Unanswered None, tr) =>
      Fresh (httpRequestDurationMs w) m t0 c2 /\ route (req c2) = None /\
      Forall (fun v => In (layer v) (entryNames ++ limiterNames)) tr
  | (c2, _, tr) =>
      Quiet (httpRequestDurationMs w) c2 /\
      Forall (fun v => In (layer v) (entryNames ++ limiterNames)) tr
  end.
Proof.
  assert (Hkeeps : Forall (keeps (fun e c => Fresh (httpRequestDurationMs w) m t0 c /\
                                             route (req c) = None)
                                 (fun c => Quiet (httpRequestDurationMs w) c /\ True)
                                 (fun _ => True /\ True))
                          (Server.entry cfg ++ Server.limiters cfg)).
  { pose proof before_timer_route as HR.
    assert (HF : Forall (keeps (fun _ => Fresh (httpRequestDurationMs w) m t0)
                               (Quiet (httpRequestDurationMs w)) (fun _ => True))
                        (Server.entry cfg ++ Server.limiters cfg)).
    { apply Forall_app. split; [apply entry_keeps | apply limiters_Fresh]. }
    revert HF HR. generalize (Server.entry cfg ++ Server.limiters cfg).
    induction l as [| x l IH]; intros HF HR; [constructor |].
    inversion HF; inversion HR; subst.
    constructor; [apply keeps_both; assumption | apply IH; assumption]. }
  pose proof (pass_inv _ _ _ _ Hkeeps None (arrival w m t0)
                (conj (arrival_Fresh w m t0) eq_refl)) as Hinv.
  pose proof (pass_layers (Server.entry cfg ++ Server.limiters cfg) None (arrival w m t0))
    as Hnames.
  destruct (pass (Server.entry cfg ++ Server.limiters cfg) None (arrival w m t0))
    as [[c2 o] tr].
  cbn [snd] in Hnames.
  assert (Hn : Forall (fun v => In (layer v) (entryNames ++ limiterNames)) tr).
  { eapply Forall_impl; [exact Hnames |]. intros v Hv.
    rewrite List.map_app in Hv. apply in_app_or in Hv. apply in_or_app.
    destruct Hv as [Hv | Hv]; [left; apply (entry_names cfg), Hv | right; exact Hv]. }
  destruct o as [| [e |]].
  - destruct Hinv as [[HQ _] _]. split; [exact HQ | exact Hn].
  - destruct Hinv as [[HF _] _]. split; [apply (Fresh_Quiet _ _ _ _ HF) | exact Hn].
  - destruct Hinv as [[HF HR] _]. split; [exact HF |]. split; [exact HR | exact Hn].
Qed.

(** Lines 112-155: the first route whose path matches answers, and the
    not-found handler when none does. *)
Lemma routes_run c :
  exists l h,
    In l (Server.routes cfg ++ [Server.layer "notFound" Everywhere Server.notFound]) /\
    handler l = Plain h /\
    pass (Server.routes cfg ++ Server.terminal cfg) None c =
      (fst (h (enter (mount l) c)), Ended,
       [{| layer := name l; seen := req (enter (mount l) c); handed := Done |}]) /\
    snd (h (enter (mount l) c)) = Done /\
    match mount l with
    | Get pat => matches (Get pat) (req c) = true
    | _ => Forall (fun pat => matches (Get pat) (req c) = false) routePatterns
    end.
Proof.
  unfold Server.routes, Server.terminal. cbn [app].
  rewrite !pass_route by reflexivity.
  destruct (matches (Get "/version") (req c)) eqn:E1.
  { exists (Server.layer "GET /version" (Get "/version") (Server.version cfg)), (Server.version cfg).
    split; [cbn; tauto |]. split; [reflexivity |]. split; [reflexivity |].
    split; [reflexivity | exact E1]. }
  destruct (matches (Get "/healthz") (req c)) eqn:E2.
  { exists (Server.layer "GET /healthz" (Get "/healthz") Server.healthz), Server.healthz.
    split; [cbn; tauto |]. split; [reflexivity |]. split; [reflexivity |].
    split; [reflexivity | exact E2]. }
  destruct (matches (Get "/readyz") (req c)) eqn:E3.
  { exists (Server.layer "GET /readyz" (Get "/readyz") (Server.readyz cfg)), (Server.readyz cfg).
    split; [cbn; tauto |]. split; [reflexivity |]. split; [reflexivity |].
    split; [reflexivity | exact E3]. }
  destruct (matches (Get "/metrics") (req c)) eqn:E4.
  { exists (Server.layer "GET /metrics" (Get "/metrics") Server.metrics), Server.metrics.
    split; [cbn; tauto |]. split; [reflexivity |]. split; [reflexivity |].
    split; [reflexivity | exact E4]. }
  destruct (matches (Get "/") (req c)) eqn:E5.
  { exists (Server.layer "GET /" (Get "/") Server.root), Server.root.
    split; [cbn; tauto |]. split; [reflexivity |]. split; [reflexivity |].
    split; [reflexivity | exact E5]. }
  exists (Server.layer "notFound" Everywhere Server.notFound), Server.notFound.
  split; [cbn; tauto |]. split; [reflexivity |]. split; [reflexivity |]. split; [reflexivity |].
  cbn [mount Server.layer]. repeat constructor; assumption.
Qed.

(** What a route or the not-found handler leaves behind: the listeners it
    found, the histogram it found, and the label of line 106. *)
Lemma answer_of_route l h c :
  In l (Server.routes cfg ++ [Server.layer "notFound" Everywhere Server.notFound]) ->
  handler l = Plain h ->
  route (req c) = None ->
  let c' := fst (h (enter (mount l) c)) in
  listeners (res c') = listeners (res c) /\
  world c' = world c /\
  message (req c') = message (req c) /\
  JS.or_else (route (req c')) (path (message (req c'))) = routeLabel l (message (req c)).
Proof.
  intros Hin Hh Hr. cbn zeta. cbn in Hin.
  repeat (destruct Hin as [Hin | Hin];
          [subst l; cbn in Hh; inversion Hh; subst h;
           cbn [mount Server.layer enter fst set_res set_req res req world message
                with_route route Server.version Server.healthz Server.readyz Server.metrics
                Server.root Server.notFound routeLabel negb andb];
           rewrite ?sendJson_listeners;
           (split; [reflexivity |]); (split; [reflexivity |]); (split; [reflexivity |]);
           try reflexivity |]);
    [| destruct Hin].
  rewrite Hr. reflexivity.
Qed.

(** One request through the whole stack: either the timer never saw it and
    the histogram is as it was, or a route (or the not-found handler)
    answered it and it was observed once, under the label of that route. *)
Lemma handle_timed w m t0 t1 :
  (visited "metricsTimer" (traceOf (Server.handle cfg w m t0 t1)) = false /\
   Forall (fun n => visited n (traceOf (Server.handle cfg w m t0 t1)) = false)
          (routeNames ++ ["notFound"]) /\
   httpRequestDurationMs (worldOf (Server.handle cfg w m t0 t1)) = httpRequestDurationMs w) \/
  (exists c2 tr0 l h,
     In l (Server.routes cfg ++ [Server.layer "notFound" Everywhere Server.notFound]) /\
     handler l = Plain h /\
     Fresh (httpRequestDurationMs w) m t0 c2 /\
     Forall (fun v => In (layer v) (entryNames ++ limiterNames)) tr0 /\
     let c3 := set_res (onFinish (ObserveDuration t0)) c2 in
     match mount l with
     | Get pat => matches (Get pat) (req c3) = true
     | _ => Forall (fun pat => matches (Get pat) (req c3) = false) routePatterns
     end /\
     snd (h (enter (mount l) c3)) = Done /\
     traceOf (Server.handle cfg w m t0 t1) =
       tr0 ++ [{| layer := "metricsTimer"; seen := req c2; handed := Next |};
               {| layer := name l; seen := req (enter (mount l) c3); handed := Done |}] /\
     responseOf (Server.handle cfg w m t0 t1) = res (fst (h (enter (mount l) c3))) /\
     httpRequestDurationMs (worldOf (Server.handle cfg w m t0 t1)) =
       Prom.observe (method m, routeLabel l m,
                     pretty (statusCode (res (fst (h (enter (mount l) c3))))))
                    (t1 - t0) (httpRequestDurationMs w)).
Proof.
  unfold Server.handle, dispatch. fold (arrival w m t0).
  unfold Server.app. rewrite List.app_assoc, pass_app.
  pose proof (before_timer_run w m t0) as Hrun.
  destruct (pass (Server.entry cfg ++ Server.limiters cfg) None (arrival w m t0))
    as [[c2 o] tr] eqn:Hbefore.
  assert (Hnot : forall n tail,
            In n ("metricsTimer" :: routeNames ++ ["notFound"]) ->
            Forall (fun v => In (layer v) (entryNames ++ limiterNames)) tr ->
            visited n tail = false -> visited n (tr ++ tail) = false).
  { intros n tail Hn Hnames Htail. rewrite visited_split, Htail, orb_false_r.
    apply (not_visited n tr _ Hnames).
    cbn in Hn. repeat (destruct Hn as [Hn | Hn]; [subst n; names_apart |]). destruct Hn. }
  destruct o as [| [e |]].
  - (* answered before the timer *)
    destruct Hrun as [HQ Hnames]. left. cbn [worldOf responseOf traceOf fst snd].
    destruct (finish_Quiet cfg _ (set_now t1 c2) HQ) as [_ Hh].
    split; [| split; [| exact Hh]].
    + rewrite <- (app_nil_r tr). apply Hnot; [cbn; tauto | exact Hnames | reflexivity].
    + apply List.Forall_forall. intros n Hn. rewrite <- (app_nil_r tr).
      apply Hnot; [right; exact Hn | exact Hnames | reflexivity].
  - (* an error is pending *)
    destruct Hrun as [HQ Hnames]. left.
    pose proof (parserError_valid e
                  (pending_is_parserError _ _ _ _ _ (before_timer_parserError cfg) Hbefore))
      as Hok.
    rewrite (error_reaches_handler cfg (Server.entry cfg ++ Server.limiters cfg)
               (Server.timer ++ Server.routes cfg ++ Server.terminal cfg) e c2);
      [| unfold Server.app; rewrite List.app_assoc; reflexivity
       | unfold Server.timer; discriminate
       | exact Hok].
    cbn [worldOf responseOf traceOf fst snd].
    assert (HQ' : Quiet (httpRequestDurationMs w)
                    (set_now t1 (fst (Server.errorHandler cfg e c2)))).
    { destruct HQ as [Q1 Q2]. rewrite (errorHandler_answers cfg e c2 Hok).
      split; [exact Q1 |]. cbn [fst set_now set_res res].
      rewrite sendJson_listeners. exact Q2. }
    destruct (finish_Quiet cfg _ _ HQ') as [_ Hh].
    split; [| split; [| exact Hh]].
    + apply Hnot; [cbn; tauto | exact Hnames | reflexivity].
    + apply List.Forall_forall. intros n Hn.
      apply Hnot; [right; exact Hn | exact Hnames |].
      cbn in Hn. repeat (destruct Hn as [Hn | Hn]; [subst n; reflexivity |]). destruct Hn.
  - (* the timer, then the routes *)
    destruct Hrun as (HF & HR & Hnames). right.
    cbn [Server.timer app pass]. unfold invoke.
    cbn [matches mount Server.layer handler enter name].
    unfold Server.metricsTimer.
    assert (Hnow : now c2 = t0) by (destruct HF as (_ & _ & _ & _ & H); exact H).
    rewrite Hnow.
    set (c3 := set_res (onFinish (ObserveDuration t0)) c2).
    destruct (routes_run c3) as (l & h & Hin & Hh & Hpass & Hd & Hmatch).
    rewrite Hpass. cbn [worldOf responseOf traceOf fst snd].
    exists c2, tr, l, h.
    split; [exact Hin |]. split; [exact Hh |]. split; [exact HF |].
    split; [exact Hnames |]. cbn zeta. fold c3.
    split; [exact Hmatch |]. split; [exact Hd |]. split; [reflexivity |].
    destruct (answer_of_route l h c3 Hin Hh HR) as (A1 & A2 & A3 & A4). cbn zeta in *.
    set (c' := fst (h (enter (mount l) c3))) in *.
    destruct HF as (F1 & F2 & F3 & F4 & F5).
    destruct (routed_finish cfg (httpRequestDurationMs w) t0 t1 c2 c' F3) as [Hres Hhist].
    { rewrite A1. reflexivity. }
    { rewrite A2. exact F1. }
    split; [exact Hres |]. rewrite Hhist, A4, A3. cbn [c3 set_res req]. rewrite F4.
    reflexivity.
Qed.

(** X4.  The duration histogram gains exactly one observation for every
    request that the timer middleware sees, recorded when the response is
    finished, with the duration of the request and the status that was
    sent; its route label is the pattern of the route that answered, and
    the raw path of the request when the not-found handler did.  A request
    the timer does not see leaves the histogram as it was. *)
Theorem timed_requests_are_observed_once w m t0 t1 :
  if visited "metricsTimer" (traceOf (Server.handle cfg w m t0 t1))
  then exists label,
      httpRequestDurationMs (worldOf (Server.handle cfg w m t0 t1)) =
        Prom.observe (method m, label,
                      pretty (statusCode (responseOf (Server.handle cfg w m t0 t1))))
                     (t1 - t0) (httpRequestDurationMs w) /\
      (visited "notFound" (traceOf (Server.handle cfg w m t0 t1)) = true ->
       label = path m) /\
      (forall pat, In pat routePatterns ->
                   visited ("GET " ++ pat) (traceOf (Server.handle cfg w m t0 t1)) = true ->
                   label = pat)
  else httpRequestDurationMs (worldOf (Server.handle cfg w m t0 t1)) = httpRequestDurationMs w.
Proof.
  destruct (handle_timed w m t0 t1) as [(Hv & _ & Hh) | Hrouted].
  { rewrite Hv. exact Hh. }
  destruct Hrouted as (c2 & tr0 & l & h & Hin & Hh & HF & Hnames & _ & _ & Htr & Hres & Hhist).
  cbn zeta in *. rewrite Htr, Hres, Hhist. clear Htr Hres Hhist.
  assert (Hlast : forall n, In n (routeNames ++ ["notFound"]) ->
            visited n (tr0 ++ [{| layer := "metricsTimer"; seen := req c2; handed := Next |};
                               {| layer := name l;
                                  seen := req (enter (mount l)
                                                 (set_res (onFinish (ObserveDuration t0)) c2));
                                  handed := Done |}]) = true ->
            n = name l).
  { intros n Hn Hv. rewrite visited_split in Hv.
    rewrite (not_visited n tr0 _ Hnames) in Hv.
    - cbn [orb] in Hv. unfold visited in Hv. cbn [existsb layer] in Hv.
      rewrite orb_false_r in Hv.
      apply orb_true_iff in Hv.
      destruct Hv as [Hv | Hv]; apply String.eqb_eq in Hv; [| symmetry; exact Hv].
      exfalso. subst n. cbn in Hn.
      repeat (destruct Hn as [Hn | Hn]; [discriminate Hn |]). destruct Hn.
    - cbn in Hn. repeat (destruct Hn as [Hn | Hn]; [subst n; names_apart |]). destruct Hn. }
  rewrite visited_split. replace (visited "metricsTimer" _ || _) with true
    by (symmetry; apply orb_true_iff; right; reflexivity).
  exists (routeLabel l m). split; [reflexivity |]. split.
  - intros Hv. apply Hlast in Hv; [| cbn; tauto].
    cbn in Hin. repeat (destruct Hin as [Hin | Hin]; [subst l; try discriminate Hv |]);
      [reflexivity | destruct Hin].
  - intros pat Hpat Hv. apply Hlast in Hv.
    + cbn in Hin.
      repeat (destruct Hin as [Hin | Hin];
              [subst l; cbn in Hv; cbn [routeLabel mount Server.layer];
               cbn in Hpat;
               repeat (destruct Hpat as [Hpat | Hpat];
                       [subst pat; first [reflexivity | discriminate Hv] |]);
               destruct Hpat |]).
      destruct Hin.
    + cbn in Hpat. repeat (destruct Hpat as [Hpat | Hpat]; [subst pat; cbn; tauto |]).
      destruct Hpat.
Qed.

(** The correlation middleware always hands on, with an id in place. *)
Lemma requestId_correlates w m t0 :
  exists rid c1,
    RequestId.requestId (arrival w m t0) = (c1, Next) /\ Correlated rid c1.
Proof.
  unfold RequestId.requestId.
  destruct (header (req (arrival w m t0)) RequestId.requestIdHeader) as [s |];
    [destruct (JS.nonempty s && (0 <? Z.of_nat (String.length (JS.trim s)))) |];
    (eexists _, _; split; [reflexivity |]; split; [reflexivity |]);
    cbn; apply lookup_insert_eq.
Qed.

(** X5.  A request that no route takes is answered by the not-found
    handler with status 404 and a JSON body that names the path of the
    request and the correlation id that the response header carries; and it
    is recorded in the histogram under its own path: the route label of an
    unknown path is the path as the client sent it. *)
Theorem unknown_paths_are_answered_and_labelled w m t0 t1 :
  visited "notFound" (traceOf (Server.handle cfg w m t0 t1)) = true ->
  statusCode (responseOf (Server.handle cfg w m t0 t1)) = 404 /\
  (exists fields rid,
     resBody (responseOf (Server.handle cfg w m t0 t1)) = Some (Json (JS.JObj fields)) /\
     JS.get_field "error" fields = Some (JS.JStr "Not Found") /\
     JS.get_field "path" fields = Some (JS.JStr (path m)) /\
     JS.get_field "requestId" fields = Some (JS.JStr rid) /\
     resHeaders (responseOf (Server.handle cfg w m t0 t1)) !! "x-request-id"
       = Some (HStr rid)) /\
  httpRequestDurationMs (worldOf (Server.handle cfg w m t0 t1)) =
    Prom.observe (method m, path m, "404") (t1 - t0) (httpRequestDurationMs w) /\
  Forall (fun pat => matches (Get pat) (newRequest m) = false) routePatterns.
Proof.
  intros Hvis.
  destruct (requestId_correlates w m t0) as (rid & c1 & Hrid & HC).
  destruct (handle_after_requestId cfg rid w m t0 t1 c1 Hrid HC) as [Hhdr Hseen].
  destruct (handle_timed w m t0 t1) as [(_ & Hnone & _) | Hrouted].
  { exfalso. rewrite List.Forall_forall in Hnone.
    rewrite (Hnone "notFound") in Hvis; [discriminate Hvis | cbn; tauto]. }
  destruct Hrouted as (c2 & tr0 & l & h & Hin & Hh & HF & Hnames & Hmatch & _ & Htr & Hres & Hhist).
  cbn zeta in *.
  rewrite Htr in Hvis, Hseen. rewrite Hres in Hhdr |- *. rewrite Hhist. clear Htr Hres Hhist.
  rewrite visited_split in Hvis. rewrite (not_visited "notFound" tr0 _ Hnames) in Hvis
    by names_apart.
  unfold visited in Hvis. cbn [existsb layer orb] in Hvis.
  change (String.eqb "metricsTimer" "notFound") with false in Hvis.
  cbn [orb] in Hvis. rewrite orb_false_r in Hvis. apply String.eqb_eq in Hvis.
  cbn in Hin.
  repeat (destruct Hin as [Hin | Hin]; [subst l; try discriminate Hvis |]); [| destruct Hin].
  cbn in Hh. inversion Hh; subst h. clear Hh Hvis.
  cbn [mount Server.layer enter name routeLabel] in *.
  set (c3 := set_res (onFinish (ObserveDuration t0)) c2) in *.
  assert (Hm : message (req c3) = m) by (destruct HF as (_ & _ & _ & Hm & _); exact Hm).
  assert (Hid : RequestId.getRequestId (req c3) = Some rid).
  { apply Forall_app in Hseen. destruct Hseen as [_ Hseen].
    inversion Hseen as [| ? ? _ Hlast]. inversion Hlast as [| ? ? Hnf _].
    cbn [layer seen] in Hnf. destruct Hnf as [Hnf | Hnf]; [discriminate Hnf | exact Hnf]. }
  unfold Server.notFound in *. cbn [fst set_res res] in *.
  rewrite sendJson_statusCode, sendJson_body. cbn [setStatus statusCode].
  rewrite Hid, Hm.
  split; [reflexivity |]. split.
  { exists [("error", JS.JStr "Not Found"); ("path", JS.JStr (path m));
            ("requestId", JS.JStr rid)], rid.
    split; [reflexivity |]. split; [reflexivity |]. split; [reflexivity |].
    split; [reflexivity | exact Hhdr]. }
  split; [reflexivity |].
  eapply Forall_impl; [exact Hmatch |]. intros pat Hp.
  unfold matches in *. cbn [newRequest message]. rewrite Hm in Hp. exact Hp.
Qed.

End Routing.

(** ** The endpoints behind the timer *)

Section Endpoints.

Import Http Express Spec Terms.

Variable cfg : Config.AppConfig.









End Endpoints.





(** ** What a request leaves alone *)

Section Frame.

Import Http Express Spec Terms.

Variable cfg : Config.AppConfig.

(** A property of the context that the primitive updates of the stack
    preserve. *)
Variable Inv : Ctx -> Prop.

Hypothesis Inv_res : forall f c, Inv c -> Inv (set_res f c).
Hypothesis Inv_id : forall v c, Inv c -> Inv (set_req (with_id v) c).
Hypothesis Inv_body : forall v c, Inv c -> Inv (set_req (with_body v) c).
Hypothesis Inv_route : forall v c, Inv c -> Inv (set_req (with_route v) c).
Hypothesis Inv_logs : forall l c, Inv c -> Inv (set_world (with_logs l) c).
Hypothesis Inv_histogram : forall h c, Inv c -> Inv (set_world (with_histogram h) c).
Hypothesis Inv_now : forall t c, Inv c -> Inv (set_now t c).
Hypothesis Inv_genReqId :
  forall c, Inv c -> Inv (snd (Pino.genReqId (Server.httpLogger cfg) c)).
Hypothesis Inv_global :
  forall c, Inv c ->
    Inv (fst (Server.makeLimiter Global (Config.globalPerMin (Config.rateLimit cfg)) c)).
Hypothesis Inv_auth :
  forall c, Inv c -> matches (Under ["/auth"; "/login"]) (req c) = true ->
    Inv (fst (Server.makeLimiter Auth (Config.authPerMin (Config.rateLimit cfg)) c)).

Lemma keeps_Inv n mt h :
  (forall c, Inv c -> Inv (fst (h c))) ->
  keeps (fun _ => Inv) Inv (fun _ => True) (Server.layer n mt h).
Proof.
  intros Hh err c h' HP Hi. apply invoke_layer in Hi. destruct Hi as (_ & -> & _).
  split; [exact I |]. cbn [Server.layer mount].
  assert (HE : Inv (enter mt c)) by (destruct mt; [exact HP | exact HP | apply Inv_route, HP]).
  specialize (Hh _ HE). destruct (h (enter mt c)) as [c' [| e |]]; exact Hh.
Qed.

Lemma pinoHttp_Inv c : Inv c -> Inv (fst (Pino.pinoHttp (Server.httpLogger cfg) c)).
Proof.
  intros Hc. unfold Pino.pinoHttp. pose proof (Inv_genReqId c Hc) as Hg.
  destruct (Pino.genReqId (Server.httpLogger cfg) c) as [rid c1]. cbn [snd] in Hg.
  cbn [Pino.autoLogging Server.httpLogger fst]. unfold Pino.write.
  apply Inv_res.
  match goal with
  | |- Inv (set_world ?f ?c0) =>
      change (Inv (set_world (with_logs (logs (world c0) ++
                [Pino.redacted (Pino.redact (Pino.logger (Server.httpLogger cfg)))
                   (Pino.started (Server.httpLogger cfg) c0)])) c0))
  end.
  apply Inv_logs, Inv_id, Hg.
Qed.

Lemma json_Inv c : Inv c -> Inv (fst (Vendor.json c)).
Proof.
  intros Hc. unfold Vendor.json.
  destruct (payload (message (req c))); cbn [fst]; [apply Inv_body, Hc .. | exact Hc].
Qed.

Lemma cors_Inv o c : Inv c -> Inv (fst (Vendor.cors o c)).
Proof.
  intros Hc. unfold Vendor.cors.
  destruct (String.eqb (method (message (req c))) "OPTIONS"); apply Inv_res, Hc.
Qed.

(** Everything after the correlation middleware preserves [Inv]. *)
Lemma tail_Inv : Forall (keeps (fun _ => Inv) Inv (fun _ => True)) (tl (Server.app cfg)).
Proof.
  unfold Server.app, Server.entry. cbn [app tl].
  constructor; [apply keeps_Inv, pinoHttp_Inv |].
  apply Forall_app; split.
  { apply Forall_app; split.
    { destruct (Config.isDevelopment cfg); [| constructor].
      constructor; [| constructor]. apply keeps_Inv. intros c Hc. exact Hc. }
    constructor; [apply keeps_Inv, json_Inv |].
    constructor; [apply keeps_Inv, cors_Inv |].
    destruct (Config.enableHelmet (Config.security cfg)); [| constructor].
    constructor; [| constructor]. apply keeps_Inv. intros c Hc. apply Inv_res, Hc. }
  unfold Server.limiters, Server.timer, Server.routes, Server.terminal. cbn [app].
  constructor; [apply keeps_Inv, Inv_global |].
  constructor.
  { intros err c h HP Hi. apply invoke_layer in Hi. destruct Hi as (_ & -> & Hm).
    split; [exact I |]. cbn [Server.layer mount enter].
    pose proof (Inv_auth c HP Hm) as H.
    destruct (Server.makeLimiter Auth _ c) as [c' [| e |]]; exact H. }
  do 7 (constructor; [apply keeps_Inv; intros c Hc; apply Inv_res, Hc |]).
  constructor; [| constructor].
  apply keeps_onError. intros e c Hc. split; [exact I |].
  cbn [enter]. unfold Server.errorHandler.
  destruct (validStatus (JS.int_or (status e) 500)); apply Inv_res, Hc.
Qed.

Lemma fire_Inv l c : Inv c -> Inv (Server.fire cfg l c).
Proof.
  intros Hc. destruct l as [start | start]; cbn [Server.fire].
  - unfold Pino.write.
    change (Inv (set_world (with_logs (logs (world c) ++
              [Pino.redacted (Pino.redact (Server.logger cfg))
                 (Pino.completed (Server.httpLogger cfg) start c)])) c)).
    apply Inv_logs, Hc.
  - unfold Server.observeDuration.
    match goal with
    | |- Inv (set_world (fun w => with_histogram ?h w) ?c0) =>
        change (Inv (set_world (with_histogram
                  (Prom.observe
                     (method (message (req c0)),
                      JS.or_else (route (req c0)) (path (message (req c0))),
                      pretty (statusCode (res c0)))
                     (now c0 - start) (httpRequestDurationMs (world c0)))) c0))
    end.
    apply Inv_histogram, Hc.
Qed.

Lemma finish_Inv c : Inv c -> Inv (Server.finish cfg c).
Proof.
  unfold Server.finish. generalize (listeners (res c)). intros ls. revert c.
  induction ls as [| l ls IH]; intros c Hc; cbn [fold_left]; [exact Hc |].
  apply IH, fire_Inv, Hc.
Qed.

(** A request that the correlation middleware has handed on in a context
    where [Inv] holds ends in one where it holds. *)
Lemma handle_Inv w m t0 t1 c1 :
  RequestId.requestId (arrival w m t0) = (c1, Next) ->
  Inv c1 ->
  exists c, Inv c /\
            worldOf (Server.handle cfg w m t0 t1) = world c /\
            responseOf (Server.handle cfg w m t0 t1) = res c.
Proof.
  intros Hrun HI. unfold Server.handle, dispatch. fold (arrival w m t0).
  change (Server.app cfg)
    with (Server.layer "requestId" Everywhere RequestId.requestId :: tl (Server.app cfg)).
  cbn [pass]. unfold invoke. cbn [matches mount Server.layer handler enter name].
  rewrite Hrun.
  pose proof (pass_inv _ _ _ _ tail_Inv None c1 HI) as Hinv.
  destruct (pass (tl (Server.app cfg)) None c1) as [[c2 o] tr].
  destruct o as [| e]; destruct Hinv as [Hc2 _]; cbn [worldOf responseOf traceOf fst snd].
  - eexists. split; [apply finish_Inv, Inv_now, Hc2 | split; reflexivity].
  - eexists. split; [apply finish_Inv, Inv_now | split; reflexivity].
    destruct e; apply Inv_res, Hc2.
Qed.

End Frame.

Section Stores.

Import Http Express Spec Terms.

Variable cfg : Config.AppConfig.

(** The correlation middleware, on a request as it arrives: the id, and
    whether it had to be drawn. *)
Lemma requestId_arrival w m t0 :
  exists rid c1,
    RequestId.requestId (arrival w m t0) = (c1, Next) /\
    requestId (req c1) = Some rid /\ message (req c1) = m /\
    globalStore (world c1) = globalStore w /\ authStore (world c1) = authStore w /\
    uuidsDrawn (world c1) =
      match get_header "x-request-id" (headers m) with
      | Some v => if JS.nonempty v && (0 <? Z.of_nat (String.length (JS.trim v)))
                  then uuidsDrawn w else S (uuidsDrawn w)
      | None => S (uuidsDrawn w)
      end.
Proof.
  unfold RequestId.requestId, header.
  change (JS.toLowerCase RequestId.requestIdHeader) with "x-request-id".
  cbn [arrival req newRequest message].
  destruct (get_header "x-request-id" (headers m)) as [v |];
    [destruct (JS.nonempty v && (0 <? Z.of_nat (String.length (JS.trim v)))) |];
    (eexists _, _; split; [reflexivity |]; repeat split).
Qed.

(** A limiter changes the store of its own class only. *)
Lemma makeLimiter_world cls perMin c :
  exists st, world (fst (Server.makeLimiter cls perMin c)) = with_store cls st (world c) /\
             req (fst (Server.makeLimiter cls perMin c)) = req c.
Proof.
  unfold Server.makeLimiter. destruct (JS.le perMin (JS.of_Z 0)).
  - exists (store cls (world c)). cbn [fst].
    split; [destruct cls; destruct (world c); reflexivity | reflexivity].
  - unfold RateLimiter.rateLimit.
    destruct (RateLimiter.admitRequest _ _ _ _) as [[st win] v].
    exists st. destruct v; split; reflexivity.
Qed.

(** X6.  The auth limiter is mounted under /auth and /login only: a
    request to any other path leaves the store of the auth windows exactly
    as it was, whatever the ceilings and however the request ends. *)
Theorem auth_windows_count_auth_paths_only w m t0 t1 :
  under "/auth" (path m) = false ->
  under "/login" (path m) = false ->
  authStore (worldOf (Server.handle cfg w m t0 t1)) = authStore w.
Proof.
  intros H1 H2.
  destruct (requestId_arrival w m t0) as (rid & c1 & Hrun & _ & Hm & _ & Ha & _).
  destruct (handle_Inv cfg (fun c => authStore (world c) = authStore w /\ message (req c) = m))
    with (w := w) (m := m) (t0 := t0) (t1 := t1) (c1 := c1) as (c & [Hc _] & Hw & _);
    try (intros; assumption); try exact Hrun.
  - intros c [Hc Hmc]. cbn [Pino.genReqId Server.httpLogger].
    destruct (RequestId.getRequestId (req c)); split; assumption.
  - intros c [Hc Hmc].
    destruct (makeLimiter_world Global (Config.globalPerMin (Config.rateLimit cfg)) c)
      as (st & Hst & Hreq).
    rewrite Hst, Hreq. split; [exact Hc | exact Hmc].
  - intros c [Hc Hmc] Hmatch. exfalso. cbn [matches existsb] in Hmatch.
    rewrite Hmc, H1, H2 in Hmatch. discriminate Hmatch.
  - split; [exact Ha | exact Hm].
  - rewrite Hw. exact Hc.
Qed.

(** X7.  Ceilings that are zero or negative switch rate limiting off for
    the whole pipeline, not only for the middleware: no request changes a
    store of windows. *)
Theorem nonpositive_ceilings_keep_no_windows w m t0 t1 :
  JS.le (Config.globalPerMin (Config.rateLimit cfg)) (JS.of_Z 0) = true ->
  JS.le (Config.authPerMin (Config.rateLimit cfg)) (JS.of_Z 0) = true ->
  globalStore (worldOf (Server.handle cfg w m t0 t1)) = globalStore w /\
  authStore (worldOf (Server.handle cfg w m t0 t1)) = authStore w /\
  answeredBy "globalLimiter" (traceOf (Server.handle cfg w m t0 t1)) = false /\
  answeredBy "authLimiter" (traceOf (Server.handle cfg w m t0 t1)) = false.
Proof.
  intros Hg Ha.
  assert (Hnone : forall n cls perMin,
            In n limiterNames ->
            JS.le perMin (JS.of_Z 0) = true ->
            (forall l, In l (Server.app cfg) -> name l = n ->
                       exists mt, l = Server.layer n mt (Server.makeLimiter cls perMin)) ->
            answeredBy n (traceOf (Server.handle cfg w m t0 t1)) = false).
  { intros n cls perMin Hn Hle Hl.
    destruct (handle_answer cfg w m t0 t1)
      as (c1 & tr0 & l & e & c0 & h & Hin & Hi & Hh & Htr & Hnd).
    rewrite Htr. unfold answeredBy. rewrite existsb_app. apply orb_false_iff. split.
    - apply not_true_is_false. intros Hex. apply existsb_exists in Hex.
      destruct Hex as (v & Hv & Hd). apply andb_true_iff in Hd. destruct Hd as [_ Hd].
      rewrite List.Forall_forall in Hnd. apply (Hnd v Hv).
      destruct (handed v); try discriminate Hd. reflexivity.
    - cbn [existsb layer handed isDone]. rewrite orb_false_r, andb_true_r.
      apply not_true_is_false. intros Heq. apply String.eqb_eq in Heq.
      destruct (Hl l Hin Heq) as (mt & ->).
      apply invoke_layer in Hi. destruct Hi as (_ & -> & _).
      unfold Server.makeLimiter in Hh. rewrite Hle in Hh. discriminate Hh. }
  assert (Hnames : forall l, In l (Server.app cfg) ->
            (name l = "globalLimiter" ->
             l = Server.layer "globalLimiter" Everywhere
                   (Server.makeLimiter Global (Config.globalPerMin (Config.rateLimit cfg)))) /\
            (name l = "authLimiter" ->
             l = Server.layer "authLimiter" (Under ["/auth"; "/login"])
                   (Server.makeLimiter Auth (Config.authPerMin (Config.rateLimit cfg))))).
  { intros l Hin. apply app_layers in Hin. cbn in Hin.
    destruct Hin as [Hin | Hin];
      repeat (destruct Hin as [Hin | Hin];
              [subst l; split; intros Hn; first [discriminate Hn | reflexivity] |]);
      destruct Hin. }
  destruct (requestId_arrival w m t0) as (rid & c1 & Hrun & _ & _ & S1 & S2 & _).
  destruct (handle_Inv cfg (sameStores w))
    with (w := w) (m := m) (t0 := t0) (t1 := t1) (c1 := c1) as (c & Hc & Hw & _);
    try (intros; assumption); try exact Hrun.
  - intros c Hc. cbn [Pino.genReqId Server.httpLogger].
    destruct (RequestId.getRequestId (req c)); exact Hc.
  - intros c Hc. unfold Server.makeLimiter. rewrite Hg. exact Hc.
  - intros c Hc _. unfold Server.makeLimiter. rewrite Ha. exact Hc.
  - split; assumption.
  - rewrite Hw. destruct Hc as [C1 C2].
    split; [exact C1 |]. split; [exact C2 |]. split.
    + apply (Hnone "globalLimiter" Global _ ltac:(cbn; tauto) Hg). intros l Hin Hn.
      eexists. exact (proj1 (Hnames l Hin) Hn).
    + apply (Hnone "authLimiter" Auth _ ltac:(cbn; tauto) Ha). intros l Hin Hn.
      eexists. exact (proj2 (Hnames l Hin) Hn).
Qed.

(** X8.  One request draws at most one UUID: one when it brings no usable
    [x-request-id] header, and none when it does.  The fallback of the
    logger's [genReqId] (line 38) never draws, because the correlation
    middleware has run before it. *)
Theorem a_request_draws_at_most_one_uuid w m t0 t1 :
  uuidsDrawn (worldOf (Server.handle cfg w m t0 t1)) =
    match get_header "x-request-id" (headers m) with
    | Some v => if JS.nonempty v && (0 <? Z.of_nat (String.length (JS.trim v)))
                then uuidsDrawn w else S (uuidsDrawn w)
    | None => S (uuidsDrawn w)
    end.
Proof.
  destruct (requestId_arrival w m t0) as (rid & c1 & Hrun & Hrid & _ & _ & _ & Hn).
  rewrite <- Hn.
  destruct (handle_Inv cfg (fun c => uuidsDrawn (world c) = uuidsDrawn (world c1) /\
                                     requestId (req c) = Some rid))
    with (w := w) (m := m) (t0 := t0) (t1 := t1) (c1 := c1) as (c & [Hc _] & Hw & _);
    try (intros; assumption); try exact Hrun.
  - intros c [Hc Hr]. cbn [Pino.genReqId Server.httpLogger].
    unfold RequestId.getRequestId. rewrite Hr. split; assumption.
  - intros c [Hc Hr].
    destruct (makeLimiter_world Global (Config.globalPerMin (Config.rateLimit cfg)) c)
      as (st & Hst & Hreq).
    rewrite Hst, Hreq. split; [exact Hc | exact Hr].
  - intros c [Hc Hr] _.
    destruct (makeLimiter_world Auth (Config.authPerMin (Config.rateLimit cfg)) c)
      as (st & Hst & Hreq).
    rewrite Hst, Hreq. split; [exact Hc | exact Hr].
  - split; [reflexivity | exact Hrid].
  - rewrite Hw. exact Hc.
Qed.

End Stores.

(** X2 at work: a login with a truncated body, in production. *)
Lemma malformed_body_bypasses_limiters_witness :
  Http.statusCode
    (Spec.responseOf (Server.handle Spec.strict Spec.sampleWorld Terms.garbled 1000 1002)) = 400 /\
  Http.globalStore
    (Spec.worldOf (Server.handle Spec.strict Spec.sampleWorld Terms.garbled 1000 1002))
    = Http.globalStore Spec.sampleWorld.
Proof.
  pose proof (malformed_body_bypasses_limiters Spec.strict Spec.sampleWorld Terms.garbled
                1000 1002 _ _ eq_refl) as (H1 & _ & _ & _ & H2 & _).
  split; [exact H1 | exact H2].
Defined.

(** X3 at work: a preflight in production, where the global ceiling is one
    request per minute and the client has used it. *)
Lemma preflight_is_answered_by_cors_witness :
  Http.statusCode
    (Spec.responseOf (Server.handle Spec.strict Spec.afterOne Terms.preflight 2000 2001)) = 204 /\
  Http.globalStore
    (Spec.worldOf (Server.handle Spec.strict Spec.afterOne Terms.preflight 2000 2001))
    = Http.globalStore Spec.afterOne.
Proof.
  assert (Hpay : forall msg st,
            Http.payload Terms.preflight <> Http.Malformed msg st) by discriminate.
  pose proof (preflight_is_answered_by_cors Spec.strict Spec.afterOne Terms.preflight
                2000 2001 eq_refl Hpay) as (H1 & _ & _ & _ & H2 & _).
  split; [exact H1 | exact H2].
Defined.

(** X5 at work: a path that no route serves, and the path [//], which the
    root route does not take. *)
Lemma unknown_paths_are_answered_and_labelled_witness :
  Spec.visited "notFound"
    (Spec.traceOf
       (Server.handle Spec.development Spec.sampleWorld (Spec.get "/wp-login.php") 1000 1007))
    = true /\
  Http.statusCode
    (Spec.responseOf
       (Server.handle Spec.development Spec.sampleWorld (Spec.get "/wp-login.php") 1000 1007))
    = 404 /\
  Prom.observations ("GET", "/wp-login.php", "404")
    (Http.httpRequestDurationMs
       (Spec.worldOf
          (Server.handle Spec.development Spec.sampleWorld (Spec.get "/wp-login.php")
             1000 1007))) = 1 /\
  Http.statusCode
    (Spec.responseOf (Server.handle Spec.development Spec.sampleWorld (Spec.get "//") 1000 1007))
    = 404.
Proof.
  assert (H' : Spec.visited "notFound"
                 (Spec.traceOf
                    (Server.handle Spec.development Spec.sampleWorld (Spec.get "//")
                       1000 1007)) = true)
    by (vm_compute; reflexivity).
  pose proof (proj1 (unknown_paths_are_answered_and_labelled Spec.development
                       Spec.sampleWorld (Spec.get "//") 1000 1007 H')) as H404.
  assert (H : Spec.visited "notFound"
                (Spec.traceOf
                   (Server.handle Spec.development Spec.sampleWorld
                      (Spec.get "/wp-login.php") 1000 1007)) = true)
    by (vm_compute; reflexivity).
  split; [exact H |].
  destruct (unknown_paths_are_answered_and_labelled Spec.development Spec.sampleWorld
              (Spec.get "/wp-login.php") 1000 1007 H) as (H1 & _ & H2 & _).
  split; [exact H1 |]. split; [rewrite H2; vm_compute; reflexivity | exact H404].
Defined.

(** X6 at work. *)
Lemma auth_windows_count_auth_paths_only_witness :
  Http.authStore
    (Spec.worldOf (Server.handle Spec.strict Spec.sampleWorld (Spec.get "/version") 1000 1003))
  = Http.authStore Spec.sampleWorld.
Proof.
  exact (auth_windows_count_auth_paths_only Spec.strict Spec.sampleWorld (Spec.get "/version")
           1000 1003 eq_refl eq_refl).
Defined.

(** X7 at work: the test tier, whose ceilings are 0. *)
Lemma nonpositive_ceilings_keep_no_windows_witness :
  Http.globalStore
    (Spec.worldOf (Server.handle Terms.testing Spec.sampleWorld (Spec.login "t" "p") 1000 1003))
  = Http.globalStore Spec.sampleWorld /\
  Http.authStore
    (Spec.worldOf (Server.handle Terms.testing Spec.sampleWorld (Spec.login "t" "p") 1000 1003))
  = Http.authStore Spec.sampleWorld.
Proof.
  destruct (nonpositive_ceilings_keep_no_windows Terms.testing Spec.sampleWorld
              (Spec.login "t" "p") 1000 1003 eq_refl eq_refl) as (H1 & H2 & _).
  split; [exact H1 | exact H2].
Defined.

(** * Configuration, further *)

Section Tiers.

Import JS.

(** X9.  The tier is whatever [NODE_ENV] says, and the code knows three
    values.  With any other non-empty value and nothing else set, the
    configuration is the one of the test tier except that helmet is on: no
    tier predicate holds of it, both limiters are switched off, every
    origin is allowed, and the error handler discloses stack traces. *)
Theorem unknown_tier_gets_test_defaults (p : Node.process) (e : string) :
  Node.env p !! "NODE_ENV" = Some e ->
  e <> "" -> e <> "production" -> e <> "development" -> e <> "test" ->
  Spec.unset p Spec.overrides ->
  exists cfg,
    Config.getConfig p = Normal cfg /\
    cfg = {| Config.env := e; Config.serviceName := "test-suite";
             Config.host := "0.0.0.0"; Config.port := of_Z 200;
             Config.corsOrigins := ["*"];
             Config.rateLimit := {| Config.globalPerMin := of_Z 0;
                                    Config.authPerMin := of_Z 0 |};
             Config.security := {| Config.enableHelmet := true;
                                   Config.enableCSP := false;
                                   Config.enableHSTS := false |};
             Config.logging := {| Config.level := "error"; Config.pretty := false;
                                  Config.includeBodies := false |};
             Config.build := {| Config.commit := None; Config.node := Node.version p |} |} /\
    Config.isProduction cfg = false /\
    Config.isDevelopment cfg = false /\
    Config.isTest cfg = false /\
    Terms.passThrough
      (Server.makeLimiter Http.Global (Config.globalPerMin (Config.rateLimit cfg))) /\
    Terms.passThrough
      (Server.makeLimiter Http.Auth (Config.authPerMin (Config.rateLimit cfg))) /\
    Server.allowAll cfg = true /\
    (forall err rid s, Http.stack err = Some s ->
       get_field "stack" (Server.errorPayload cfg err rid) = Some (JStr s)).
Proof.
  intros He Hne Hp Hd Ht Hun.
  unfold Spec.unset, Spec.overrides, Spec.numericVariables in Hun. cbn [app] in Hun.
  repeat match goal with
         | H : Forall _ (_ :: _) |- _ =>
             let H1 := fresh "Hk" in
             apply Forall_cons_1 in H; destruct H as [H1 H]
         end.
  assert (E1 : String.eqb e "production" = false) by (apply String.eqb_neq; exact Hp).
  assert (E2 : String.eqb e "development" = false) by (apply String.eqb_neq; exact Hd).
  assert (E3 : String.eqb e "test" = false) by (apply String.eqb_neq; exact Ht).
  assert (Henv : or_else (Some e) "development" = e).
  { destruct e; [contradiction | reflexivity]. }
  eexists. split; [reflexivity |].
  unfold Config.isProduction, Config.isDevelopment, Config.isTest, Server.allowAll,
    Server.errorPayload, Config.isProduction.
  cbn [Config.env Config.rateLimit Config.globalPerMin Config.authPerMin Config.corsOrigins].
  rewrite He, Hk, Hk0, Hk1, Hk2, Hk3, Hk4, Hk5, Hk6, Hk7, Hk8, Henv, E1, E2, E3.
  split; [reflexivity |]. split; [reflexivity |]. split; [reflexivity |].
  split; [reflexivity |]. split; [intros c; reflexivity |]. split; [intros c; reflexivity |].
  split; [reflexivity |].
  intros err rid s Hs. rewrite Hs. cbn [negb option_map].
  destruct rid; reflexivity.
Qed.

(** X10.  A numeric variable that is set but blank is not a missing one.
    For the ceilings, [??] keeps the blank value and [Number] makes it 0:
    the limiter of that class is switched off in every tier, and the
    second name of the variable is not looked at.  For the port, [||]
    drops the 0 and the port is 200. *)
Theorem blank_numeric_variables (p : Node.process) :
  exists cfg,
    Config.getConfig p = Normal cfg /\
    (forall v, Node.env p !! "RATE_LIMIT_DEFAULT_PER_MIN" = Some v -> trim v = "" ->
       Config.globalPerMin (Config.rateLimit cfg) = of_Z 0 /\
       Terms.passThrough
         (Server.makeLimiter Http.Global (Config.globalPerMin (Config.rateLimit cfg)))) /\
    (forall v, Node.env p !! "RATE_LIMIT_AUTH_PER_MIN" = Some v -> trim v = "" ->
       Config.authPerMin (Config.rateLimit cfg) = of_Z 0 /\
       Terms.passThrough
         (Server.makeLimiter Http.Auth (Config.authPerMin (Config.rateLimit cfg)))) /\
    (forall v, Node.env p !! "PORT" = Some v -> trim v = "" ->
       Config.port cfg = of_Z 200).
Proof.
  assert (Hblank : forall v, trim v = "" -> Number v = of_Z 0).
  { intros v Hv. unfold Number. rewrite Hv. reflexivity. }
  eexists. split; [reflexivity |].
  cbn [Config.port Config.rateLimit Config.globalPerMin Config.authPerMin].
  split; [| split].
  - intros v Hv Hb. rewrite Hv. cbn [nullish Config.number_or_default].
    rewrite (Hblank v Hb). split; [reflexivity | intros c; reflexivity].
  - intros v Hv Hb. rewrite Hv. cbn [nullish Config.number_or_default].
    rewrite (Hblank v Hb). split; [reflexivity | intros c; reflexivity].
  - intros v Hv Hb. rewrite Hv. cbn [Number_opt]. rewrite (Hblank v Hb). reflexivity.
Qed.

End Tiers.

(** X9 at work. *)
Lemma unknown_tier_gets_test_defaults_witness :
  exists cfg,
    Config.getConfig Terms.staging = JS.Normal cfg /\
    Config.isProduction cfg = false /\
    Config.globalPerMin (Config.rateLimit cfg) = JS.of_Z 0 /\
    Config.enableHelmet (Config.security cfg) = true.
Proof.
  destruct (unknown_tier_gets_test_defaults Terms.staging "staging") as (cfg & H1 & H2 & H3 & _).
  - reflexivity.
  - discriminate.
  - discriminate.
  - discriminate.
  - discriminate.
  - repeat constructor.
  - exists cfg. split; [exact H1 |]. split; [exact H3 |]. rewrite H2. split; reflexivity.
Defined.

(** X10 at work: production with a blank ceiling and a numeric alias. *)
Lemma blank_numeric_variables_witness :
  exists cfg,
    Config.getConfig Terms.blankCeiling = JS.Normal cfg /\
    Config.isProduction cfg = true /\
    Config.globalPerMin (Config.rateLimit cfg) = JS.of_Z 0.
Proof.
  destruct (blank_numeric_variables Terms.blankCeiling) as (cfg & H1 & H2 & _).
  exists cfg. split; [exact H1 |].
  split; [| exact (proj1 (H2 " " eq_refl eq_refl))].
  vm_compute in H1. inversion H1. reflexivity.
Defined.

(** ** The list of origins *)

Section Origins.

Import JS.

Lemma trimEnd_idem s : trimEnd (trimEnd s) = trimEnd s.
Proof.
  induction s as [| c s IH]; [reflexivity |].
  cbn [trimEnd]. destruct (trimEnd s) as [| d t] eqn:E.
  - destruct (is_white c) eqn:W; [reflexivity |]. cbn [trimEnd]. rewrite W. reflexivity.
  - cbn [trimEnd] in IH |- *. cbn [trimEnd]. rewrite IH. reflexivity.
Qed.

(** [trimEnd] keeps a first character that is not white space. *)
Lemma trimEnd_head c s :
  is_white c = false -> exists t, trimEnd (String c s) = String c t.
Proof.
  intros W. cbn [trimEnd]. destruct (trimEnd s) as [| d t].
  - rewrite W. eexists. reflexivity.
  - eexists. reflexivity.
Qed.

Lemma trimStart_head s :
  trimStart s = "" \/ exists c t, trimStart s = String c t /\ is_white c = false.
Proof.
  induction s as [| c s IH]; [left; reflexivity |].
  cbn [trimStart]. destruct (is_white c) eqn:W; [exact IH |].
  right. exists c, s. split; [reflexivity | exact W].
Qed.

(** Trimming a trimmed string changes nothing. *)
Lemma trim_idem s : trim (trim s) = trim s.
Proof.
  unfold trim. destruct (trimStart_head s) as [E | (c & t & E & W)]; rewrite E.
  - reflexivity.
  - destruct (trimEnd_head c t W) as (t' & Ht). rewrite Ht.
    cbn [trimStart]. rewrite W. rewrite <- Ht. apply trimEnd_idem.
Qed.

Lemma occurs_trimStart c s : Terms.occurs c s = false -> Terms.occurs c (trimStart s) = false.
Proof.
  induction s as [| d s IH]; [reflexivity |].
  cbn [Terms.occurs trimStart]. intros H. apply orb_false_iff in H. destruct H as [H1 H2].
  destruct (is_white d); [apply IH, H2 |]. cbn [Terms.occurs]. rewrite H1, H2. reflexivity.
Qed.

Lemma occurs_trimEnd c s : Terms.occurs c s = false -> Terms.occurs c (trimEnd s) = false.
Proof.
  induction s as [| d s IH]; [reflexivity |].
  cbn [Terms.occurs trimEnd]. intros H. apply orb_false_iff in H. destruct H as [H1 H2].
  specialize (IH H2). destruct (trimEnd s) as [| d' t].
  - destruct (is_white d); [reflexivity |]. cbn [Terms.occurs]. rewrite H1. reflexivity.
  - cbn [Terms.occurs] in IH |- *. rewrite H1. exact IH.
Qed.

(** No piece of [s.split(sep)] holds the separator. *)
Lemma split_pieces sep s : Forall (fun piece => Terms.occurs sep piece = false) (split sep s).
Proof.
  induction s as [| c s IH]; [repeat constructor |].
  cbn [split]. destruct (Ascii.eqb c sep) eqn:E.
  - constructor; [reflexivity | exact IH].
  - destruct (split sep s) as [| piece rest].
    + constructor; [| constructor]. cbn [Terms.occurs].
      rewrite Ascii.eqb_sym, E. reflexivity.
    + inversion IH as [| ? ? Hp Hr]; subst. constructor; [| exact Hr].
      cbn [Terms.occurs]. rewrite Ascii.eqb_sym, E. exact Hp.
Qed.

(** X11.  Whatever [CORS_ORIGINS] holds, the list of origins that
    [getConfig] returns is clean: no entry is empty, no entry has white
    space around it, and no entry holds a comma. *)
Theorem cors_origins_are_clean (p : Node.process) :
  exists cfg,
    Config.getConfig p = Normal cfg /\
    Forall (fun o => o <> "" /\ trim o = o /\ Terms.occurs "," o = false)
           (Config.corsOrigins cfg).
Proof.
  eexists. split; [reflexivity |]. cbn [Config.corsOrigins].
  match goal with
  | |- Forall _ (if _ then [] else ?l) =>
      assert (H : Forall (fun o => o <> "" /\ trim o = o /\ Terms.occurs "," o = false) l);
      [| destruct (_ =? 0)%nat; [constructor | exact H]]
  end.
  match goal with
  | |- Forall _ (List.filter _ (List.map _ (split _ ?s))) =>
      pose proof (split_pieces "," s) as Hs; revert Hs; generalize (split "," s)
  end.
  intros pieces Hs. induction Hs as [| piece rest Hp _ IH]; [constructor |].
  cbn [List.map List.filter]. destruct (nonempty (trim piece)) eqn:E; [| exact IH].
  constructor; [| exact IH]. split; [| split].
  - intros H. rewrite H in E. discriminate E.
  - apply trim_idem.
  - unfold trim. apply occurs_trimEnd, occurs_trimStart, Hp.
Qed.

End Origins.

(** * Shutdown, further *)

Section Signals.

Import Lifecycle Terms.

Lemma untouched_step p te :
  isSignal (snd te) = false -> untouched p -> untouched (step p te).
Proof.
  intros Hs (He & Hl & Ht & Hc & Hj). unfold step, idle. rewrite He.
  unfold advance. rewrite Ht. cbn [earliest exited set_clock].
  rewrite He. destruct (snd te) as [s | k | k | k | k]; [discriminate Hs | | | |];
    cbn [react sockets set_clock listening].
  - rewrite Hl. destruct (sockets p !! k); repeat split; assumption.
  - destruct (sockets p !! k); repeat split; assumption.
  - destruct (sockets p !! k) as [[|] |]; repeat split; assumption.
  - destruct (sockets p !! k); [| repeat split; assumption].
    unfold emitCloseIfDrained. cbn [with_sockets listening set_clock]. rewrite Hl.
    cbn [orb]. repeat split; assumption.
Qed.

(** X12.  The process ends only when it is told to: as long as no
    termination signal arrives, whatever connections open and close and
    however much time passes, the server keeps listening, no timer is
    armed and nothing of the shutdown code has run. *)
Theorem no_exit_without_a_signal (t0 : Z) (events : list (Z * Event)) :
  Forall (fun te => isSignal (snd te) = false) events ->
  exited (run (listen t0) events) = None /\
  state (run (listen t0) events) = Running /\
  timers (run (listen t0) events) = [] /\
  journal (run (listen t0) events) = [].
Proof.
  intros Hev.
  assert (H : untouched (run (listen t0) events)).
  { assert (H0 : untouched (listen t0)) by (repeat split).
    revert H0. generalize (listen t0). induction Hev as [| te events Hte _ IH]; intros p Hp.
    - exact Hp.
    - cbn [run fold_left]. apply IH, untouched_step; assumption. }
  destruct H as (He & Hl & Ht & _ & Hj). unfold state. rewrite He, Hl. repeat split; assumption.
Qed.

Lemma untouched_run events : forall p,
  Forall (fun te => isSignal (snd te) = false) events -> untouched p ->
  untouched (run p events).
Proof.
  induction events as [| te events IH]; intros p Hev Hp; [exact Hp |].
  inversion Hev; subst. cbn [run fold_left]. apply IH; [assumption |].
  apply untouched_step; assumption.
Qed.

Lemma winding_idle T t p : winding T p -> winding T (idle t p).
Proof.
  unfold winding, idle. destruct (exited p) as [[code te] |] eqn:He.
  - rewrite He. intros H. exact H.
  - intros [Hc Ht]. unfold advance.
    destruct (earliest (timers p)) as [tm |] eqn:Etm; [| discriminate Ht].
    cbn [option_map] in Ht. injection Ht as Ht.
    destruct (due tm <=? t) eqn:Ed.
    + cbn [onTimeout exit log exited clock set_clock]. split; [right; reflexivity | lia].
    + apply Z.leb_gt in Ed. cbn [set_clock exited clock timers]. rewrite He, Etm.
      cbn [option_map]. split; [lia | rewrite Ht; reflexivity].
Qed.

(** The [close] event ends the process, or finds no callback. *)
Lemma emitClose_cases p :
  exited p = None ->
  (exists code, (code = 0 \/ code = 1) /\ exited (emitClose p) = Some (code, clock p)) \/
  (closeListeners p = [] /\ exited (emitClose p) = None /\
   clock (emitClose p) = clock p /\ timers (emitClose p) = timers p).
Proof.
  intros He. destruct (closeListeners p) as [| l ls] eqn:Hl.
  - right. unfold emitClose. rewrite Hl. cbn. repeat split. exact He.
  - left. rewrite (emitClose_exits p l ls He Hl).
    destruct (withError l); eexists; (split; [| reflexivity]); tauto.
Qed.

Lemma winding_drained T p :
  exited p = None -> winding T p -> winding T (emitCloseIfDrained p).
Proof.
  intros He Hw. unfold emitCloseIfDrained.
  destruct (listening p || negb (Nat.eqb (connections p) 0)); [exact Hw |].
  unfold winding in Hw. rewrite He in Hw. destruct Hw as [Hc Ht].
  unfold winding.
  destruct (emitClose_cases p He) as [(code & Hcode & Hex) | (_ & Hex & Hck & Htm)];
    rewrite Hex.
  - split; [exact Hcode | lia].
  - rewrite Hck, Htm. split; assumption.
Qed.

Lemma winding_react T e p : exited p = None -> winding T p -> winding T (react e p).
Proof.
  intros He Hw. pose proof Hw as Hw'. unfold winding in Hw'. rewrite He in Hw'.
  destruct Hw' as [Hc Ht].
  assert (Hwith : forall m, winding T (with_sockets m p)).
  { intros m. unfold winding. cbn [with_sockets exited clock timers]. rewrite He.
    split; assumption. }
  destruct e as [s | k | k | k | k]; cbn [react].
  - apply winding_drained.
    + cbn. exact He.
    + unfold winding.
      cbn [shutdown log setTimeout serverClose closeIdleConnections with_sockets
           exited clock timers].
      rewrite He. split; [exact Hc |].
      rewrite earliest_snoc. cbn [due]. rewrite Ht. f_equal. lia.
  - destruct (sockets p !! k); [exact Hw |]. destruct (listening p); [apply Hwith | exact Hw].
  - destruct (sockets p !! k); [apply Hwith | exact Hw].
  - destruct (sockets p !! k) as [[|] |]; [apply Hwith | exact Hw | exact Hw].
  - destruct (sockets p !! k); [| exact Hw].
    apply winding_drained; [exact He | apply Hwith].
Qed.

Lemma winding_step T p te : winding T p -> winding T (step p te).
Proof.
  intros Hw. unfold step. pose proof (winding_idle T (fst te) p Hw) as Hi.
  destruct (exited (idle (fst te) p)) eqn:He; [exact Hi |].
  apply winding_react; assumption.
Qed.

Lemma winding_run T events : forall p, winding T p -> winding T (run p events).
Proof.
  induction events as [| te events IH]; intros p Hp; [exact Hp |].
  cbn [run fold_left]. apply IH, winding_step, Hp.
Qed.

(** The first signal: the timer is armed, the server stops listening, and
    a server without connections ends at once. *)
Lemma first_signal p t s :
  untouched p ->
  winding (Z.max (clock p) t) (step p (t, Signalled s)) /\
  (connections p = 0%nat ->
   exited (step p (t, Signalled s)) = Some (0, Z.max (clock p) t) /\
   List.map text (journal (step p (t, Signalled s)))
     = ["Shutdown initiated"; "Server closed cleanly"]).
Proof.
  intros (He & Hl & Ht & Hc & Hj). unfold step, idle. cbn [fst snd]. rewrite He.
  unfold advance. rewrite Ht. cbn [earliest exited set_clock]. rewrite He.
  cbn [react].
  set (p0 := set_clock (Z.max (clock p) t) p).
  destruct (shutdown_fields (signalName s) p0) as (Q1 & Q2 & Q3 & Q4 & Q5 & Q6 & Q7).
  cbn zeta in *. set (Q := shutdown (signalName s) p0) in *.
  cbn [p0 set_clock exited clock listening sockets closeListeners timers nextTimerId journal]
    in Q1, Q2, Q4, Q5, Q6, Q7.
  rewrite He in Q1. rewrite Hc, Hl in Q5. rewrite Ht in Q6. rewrite Hj in Q7.
  cbn [app negb] in Q5, Q6, Q7.
  assert (Hf : Spec.firstInLine Q) by (eexists _, _; split; [exact Q5 | reflexivity]).
  destruct (drained_cases Q Q1 Q3 Hf) as [[H0 Hx] | [Hn Hx]].
  - split.
    + unfold winding. rewrite Hx, Q2. split; [left; reflexivity | lia].
    + intros _. split; [rewrite Hx, Q2; reflexivity |].
      destruct (emitClose_clean Q _ _ Q1 Q5 eq_refl) as (Q' & J1 & _ & J2).
      unfold emitCloseIfDrained. rewrite Q3, H0. cbn [orb negb Nat.eqb]. rewrite J2.
      cbn [exit log journal]. rewrite J1, Q7. reflexivity.
  - rewrite Hx. split.
    + unfold winding. rewrite Q1, Q2, Q6. cbn [earliest option_map due]. split; [lia | reflexivity].
    + intros H0. exfalso. apply Hn. unfold connections in *. rewrite Q4.
      apply map_size_empty_iff in H0. rewrite H0, map_filter_empty. apply map_size_empty.
Qed.

(** X13.  Shutdown is bounded.  From the first termination signal on, and
    whatever happens afterwards (connections that stay open, connections
    that close, further signals), the process ends with status 0 or 1 no
    later than 30 seconds after that signal was handled. *)
Theorem shutdown_ends_within_thirty_seconds (t0 : Z) (before : list (Z * Event))
    (t : Z) (s : Signal) (after : list (Z * Event)) :
  Forall (fun te => isSignal (snd te) = false) before ->
  exists code te,
    settle (run (step (run (listen t0) before) (t, Signalled s)) after) = Some (code, te) /\
    (code = 0 \/ code = 1) /\
    Z.max (clock (run (listen t0) before)) t <= te
      <= Z.max (clock (run (listen t0) before)) t + 30000.
Proof.
  intros Hbefore.
  assert (Hu : untouched (run (listen t0) before)).
  { apply untouched_run; [exact Hbefore | repeat split]. }
  destruct (first_signal _ t s Hu) as [Hw _].
  apply (winding_run _ after) in Hw.
  set (T := Z.max (clock (run (listen t0) before)) t) in *.
  unfold winding in Hw. unfold settle.
  destruct (exited (run _ after)) as [[code te] |].
  - exists code, te. split; [reflexivity | exact Hw].
  - destruct Hw as [Hc Ht].
    destruct (earliest (timers (run _ after))) as [tm |]; [| discriminate Ht].
    cbn [option_map] in Ht. injection Ht as Ht.
    exists 1, (Z.max (clock (run (step (run (listen t0) before) (t, Signalled s)) after))
                     (due tm)).
    split; [reflexivity |]. split; [right; reflexivity | lia].
Qed.


Lemma lastText_log sv msg d p : lastText (log sv msg d p) = Some msg.
Proof. unfold lastText. cbn [log journal]. rewrite rev_app_distr. reflexivity. Qed.

Lemma journal_log sv msg d p :
  msg <> "Error closing server" ->
  Forall (fun en => text en <> "Error closing server") (journal p) ->
  Forall (fun en => text en <> "Error closing server") (journal (log sv msg d p)).
Proof.
  intros Hm Hj. cbn [log journal]. apply Forall_app. split; [exact Hj |].
  constructor; [exact Hm | constructor].
Qed.

Lemma orderly_drained p :
  exited p = None -> orderly p -> orderly (emitCloseIfDrained p).
Proof.
  intros He Ho. unfold emitCloseIfDrained.
  destruct (listening p) eqn:Hl; cbn [orb]; [exact Ho |].
  destruct (negb (Nat.eqb (connections p) 0)); [exact Ho |].
  destruct Ho as [Hj Hs]. rewrite He, Hl in Hs. destruct Hs as (l & ls & Hc & Hw).
  destruct (emitClose_clean p l ls He Hc Hw) as (q & Hq & _ & ->).
  split.
  - cbn [exit journal]. apply journal_log; [discriminate | rewrite Hq; exact Hj].
  - cbn [exit exited]. left. split; [reflexivity |].
    unfold lastText. cbn [exit journal]. apply lastText_log.
Qed.

Lemma orderly_idle t p : orderly p -> orderly (idle t p).
Proof.
  intros Ho. unfold idle. destruct (exited p) eqn:He; [exact Ho |].
  destruct Ho as [Hj Hs]. rewrite He in Hs. unfold advance.
  destruct (earliest (timers p)) as [tm |]; [destruct (due tm <=? t) |].
  - unfold onTimeout. split.
    + cbn [exit journal]. apply journal_log; [discriminate | exact Hj].
    + cbn [exit exited]. right. split; [reflexivity |].
      unfold lastText. cbn [exit journal]. apply lastText_log.
  - split; [exact Hj |]. cbn [set_clock exited listening closeListeners]. rewrite He. exact Hs.
  - split; [exact Hj |]. cbn [set_clock exited listening closeListeners]. rewrite He. exact Hs.
Qed.

Lemma orderly_react e p : exited p = None -> orderly p -> orderly (react e p).
Proof.
  intros He Ho. pose proof Ho as [Hj Hs]. rewrite He in Hs.
  assert (Hwith : forall m, orderly (with_sockets m p)).
  { intros m. split; [exact Hj |]. cbn [with_sockets exited listening closeListeners].
    rewrite He. exact Hs. }
  destruct e as [s | k | k | k | k]; cbn [react].
  - apply orderly_drained; [cbn; exact He |].
    split.
    + cbn [shutdown setTimeout serverClose closeIdleConnections with_sockets journal].
      apply (journal_log Warn "Shutdown initiated" (Some (signalName s)) p);
        [discriminate | exact Hj].
    + cbn [shutdown log setTimeout serverClose closeIdleConnections with_sockets
           exited listening closeListeners].
      rewrite He. destruct (listening p).
      * rewrite Hs. eexists _, _. split; reflexivity.
      * destruct Hs as (l & ls & Hc & Hw). rewrite Hc.
        exists l, (ls ++ [{| captured := nextTimerId p; withError := negb false |}]).
        split; [reflexivity | exact Hw].
  - destruct (sockets p !! k); [exact Ho |]. destruct (listening p); [apply Hwith | exact Ho].
  - destruct (sockets p !! k); [apply Hwith | exact Ho].
  - destruct (sockets p !! k) as [[|] |]; [apply Hwith | exact Ho | exact Ho].
  - destruct (sockets p !! k); [| exact Ho].
    apply orderly_drained; [exact He | apply Hwith].
Qed.

Lemma orderly_run events : forall p, orderly p -> orderly (run p events).
Proof.
  induction events as [| te events IH]; intros p Hp; [exact Hp |].
  cbn [run fold_left]. apply IH. unfold step.
  pose proof (orderly_idle (fst te) p Hp) as Hi.
  destruct (exited (idle (fst te) p)) eqn:He; [exact Hi |].
  apply orderly_react; assumption.
Qed.

(** X15.  The error branch of the close callback (lines 182-185) is never
    taken.  Whatever signals, connections and delays a process sees, its
    journal never holds "Error closing server"; when it ends with status 1,
    that is the forced exit after the timeout, and when it ends with status
    0, that is the clean close. *)
Theorem exit_status_tells_how_the_process_ended (t0 : Z) (events : list (Z * Event)) :
  Forall (fun en => text en <> "Error closing server") (journal (run (listen t0) events)) /\
  match exited (run (listen t0) events) with
  | Some (code, _) =>
      (code = 0 /\ lastText (run (listen t0) events) = Some "Server closed cleanly") \/
      (code = 1 /\ lastText (run (listen t0) events) = Some "Force exit after timeout")
  | None => True
  end.
Proof.
  assert (H : orderly (run (listen t0) events)).
  { apply orderly_run. split; [constructor | reflexivity]. }
  destruct H as [Hj Hs]. split; [exact Hj |].
  destruct (exited (run (listen t0) events)) as [[code te] |]; [exact Hs | exact I].
Qed.

End Signals.

(** X12 at work: a connection comes and goes, and a day passes. *)
Lemma no_exit_without_a_signal_witness :
  Lifecycle.state
    (Lifecycle.run (Lifecycle.listen 0)
       [(10, Lifecycle.ConnectionOpened 1); (15, Lifecycle.RequestReceived 1);
        (18, Lifecycle.ResponseFinished 1); (20, Lifecycle.ConnectionClosed 1);
        (86400000, Lifecycle.ConnectionOpened 2)]) = Lifecycle.Running.
Proof.
  refine (proj1 (proj2 (no_exit_without_a_signal 0 _ _))).
  repeat constructor.
Defined.

(** X13 at work: a request that never ends, and a second signal. *)
Lemma shutdown_ends_within_thirty_seconds_witness :
  exists code te,
    Lifecycle.settle
      (Lifecycle.run
         (Lifecycle.step
            (Lifecycle.run (Lifecycle.listen 0)
               [(10, Lifecycle.ConnectionOpened 1); (20, Lifecycle.RequestReceived 1)])
            (1000, Lifecycle.Signalled Lifecycle.SIGTERM))
         [(5000, Lifecycle.Signalled Lifecycle.SIGINT)]) = Some (code, te) /\
    (code = 0 \/ code = 1) /\ 1000 <= te <= 31000.
Proof.
  destruct (shutdown_ends_within_thirty_seconds 0
              [(10, Lifecycle.ConnectionOpened 1); (20, Lifecycle.RequestReceived 1)] 1000
              Lifecycle.SIGTERM [(5000, Lifecycle.Signalled Lifecycle.SIGINT)])
    as (code & te & H1 & H2 & H3).
  - repeat constructor.
  - exists code, te. split; [exact H1 |]. split; [exact H2 | exact H3].
Defined.


(** ** Numerals *)

Section Numerals.

Import JS.

Lemma lowest_bit_bound n j :
  0 < n -> 0 <= j -> j <= trailing_zeros (n * 2 ^ j).
Proof.
  intros Hn Hj. unfold trailing_zeros. set (m := n * 2 ^ j).
  assert (Hm : 0 < m) by (subst m; apply Z.mul_pos_pos; [lia | apply Z.pow_pos_nonneg; lia]).
  assert (Hlow : Z.land m (- m) mod 2 ^ j = 0).
  { rewrite <- Z.land_ones by exact Hj.
    rewrite (Z.land_comm m (- m)), <- Z.land_assoc, Z.land_ones by exact Hj.
    subst m. rewrite Z.mod_mul by (apply Z.pow_nonzero; lia). apply Z.land_0_r. }
  clearbody m.
  assert (Hnn : 0 <= Z.land m (- m)) by (apply Z.land_nonneg; left; lia).
  assert (Hnz : Z.land m (- m) <> 0).
  { intros H0. pose proof (Z.add_nocarry_lxor _ _ H0) as Hx.
    replace (m + - m) with 0 in Hx by lia. symmetry in Hx. apply Z.lxor_eq in Hx. lia. }
  apply Z.log2_le_pow2; [lia |].
  apply Z.mod_divide in Hlow; [| apply Z.pow_nonzero; lia].
  destruct Hlow as [k Hk]. assert (HP : 0 < 2 ^ j) by (apply Z.pow_pos_nonneg; lia).
  revert Hk HP Hnn Hnz. generalize (Z.land m (- m)) (2 ^ j). intros L P Hk HP Hnn Hnz.
  assert (Hk1 : 1 <= k) by nia. nia.
Qed.

(** A positive integer below 2^53 is a double. *)
Lemma round_ratio_integer n : 0 <= n < 2 ^ 53 -> round_ratio n 1 = of_Z n.
Proof.
  intros Hn. unfold round_ratio, of_Z.
  destruct (n =? 0) eqn:E0; [apply Z.eqb_eq in E0; subst n; reflexivity |].
  apply Z.eqb_neq in E0. assert (Hpos : 0 < n) by lia.
  replace (0 <? n) with true by (symmetry; apply Z.ltb_lt; exact Hpos).
  unfold round_pos, floor_log2_ratio.
  change (Z.log2 1) with 0. rewrite Z.sub_0_r.
  pose proof (Z.log2_spec n Hpos) as [Hlo Hhi].
  pose proof (Z.log2_nonneg n) as Hl0.
  assert (Hl52 : Z.log2 n <= 52).
  { destruct (Z_le_gt_dec (Z.log2 n) 52) as [H | H]; [exact H |].
    assert (2 ^ 53 <= 2 ^ Z.log2 n) by (apply Z.pow_le_mono_r; lia). lia. }
  replace (0 <=? Z.log2 n) with true by (symmetry; apply Z.leb_le; exact Hl0).
  replace (1 * 2 ^ Z.log2 n <=? n) with true by (symmetry; apply Z.leb_le; lia).
  replace (Z.max (Z.log2 n - 52) (-1074)) with (Z.log2 n - 52) by lia.
  assert (Hrhe : forall a, round_half_even a 1 = a).
  { intros a. unfold round_half_even. rewrite Z.div_1_r, Z.mod_1_r. reflexivity. }
  destruct (0 <=? Z.log2 n - 52) eqn:Ep.
  - apply Z.leb_le in Ep. replace (Z.log2 n - 52) with 0 by lia.
    change (1 * 2 ^ 0) with 1. rewrite Hrhe. change (2 ^ 0) with 1. rewrite Z.mul_1_r.
    replace (2 ^ 1024 <=? n) with false; [reflexivity |].
    symmetry. apply Z.leb_gt.
    assert (2 ^ 53 < 2 ^ 1024) by (apply Z.pow_lt_mono_r; lia). lia.
  - apply Z.leb_gt in Ep. rewrite Hrhe.
    set (j := - (Z.log2 n - 52)). assert (Hj : 0 < j) by (subst j; lia).
    unfold dyadic.
    assert (H2j : 0 < 2 ^ j) by (apply Z.pow_pos_nonneg; lia).
    replace (n * 2 ^ j =? 0) with false by (symmetry; apply Z.eqb_neq; nia).
    rewrite Z2N.id by lia.
    pose proof (lowest_bit_bound n j Hpos ltac:(lia)) as Htz.
    rewrite Z.min_r by exact Htz.
    rewrite Z.shiftr_div_pow2 by lia. rewrite Z.div_mul by lia.
    rewrite Z.sub_diag. reflexivity.
Qed.

Lemma pretty_char_digit d :
  (d < 10)%N ->
  digit_value 10 (pretty_N_char d) = Some (Z.of_N d) /\
  Terms.is_digit (pretty_N_char d) = true.
Proof.
  intros Hd.
  assert (H : (d = 0 \/ d = 1 \/ d = 2 \/ d = 3 \/ d = 4 \/ d = 5 \/ d = 6 \/ d = 7 \/
               d = 8 \/ d = 9)%N) by lia.
  repeat (destruct H as [H | H]; [subst d; split; reflexivity |]).
  subst d. split; reflexivity.
Qed.

(** The digits that [pretty] puts in front of [s], read back by the
    parser. *)
Lemma digits_pretty_go x :
  exists k, 0 <= k /\ ((0 < x)%N -> 0 < k) /\
    forall s acc len,
      digits 10 (pretty_N_go x s) acc len = digits 10 s (acc * 10 ^ k + Z.of_N x) (len + k).
Proof.
  induction (N.lt_wf_0 x) as [x _ IH].
  destruct (N.eq_dec x 0%N) as [-> | Hx].
  - exists 0. split; [lia |]. split; [lia |]. intros s acc len.
    rewrite pretty_N_go_0. f_equal; lia.
  - assert (Hpos : (0 < x)%N) by lia.
    destruct (IH (N.div x 10)) as (k & Hk & _ & Hgo); [apply N.div_lt; lia |].
    exists (k + 1). split; [lia |]. split; [lia |]. intros s acc len.
    rewrite pretty_N_go_step by exact Hpos. rewrite Hgo. cbn [digits].
    destruct (pretty_char_digit (N.modulo x 10)) as [Hv _]; [apply N.mod_lt; discriminate |].
    rewrite Hv. f_equal; [| lia].
    rewrite Z.pow_add_r by lia. change (10 ^ 1) with 10.
    pose proof (N.div_mod x 10 ltac:(lia)) as Hdm.
    apply (f_equal Z.of_N) in Hdm. rewrite N2Z.inj_add, N2Z.inj_mul in Hdm.
    change (Z.of_N 10) with 10 in Hdm. lia.
Qed.

Lemma digits_only_pretty_go x :
  forall s, Terms.digits_only s = true -> Terms.digits_only (pretty_N_go x s) = true.
Proof.
  induction (N.lt_wf_0 x) as [x _ IH]. intros s Hs.
  destruct (N.eq_dec x 0%N) as [-> | Hx]; [rewrite pretty_N_go_0; exact Hs |].
  rewrite pretty_N_go_step by lia. apply IH; [apply N.div_lt; lia |].
  cbn [Terms.digits_only]. rewrite Hs.
  destruct (pretty_char_digit (N.modulo x 10)) as [_ Hd]; [apply N.mod_lt; discriminate |].
  rewrite Hd. reflexivity.
Qed.

Lemma digit_not_white c : Terms.is_digit c = true -> is_white c = false.
Proof.
  unfold Terms.is_digit, is_white. intros H. apply andb_true_iff in H. destruct H as [H1 H2].
  apply N.leb_le in H1, H2.
  repeat (apply orb_false_iff; split);
    first [apply andb_false_iff; right; apply N.leb_gt; lia | apply N.eqb_neq; lia].
Qed.

Lemma trimEnd_digits s : Terms.digits_only s = true -> trimEnd s = s.
Proof.
  induction s as [| c s IH]; [reflexivity |].
  cbn [Terms.digits_only trimEnd]. intros H. apply andb_true_iff in H. destruct H as [Hc Hs].
  rewrite (IH Hs). destruct s; [rewrite (digit_not_white c Hc) |]; reflexivity.
Qed.

Lemma trim_digits s : Terms.digits_only s = true -> trim s = s.
Proof.
  intros H. unfold trim.
  replace (trimStart s) with s; [apply trimEnd_digits, H |].
  destruct s as [| c s]; [reflexivity |]. cbn [trimStart].
  cbn [Terms.digits_only] in H. apply andb_true_iff in H. destruct H as [Hc _].
  rewrite (digit_not_white c Hc). reflexivity.
Qed.

(** [Number] of a string of digits is its value. *)
Lemma Number_digits s v len :
  Terms.digits_only s = true ->
  digits 10 s 0 0 = (v, len, "") -> 0 < len ->
  Number s = round_ratio v 1.
Proof.
  intros Hs Hd Hlen. unfold Number. rewrite (trim_digits s Hs).
  assert (Hu : unsigned_decimal s = round_ratio v 1).
  { unfold unsigned_decimal.
    assert (Hinf : String.eqb s "Infinity" = false).
    { destruct s as [| c s']; [reflexivity |].
      cbn [Terms.digits_only] in Hs. apply andb_true_iff in Hs. destruct Hs as [Hc _].
      cbn [String.eqb]. replace (Ascii.eqb c "I") with false; [reflexivity |].
      symmetry. apply Ascii.eqb_neq. intros ->. discriminate Hc. }
    rewrite Hinf, Hd.
    replace (len =? 0) with false by (symmetry; apply Z.eqb_neq; lia).
    cbn [exponent_part]. unfold decimal. cbn [Z.leb Z.compare].
    change (10 ^ 0) with 1. rewrite Z.mul_1_r. reflexivity. }
  destruct s as [| c s']; [cbn in Hd; inversion Hd; lia |].
  cbn [Terms.digits_only] in Hs. apply andb_true_iff in Hs. destruct Hs as [Hc Hs'].
  destruct c as [[] [] [] [] [] [] [] []]; try discriminate Hc; try exact Hu.
  destruct s' as [| c2 s'']; [exact Hu |].
  cbn [Terms.digits_only] in Hs'. apply andb_true_iff in Hs'. destruct Hs' as [Hc2 _].
  destruct c2 as [[] [] [] [] [] [] [] []]; try discriminate Hc2; exact Hu.
Qed.

(** Round trip: the decimal numeral of a natural number below 2^53 is
    read back as that number. *)
Lemma Number_pretty (n : N) : (n < 2 ^ 53)%N -> Number (pretty n) = of_Z (Z.of_N n).
Proof.
  intros Hn. unfold pretty, pretty_N. destruct (decide (n = 0%N)) as [-> | Hne].
  - reflexivity.
  - destruct (digits_pretty_go n) as (k & Hk & Hpos & Hgo).
    rewrite (Number_digits (pretty_N_go n "") (Z.of_N n) k).
    + apply round_ratio_integer. split; [lia |].
      change (2 ^ 53) with (Z.of_N (2 ^ 53)). lia.
    + apply digits_only_pretty_go. reflexivity.
    + rewrite Hgo. cbn [digits]. repeat f_equal; lia.
    + apply Hpos. lia.
Qed.

(** X16.  A numeric variable that holds the decimal numeral of a natural
    number below 2^53 is read back as exactly that number: the port is the
    number (and 200 when the number is 0), and a ceiling is the number, the
    first name of each pair winning over the second. *)
Theorem decimal_numerals_are_read_back (p : Node.process) (n : N) :
  (n < 2 ^ 53)%N ->
  exists cfg,
    Config.getConfig p = Normal cfg /\
    (Node.env p !! "PORT" = Some (pretty n) ->
     Config.port cfg = if (n =? 0)%N then of_Z 200 else of_Z (Z.of_N n)) /\
    (Node.env p !! "RATE_LIMIT_DEFAULT_PER_MIN" = Some (pretty n) ->
     Config.globalPerMin (Config.rateLimit cfg) = of_Z (Z.of_N n)) /\
    (Node.env p !! "RATE_LIMIT_DEFAULT_PER_MIN" = None ->
     Node.env p !! "RATE_LIMIT_PER_MINUTE" = Some (pretty n) ->
     Config.globalPerMin (Config.rateLimit cfg) = of_Z (Z.of_N n)) /\
    (Node.env p !! "RATE_LIMIT_AUTH_PER_MIN" = Some (pretty n) ->
     Config.authPerMin (Config.rateLimit cfg) = of_Z (Z.of_N n)) /\
    (Node.env p !! "RATE_LIMIT_AUTH_PER_MIN" = None ->
     Node.env p !! "RATE_LIMIT_AUTHZ_PER_MINUTE" = Some (pretty n) ->
     Config.authPerMin (Config.rateLimit cfg) = of_Z (Z.of_N n)).
Proof.
  intros Hn. pose proof (Number_pretty n Hn) as Hnum.
  eexists. split; [reflexivity |].
  cbn [Config.port Config.rateLimit Config.globalPerMin Config.authPerMin].
  split; [| split; [| split; [| split]]].
  - intros H. rewrite H. cbn [Number_opt]. rewrite Hnum. unfold num_or, truthy, of_Z.
    destruct (N.eqb_spec n 0) as [-> | Hne]; [reflexivity |].
    replace (Z.of_N n =? 0) with false; [reflexivity |].
    symmetry. apply Z.eqb_neq. lia.
  - intros H. rewrite H. exact Hnum.
  - intros H1 H2. rewrite H1, H2. exact Hnum.
  - intros H. rewrite H. exact Hnum.
  - intros H1 H2. rewrite H1, H2. exact Hnum.
Qed.

End Numerals.

(** X16 at work: the usual port of a development server. *)
Lemma decimal_numerals_are_read_back_witness :
  exists cfg,
    Config.getConfig Terms.onPort8080 = JS.Normal cfg /\
    Config.port cfg = JS.of_Z 8080.
Proof.
  destruct (decimal_numerals_are_read_back Terms.onPort8080 8080) as (cfg & H1 & H2 & _).
  - reflexivity.
  - exists cfg. split; [exact H1 | exact (H2 eq_refl)].
Defined.

(** ** The version endpoint *)


(** * The minimal server *)

Section Minimal.

Import Http Express Spec Terms.

(** A layer that hands the request on. *)
Lemma pass_next l rest c h c1 :
  invoke l None (req c) = Some h ->
  h (enter (mount l) c) = (c1, Next) ->
  pass (l :: rest) None c =
  let '(c2, o, tr) := pass rest None c1 in
  (c2, o, {| layer := name l; seen := req (enter (mount l) c); handed := Next |} :: tr).
Proof. intros Hi Hh. cbn [pass]. rewrite Hi, Hh. reflexivity. Qed.

(** Helmet and CORS, on a request that is no preflight. *)
Lemma legacy_headers w m t0 :
  method m <> "OPTIONS" ->
  exists r,
    pass Legacy.app None (arrival w m t0) =
      (let '(c2, o, tr) :=
         pass (skipn 2 Legacy.app) None
           {| req := newRequest m; res := r; world := w; now := t0 |} in
       (c2, o,
        {| layer := "helmet"; seen := newRequest m; handed := Next |}
        :: {| layer := "cors"; seen := newRequest m; handed := Next |} :: tr)) /\
    statusCode r = 200 /\ listeners r = [] /\
    resHeaders r !! "x-frame-options" = Some (HStr "SAMEORIGIN") /\
    resHeaders r !! "x-request-id" = None /\
    resBody r = None /\ finished r = false.
Proof.
  intros Hm. apply String.eqb_neq in Hm.
  set (c0 := arrival w m t0).
  assert (Hh : exists r1,
            Vendor.helmet Legacy.helmetOptions c0 = (set_res (fun _ => r1) c0, Next) /\
            statusCode r1 = 200 /\ listeners r1 = [] /\
            resHeaders r1 !! "x-frame-options" = Some (HStr "SAMEORIGIN") /\
            resHeaders r1 !! "x-request-id" = None /\
            resBody r1 = None /\ finished r1 = false).
  { unfold Vendor.helmet. eexists. split; [reflexivity |]. cbn. repeat split. }
  destruct Hh as (r1 & Hh & A1 & A2 & A3 & A4 & A5 & A6).
  assert (Hc : exists r2,
            Vendor.cors Legacy.corsOptions (set_res (fun _ => r1) c0) =
              (set_res (fun _ => r2) (set_res (fun _ => r1) c0), Next) /\
            statusCode r2 = 200 /\ listeners r2 = [] /\
            resHeaders r2 !! "x-frame-options" = Some (HStr "SAMEORIGIN") /\
            resHeaders r2 !! "x-request-id" = None /\
            resBody r2 = None /\ finished r2 = false).
  { unfold Vendor.cors. cbn [set_res res req c0 arrival newRequest message]. rewrite Hm.
    eexists. split; [reflexivity |].
    cbn [Legacy.corsOptions Vendor.credentials Vendor.allowed Vendor.origin].
    destruct (header _ "origin") as [v |]; cbn;
      rewrite ?lookup_insert_ne by discriminate; repeat split; assumption. }
  destruct Hc as (r2 & Hc & B1 & B2 & B3 & B4 & B5 & B6).
  exists r2. split; [| repeat split; assumption].
  unfold Legacy.app. cbn [skipn].
  erewrite pass_next; [| reflexivity | exact Hh].
  erewrite pass_next; [| reflexivity | exact Hc].
  cbn [mount Server.layer enter name].
  change {| req := newRequest m; res := r2; world := w; now := t0 |}
    with (set_res (fun _ => r2) (set_res (fun _ => r1) c0)).
  match goal with
  | |- context [pass ?stack None ?c] => destruct (pass stack None c) as [[c2 o] tr]
  end.
  reflexivity.
Qed.


(** X19.  The minimal server has no not-found handler and no error
    handler.  A request that is no preflight and that neither route takes
    runs through the four middleware and is left unanswered by the stack;
    one whose body is not valid JSON is left with the parser's error
    pending, status 400, before the logger and the routes are reached. *)
Theorem legacy_leaves_the_rest_to_express w m t0 :
  method m <> "OPTIONS" ->
  (payload m = NoPayload \/ (exists j, payload m = JsonPayload j) ->
   matches (Get "/health") (newRequest m) = false ->
   matches (Get "/") (newRequest m) = false ->
   exists c,
     Legacy.handle w m t0 = (c, Unanswered None,
       List.map (fun n => {| layer := n; seen := newRequest m; handed := Next |})
                ["helmet"; "cors"; "express.json"] ++
       [{| layer := "morgan"; seen := req c; handed := Next |}]) /\
     resBody (res c) = None /\ finished (res c) = false) /\
  (forall msg st, payload m = Malformed msg st ->
   exists c,
     Legacy.handle w m t0 = (c, Unanswered (Some {| status := Some 400;
                                                    errMessage := Some msg;
                                                    stack := Some st |}),
       List.map (fun n => {| layer := n; seen := newRequest m; handed := Next |})
                ["helmet"; "cors"] ++
       [{| layer := "express.json"; seen := newRequest m;
           handed := NextErr {| status := Some 400; errMessage := Some msg;
                                stack := Some st |} |}]) /\
     resBody (res c) = None).
Proof.
  intros Hopt. unfold Legacy.handle. fold (arrival w m t0).
  destruct (legacy_headers w m t0 Hopt) as (r & Hrun & _ & _ & _ & _ & Hb & Hf).
  rewrite Hrun. clear Hrun.
  unfold Legacy.app. cbn [skipn]. split.
  - intros Hpay H1 H2.
    assert (Hjson : exists j,
              Vendor.json {| req := newRequest m; res := r; world := w; now := t0 |} =
              (set_req (with_body (Some j))
                 {| req := newRequest m; res := r; world := w; now := t0 |}, Next)).
    { unfold Vendor.json. cbn [req newRequest message].
      destruct Hpay as [-> | [j ->]]; eexists; reflexivity. }
    destruct Hjson as (j & Hjson).
    erewrite pass_next; [| reflexivity | exact Hjson].
    erewrite pass_next; [| reflexivity | reflexivity].
    cbn [pass]. unfold invoke.
    cbn [mount Server.layer handler enter name Vendor.morgan fst] in *.
    unfold matches in *. cbn [set_req req with_body newRequest message] in *.
    rewrite H1, H2.
    exists (set_req (with_body (Some j))
              {| req := newRequest m; res := r; world := w; now := t0 |}).
    split; [reflexivity |]. split; [exact Hb | exact Hf].
  - intros msg st Hpay.
    set (c := {| req := newRequest m; res := r; world := w; now := t0 |}).
    set (e := {| status := Some 400; errMessage := Some msg; stack := Some st |}).
    assert (Hrun : forall rest,
              Forall (fun l => exists h, handler l = Plain h) rest ->
              pass (Server.layer "express.json" Everywhere Vendor.json :: rest) None c =
              (c, Unanswered (Some e),
               [{| layer := "express.json"; seen := newRequest m; handed := NextErr e |}])).
    { intros rest Hrest. cbn [pass]. unfold invoke.
      cbn [matches mount Server.layer handler enter name].
      unfold Vendor.json. cbn [c req newRequest message]. rewrite Hpay.
      rewrite (pass_error_skips rest _ _ Hrest). reflexivity. }
    rewrite Hrun by (repeat constructor; eexists; reflexivity).
    exists c. split; [reflexivity | exact Hb].
Qed.

End Minimal.


(** X19 at work: the health path of the full server is unknown to the
    minimal one. *)
Lemma legacy_leaves_the_rest_to_express_witness :
  exists c tr,
    Legacy.handle Spec.sampleWorld (Spec.get "/healthz") 1000
      = (c, Express.Unanswered None, tr).
Proof.
  assert (Hopt : Http.method (Spec.get "/healthz") <> "OPTIONS") by discriminate.
  destruct (proj1 (legacy_leaves_the_rest_to_express Spec.sampleWorld (Spec.get "/healthz")
                     1000 Hopt) (or_introl eq_refl) eq_refl eq_refl) as (c & H & _).
  eexists c, _. exact H.
Defined.

(** * What the configuration depends on *)

Section Dependence.

Import JS.

(** X20.  The configuration depends on eleven variables of the
    environment and on the version of Node, and on nothing else: two
    processes that agree on those get the same configuration, whatever
    else their environments hold. *)
Theorem getConfig_reads_eleven_variables (p q : Node.process) :
  Node.version p = Node.version q ->
  Forall (fun k => Node.env p !! k = Node.env q !! k) Terms.configVariables ->
  Config.getConfig p = Config.getConfig q.
Proof.
  intros Hv Hk. unfold Terms.configVariables, Spec.overrides, Spec.numericVariables in Hk.
  cbn [app] in Hk.
  repeat match goal with
         | H : Forall _ (_ :: _) |- _ =>
             let H1 := fresh "Hk" in
             apply Forall_cons_1 in H; destruct H as [H1 H]
         end.
  unfold Config.getConfig.
  rewrite Hv, Hk0, Hk1, Hk2, Hk3, Hk4, Hk5, Hk6, Hk7, Hk8, Hk9, Hk10. reflexivity.
Qed.

(** X21.  For the six variables that are read with [||], an empty value
    is the same as no value: removing the variable from the environment
    does not change the configuration.  (The ceilings, read with [??], and
    the commit id, read as it is, are different: X10.) *)
Theorem empty_values_count_as_unset (p : Node.process) (k : string) :
  In k Terms.lenientVariables ->
  Node.env p !! k = Some "" ->
  Config.getConfig p = Config.getConfig (Terms.unsetenv k p).
Proof.
  intros Hin Hk. unfold Config.getConfig, Terms.unsetenv. cbn [Node.env Node.version].
  cbn in Hin.
  repeat (destruct Hin as [Hin | Hin];
          [subst k; rewrite lookup_delete_eq, Hk;
           rewrite !lookup_delete_ne by discriminate; reflexivity |]).
  destruct Hin.
Qed.

End Dependence.

(** X20 at work: a variable that [getConfig] does not read. *)
Lemma getConfig_reads_eleven_variables_witness :
  Config.getConfig Terms.staging =
  Config.getConfig
    {| Node.env := <["HSTS_MAX_AGE" := "60"]> (Node.env Terms.staging);
       Node.version := "v20.11.0" |}.
Proof.
  apply getConfig_reads_eleven_variables; [reflexivity |].
  repeat constructor.
Defined.

(** X21 at work. *)
Lemma empty_values_count_as_unset_witness :
  Config.getConfig
    {| Node.env := <["LOG_LEVEL" := ""]> (Node.env Terms.staging);
       Node.version := "v20.11.0" |} =
  Config.getConfig
    (Terms.unsetenv "LOG_LEVEL"
       {| Node.env := <["LOG_LEVEL" := ""]> (Node.env Terms.staging);
          Node.version := "v20.11.0" |}).
Proof.
  apply empty_values_count_as_unset; [cbn; tauto | reflexivity].
Defined.

(** * Cross-origin access *)

Section Origin.

Import Http Express Spec Terms.

Variable cfg : Config.AppConfig.
Variable m : Incoming.

Ltac project :=
  cbn [set_res set_req res req fst endWith setStatus resHeaders onFinish].

Ltac other_header :=
  repeat first
    [ progress project
    | rewrite sendJson_header by discriminate
    | rewrite setHeader_other by (vm_compute; discriminate) ].

(** Changing the response so that the header stays keeps the grant. *)
Lemma granted_res (f : Response -> Response) c :
  (forall r, resHeaders (f r) !! "access-control-allow-origin"
             = resHeaders r !! "access-control-allow-origin") ->
  granted cfg m c -> granted cfg m (set_res f c).
Proof. intros Hf [H1 H2]. split; [exact H1 | cbn [set_res res]; rewrite Hf; exact H2]. Qed.

Lemma requestId_granted c : granted cfg m c -> granted cfg m (fst (RequestId.requestId c)).
Proof.
  intros [H1 H2]. unfold RequestId.requestId.
  destruct (header (req c) RequestId.requestIdHeader) as [s |];
    [destruct (JS.nonempty s && (0 <? Z.of_nat (String.length (JS.trim s)))) |];
    unfold randomUUID; (split; [exact H1 |]);
    cbn [fst set_res set_req set_world res]; other_header; exact H2.
Qed.

Lemma pinoHttp_granted c :
  granted cfg m c -> granted cfg m (fst (Pino.pinoHttp (Server.httpLogger cfg) c)).
Proof.
  intros [H1 H2]. unfold Pino.pinoHttp.
  cbn [Pino.genReqId Server.httpLogger Pino.autoLogging].
  destruct (RequestId.getRequestId (req c)); (split; [exact H1 | exact H2]).
Qed.

Lemma json_granted c : granted cfg m c -> granted cfg m (fst (Vendor.json c)).
Proof. intros H. unfold Vendor.json. destruct (payload (message (req c))); exact H. Qed.

(** Line 52: the CORS middleware names the caller's own origin, and only
    one that is allowed. *)
Lemma cors_granted c :
  granted cfg m c -> granted cfg m (fst (Vendor.cors (Server.corsOptions cfg) c)).
Proof.
  intros [H1 H2]. unfold Vendor.cors, header.
  change (JS.toLowerCase "origin") with "origin". rewrite H1.
  destruct (String.eqb (method m) "OPTIONS"); (split; [exact H1 |]); project;
    (destruct (get_header "origin" (headers m)) as [v |] eqn:Ho;
     [destruct (Vendor.allowed (Server.corsOptions cfg) v) eqn:Ha |]);
    destruct (Vendor.credentials (Server.corsOptions cfg)); project; other_header;
    try exact H2;
    (cbn; rewrite lookup_insert_eq; exists v; repeat split; assumption).
Qed.

Lemma helmet_granted o c : granted cfg m c -> granted cfg m (fst (Vendor.helmet o c)).
Proof.
  intros [H1 H2]. unfold Vendor.helmet. split; [exact H1 |]. project.
  destruct (Vendor.contentSecurityPolicy o); other_header; exact H2.
Qed.

Lemma makeLimiter_granted cls perMin c :
  granted cfg m c -> granted cfg m (fst (Server.makeLimiter cls perMin c)).
Proof.
  intros [H1 H2]. unfold Server.makeLimiter.
  destruct (JS.le perMin (JS.of_Z 0)); [split; assumption |].
  unfold RateLimiter.rateLimit.
  destruct (RateLimiter.admitRequest _ _ _ _) as [[st win] v].
  cbn [RateLimiter.standardHeaders].
  destruct v; (split; [exact H1 |]); project; unfold RateLimiter.standard; project;
    other_header; exact H2.
Qed.

Lemma keeps_granted n mt h :
  (forall c, granted cfg m c -> granted cfg m (fst (h c))) ->
  keeps (fun _ => granted cfg m) (granted cfg m) (fun _ => True) (Server.layer n mt h).
Proof.
  intros Hh err c h' HP Hi. apply invoke_layer in Hi. destruct Hi as (_ & -> & _).
  split; [exact I |]. cbn [Server.layer mount].
  assert (HE : granted cfg m (enter mt c)) by (destruct mt; exact HP).
  specialize (Hh _ HE). destruct (h (enter mt c)) as [c' [| e |]]; exact Hh.
Qed.

Lemma app_granted :
  Forall (keeps (fun _ => granted cfg m) (granted cfg m) (fun _ => True)) (Server.app cfg).
Proof.
  unfold Server.app, Server.entry.
  apply Forall_app; split.
  { apply Forall_app; split; [| apply Forall_app; split; [| apply Forall_app; split]].
    - constructor; [apply keeps_granted, requestId_granted |].
      constructor; [apply keeps_granted, pinoHttp_granted | constructor].
    - destruct (Config.isDevelopment cfg); [| constructor].
      constructor; [| constructor]. apply keeps_granted. intros c Hc. exact Hc.
    - constructor; [apply keeps_granted, json_granted |].
      constructor; [apply keeps_granted, cors_granted | constructor].
    - destruct (Config.enableHelmet (Config.security cfg)); [| constructor].
      constructor; [| constructor]. apply keeps_granted, helmet_granted. }
  unfold Server.limiters, Server.timer, Server.routes, Server.terminal. cbn [app].
  constructor; [apply keeps_granted; intros c; apply makeLimiter_granted |].
  constructor; [apply keeps_granted; intros c; apply makeLimiter_granted |].
  constructor; [apply keeps_granted; intros c Hc; exact Hc |].
  assert (Hjson : forall (body : Ctx -> JS.json) (st : Ctx -> option Z) c,
            granted cfg m c ->
            granted cfg m (fst (set_res (fun r => sendJson (body c)
                                           match st c with
                                           | Some z => setStatus z r
                                           | None => r
                                           end) c, Done))).
  { intros body st c Hc. cbn [fst]. apply granted_res; [| exact Hc].
    intros r. other_header. destruct (st c); reflexivity. }
  constructor; [apply keeps_granted; exact (Hjson _ (fun _ => None)) |].
  constructor; [apply keeps_granted; exact (Hjson _ (fun _ => None)) |].
  constructor; [apply keeps_granted; exact (Hjson _ (fun _ => None)) |].
  constructor.
  { apply keeps_granted. intros c Hc. cbn [fst Server.metrics]. apply granted_res; [| exact Hc].
    intros r. project. other_header. reflexivity. }
  constructor; [apply keeps_granted; exact (Hjson _ (fun _ => Some 200)) |].
  constructor; [apply keeps_granted; exact (Hjson _ (fun _ => Some 404)) |].
  constructor; [| constructor].
  apply keeps_onError. intros e c Hc. split; [exact I |].
  cbn [enter]. unfold Server.errorHandler.
  destruct (validStatus (JS.int_or (status e) 500)); (apply granted_res; [| exact Hc]);
    intros r.
  - other_header. reflexivity.
  - rewrite jsonContentType_header by discriminate. reflexivity.
Qed.

(** X22.  Cross-origin access is granted to the caller's own origin or to
    nobody.  When a response carries [Access-Control-Allow-Origin], its
    value is the [Origin] header of that request, and that origin is in the
    configured list or the list holds "*"; with an empty list, which is the
    production default, no response carries the header. *)
Theorem allowed_origin_is_the_callers_own w t0 t1 :
  (forall hv,
     resHeaders (responseOf (Server.handle cfg w m t0 t1)) !! "access-control-allow-origin"
       = Some hv ->
     exists v, hv = HStr v /\ get_header "origin" (headers m) = Some v /\
               (Server.allowAll cfg = true \/ In v (Config.corsOrigins cfg))) /\
  (Config.corsOrigins cfg = [] ->
   resHeaders (responseOf (Server.handle cfg w m t0 t1)) !! "access-control-allow-origin"
     = None).
Proof.
  assert (H0 : granted cfg m (arrival w m t0)) by (split; [reflexivity | exact I]).
  pose proof (pass_inv _ _ _ _ app_granted None _ H0) as Hinv.
  assert (Hres : exists c, granted cfg m c /\
                           responseOf (Server.handle cfg w m t0 t1) = res c).
  { unfold Server.handle, dispatch. fold (arrival w m t0).
    destruct (pass (Server.app cfg) None (arrival w m t0)) as [[c1 o] tr].
    destruct o as [| e]; destruct Hinv as [Hc _];
      cbn [responseOf fst snd]; rewrite finish_res; cbn [set_now res].
    - exists c1. split; [exact Hc | reflexivity].
    - exists (finalhandler e c1). split; [| reflexivity].
      destruct Hc as [Hm Hh]. split; [exact Hm |].
      rewrite finalhandler_header by discriminate. exact Hh. }
  destruct Hres as (c & [_ Hc] & ->).
  assert (Hallowed : forall v, Vendor.allowed (Server.corsOptions cfg) v = true ->
                               Server.allowAll cfg = true \/ In v (Config.corsOrigins cfg)).
  { intros v. unfold Vendor.allowed, Server.corsOptions. cbn [Vendor.origin].
    destruct (Server.allowAll cfg); [left; reflexivity |].
    intros H. right. apply existsb_exists in H. destruct H as (x & Hx & Heq).
    apply String.eqb_eq in Heq. subst x. exact Hx. }
  split.
  - intros hv Hhv. rewrite Hhv in Hc. destruct Hc as (v & -> & Ho & Ha).
    exists v. split; [reflexivity |]. split; [exact Ho | apply Hallowed, Ha].
  - intros Hnil.
    destruct (resHeaders (res c) !! "access-control-allow-origin") as [hv |]; [| reflexivity].
    exfalso. destruct Hc as (v & _ & _ & Ha). apply Hallowed in Ha.
    unfold Server.allowAll in Ha. rewrite Hnil in Ha. destruct Ha as [Ha | Ha];
      [discriminate Ha | destruct Ha].
Qed.

End Origin.

(** X22 at work: development allows every origin, and names the caller's. *)
Lemma allowed_origin_is_the_callers_own_witness :
  exists v,
    Http.resHeaders
      (Spec.responseOf
         (Server.handle Spec.development Spec.sampleWorld Terms.preflight 1000 1001))
      !! "access-control-allow-origin" = Some (Http.HStr v) /\
    Http.get_header "origin" (Http.headers Terms.preflight) = Some v.
Proof.
  assert (H : Http.resHeaders
                (Spec.responseOf
                   (Server.handle Spec.development Spec.sampleWorld Terms.preflight 1000 1001))
                !! "access-control-allow-origin"
              = Some (Http.HStr "https://console.example")) by (vm_compute; reflexivity).
  destruct (proj1 (allowed_origin_is_the_callers_own Spec.development Terms.preflight
                     Spec.sampleWorld 1000 1001) _ H) as (v & Hv & Ho & _).
  exists v. split; [rewrite H, Hv; reflexivity | exact Ho].
Defined.
